(** * MapGen AI: layer compositing, pixel isolation, tile stitching and history

    A shallow embedding of the TypeScript sources

      - [types.ts]                    ([Rect], [MapLayer], [DebugLog], ...)
      - [services/imageUtils.ts]      (module [ImageUtils])
      - [services/geminiService.ts]   (module [GeminiService])
      - [App.tsx]                     (modules [App], [ExportZip])
      - [components/MapCanvas.tsx]    (module [MapCanvas])
      - [components/LayerPanel.tsx]   (module [LayerPanel])

    followed by the statements that are proved about them.

    Conventions of the embedding.

    - A JavaScript [number] that can carry a fraction (world coordinates,
      the rectangles handed to a canvas) is a rational [Q]: sums,
      differences, halves and comparisons are exact.  Where the code
      divides, in the crop scale of the stitcher, the number is the IEEE 754
      double the division and the products round to, and the rational is
      the exact value of that double.  Numbers that are integers by
      construction (z-order, array offsets, canvas sizes of the stitcher,
      the history cursor) are [Z] or [nat].
    - An [ImageData.data] array is a [list Z] of R,G,B,A bytes; reading past
      its end yields [None] (JavaScript [undefined]) and writing past its
      end does nothing, which is what a typed array does.
    - A decoded image and the bitmap of a canvas are a [Raster]: a width, a
      height and a function from pixel coordinates to [Pixel]s.
    - The browser's image codec, the clock and the generation collaborator
      are the environment: [Browser], [World].  A promise that rejects and a
      [throw] are a [Throw] result.
    - Image loads complete in an order chosen by the environment; wherever
      the source draws from inside an [onload] handler the embedding takes
      the order of the load events as an explicit argument. *)

From Stdlib Require Import ZArith QArith Qround Qabs Lia Lqa ZifyNat List Permutation.
From Stdlib Require SpecFloat.
From stdpp Require Import base list sorting strings pretty.

Local Open Scope Z_scope.

(** ** Numbers *)

Module Num.

(** [a < b] on fractional numbers. *)
Definition Qltb (a b : Q) : bool := negb (Qle_bool b a).

(** [Math.round]: the nearest integer, halves going up. *)
Definition Math_round (q : Q) : Z := Qfloor (q + (1 # 2)).

(** [Math.max] on fractional numbers. *)
Definition Math_max (a b : Q) : Q := if Qle_bool a b then b else a.

(** The value a canvas keeps when [canvas.width] or [canvas.height] is
    assigned: the number truncated to an unsigned 32-bit integer. *)
Definition truncate (q : Q) : Z := Z.quot (Qnum q) (Zpos (Qden q)).
Definition canvas_dim (q : Q) : Z := (truncate q) mod 2 ^ 32.

(** A JavaScript number as the double it is: IEEE 754 binary64, 53 bits of
    precision, every operation rounded to nearest, ties to even. *)
Definition double : Type := SpecFloat.spec_float.

(** An integer literal or integer-valued variable. *)
Definition double_of_Z (z : Z) : double := SpecFloat.binary_normalize 53 1024 z 0 false.

(** [a / b] and [a * b]. *)
Definition double_div (a b : double) : double := SpecFloat.SFdiv 53 1024 a b.
Definition double_mul (a b : double) : double := SpecFloat.SFmul 53 1024 a b.

(** Neither an infinity nor NaN. *)
Definition finite (d : double) : bool :=
  match d with
  | SpecFloat.S754_zero _ | SpecFloat.S754_finite _ _ _ => true
  | _ => false
  end.

(** The exact value of a finite double. *)
Definition double_value (d : double) : Q :=
  match d with
  | SpecFloat.S754_finite s m e =>
      let v := (inject_Z (Zpos m) * 2 ^ e)%Q in if s then (- v)%Q else v
  | _ => 0%Q
  end.

End Num.

(** ** types.ts *)

Module Rect.
Record t : Type := mk { x : Q; y : Q; width : Q; height : Q }.
End Rect.

Inductive LayerType : Type := base | object.

Definition LayerType_eqb (a b : LayerType) : bool :=
  match a, b with
  | base, base | object, object => true
  | _, _ => false
  end.

Module MapLayer.
Record t : Type := mk {
  id : string;
  name : string;
  type : LayerType;
  imageData : string;
  x : Q;
  y : Q;
  width : Q;
  height : Q;
  visible : bool;
  zIndex : Z
}.
End MapLayer.

Record MapSettings : Type := {
  artStyle : string;
  projection : string;
  sunDirection : string
}.

Inductive ActiveTool : Type := pointer | rectangle | brush | eraser.

Inductive DebugType : Type := Seamless | Asset | Base.

Record DebugLog : Type := {
  timestamp : Z;
  debugType : DebugType;
  debugPrompt : string;
  inputImage : option string
}.

(** ** Pixels, rasters and the 2D canvas *)

Record Pixel : Type := { R : Z; G : Z; B : Z; A : Z }.

Definition rgb (r g b : Z) : Pixel := {| R := r; G := g; B := b; A := 255 |}.
Definition clear : Pixel := {| R := 0; G := 0; B := 0; A := 0 |}.

(** The fill styles the sources use. *)
Definition black : Pixel := rgb 0 0 0.            (* '#000000' *)
Definition neutral : Pixel := rgb 34 34 34.       (* '#222222' *)
Definition magenta : Pixel := rgb 255 0 255.      (* '#FF00FF' *)

Definition Pixel_eqb (p q : Pixel) : bool :=
  (R p =? R q) && (G p =? G q) && (B p =? B q) && (A p =? A q).

Record Raster : Type := { rw : Z; rh : Z; rpx : Z -> Z -> Pixel }.

(** Source-over compositing of one pixel.  An opaque source replaces the
    destination and a fully transparent one leaves it; in between the
    channels are mixed (integer arithmetic, rounding down). *)
Definition mix (s d : Pixel) : Pixel :=
  let a := A s + A d * (255 - A s) / 255 in
  let ch (cs cd : Z) := (cs * A s * 255 + cd * A d * (255 - A s)) / (a * 255) in
  {| R := ch (R s) (R d); G := ch (G s) (G d); B := ch (B s) (B d); A := a |}.

Definition over (s d : Pixel) : Pixel :=
  if A s =? 255 then s else if A s =? 0 then d else mix s d.

Module Canvas.

(** The calls made on a 2D context, kept as a log next to the bitmap. *)
Inductive Op : Type :=
  | FillRect (style : Pixel) (x y w h : Z)
  | DrawImage (src : string) (dx dy dw dh : Q).

(** [document.createElement('canvas')] with its size set: a transparent
    bitmap. *)
Record t : Type := mk { bitmap : Raster; log : list Op }.

Definition width (c : t) : Z := rw (bitmap c).
Definition height (c : t) : Z := rh (bitmap c).
Definition px (c : t) (i j : Z) : Pixel := rpx (bitmap c) i j.

Definition create (w h : Z) : t :=
  {| bitmap := {| rw := w; rh := h; rpx := fun _ _ => clear |}; log := [] |}.

Definition inside (c : t) (i j : Z) : bool :=
  (0 <=? i) && (i <? width c) && (0 <=? j) && (j <? height c).

(** [ctx.fillStyle = style; ctx.fillRect(x, y, w, h)] with an opaque style. *)
Definition fillRect (style : Pixel) (x y w h : Z) (c : t) : t :=
  {| bitmap :=
       {| rw := width c; rh := height c;
          rpx := fun i j =>
            if inside c i j && (x <=? i) && (i <? x + w) && (y <=? j) && (j <? y + h)
            then over style (px c i j) else px c i j |};
     log := log c ++ [FillRect style x y w h] |}.

(** [ctx.drawImage(img, x, y)]: the image at its natural size, its top-left
    corner at the integer offset [(x, y)]. *)
Definition drawImage3 (src : string) (img : Raster) (x y : Z) (c : t) : t :=
  {| bitmap :=
       {| rw := width c; rh := height c;
          rpx := fun i j =>
            if inside c i j && (x <=? i) && (i <? x + rw img) && (y <=? j) && (j <? y + rh img)
            then over (rpx img (i - x) (j - y)) (px c i j) else px c i j |};
     log := log c ++ [DrawImage src (inject_Z x) (inject_Z y)
                                    (inject_Z (rw img)) (inject_Z (rh img))] |}.

(** The source pixel shown at canvas pixel [(i, j)] when the sub-rectangle
    [(sx, sy, sw, sh)] of [img] is drawn into [(dx, dy, dw, dh)]: the centre
    of the canvas pixel is mapped back into the image and the pixel it falls
    in is taken (nearest-neighbour resampling; exact when nothing is
    scaled).  [None] outside the destination rectangle. *)
Definition sample (img : Raster) (sx sy sw sh dx dy dw dh : Q) (i j : Z) : option Pixel :=
  let cx := (inject_Z i + (1 # 2))%Q in
  let cy := (inject_Z j + (1 # 2))%Q in
  if Qle_bool dx cx && Num.Qltb cx (dx + dw) && Qle_bool dy cy && Num.Qltb cy (dy + dh)
  then
    let u := Qfloor (sx + (cx - dx) * sw / dw) in
    let v := Qfloor (sy + (cy - dy) * sh / dh) in
    if (0 <=? u) && (u <? rw img) && (0 <=? v) && (v <? rh img)
    then Some (rpx img u v) else Some clear
  else None.

(** [ctx.drawImage(img, sx, sy, sw, sh, dx, dy, dw, dh)]. *)
Definition drawImage9 (src : string) (img : Raster) (sx sy sw sh dx dy dw dh : Q) (c : t) : t :=
  {| bitmap :=
       {| rw := width c; rh := height c;
          rpx := fun i j =>
            if inside c i j then
              match sample img sx sy sw sh dx dy dw dh i j with
              | Some s => over s (px c i j)
              | None => px c i j
              end
            else px c i j |};
     log := log c ++ [DrawImage src dx dy dw dh] |}.

(** [ctx.drawImage(img, dx, dy, dw, dh)]: the whole image scaled into the
    destination rectangle. *)
Definition drawImage5 (src : string) (img : Raster) (dx dy dw dh : Q) (c : t) : t :=
  drawImage9 src img 0 0 (inject_Z (rw img)) (inject_Z (rh img)) dx dy dw dh c.

(** [ctx.getImageData(0, 0, w, h).data]: the rows of the bitmap, four bytes
    per pixel. *)
Definition pixel_bytes (p : Pixel) : list Z := [R p; G p; B p; A p].

Definition getImageData (w h : nat) (c : t) : list Z :=
  flat_map (fun j => flat_map (fun i => pixel_bytes (px c (Z.of_nat i) (Z.of_nat j))) (seq 0 w))
           (seq 0 h).

End Canvas.

(** ** The environment *)

(** What is thrown, or what a promise is rejected with. *)
Inductive thrown : Type :=
  | Error (message : string)      (* [new Error(message)] *)
  | Rejected.                     (* a rejection with a string or an event *)

(** What a promise settles to: a value, a rejection, or nothing at all (the
    handlers the source never installs: an image that fails to load with no
    [onerror] leaves its promise pending for ever). *)
Inductive outcome (T : Type) : Type :=
  | Ok (v : T)
  | Throw (e : thrown)
  | Pending.
Arguments Ok {T} v.
Arguments Throw {T} e.
Arguments Pending {T}.

(** The image codec of the browser: what a data URL decodes to ([None]: the
    [error] event fires instead of [load]) and [canvas.toDataURL()].
    [getContext('2d')] is taken to succeed. *)
Record Browser : Type := {
  decode : string -> option Raster;
  toDataURL : Canvas.t -> string
}.

(** ** services/imageUtils.ts *)

Module ImageUtils.

(** *** Byte arithmetic of the pixel loops *)

(** [Math.abs(a - b)] on array reads; [None] is the [NaN] an [undefined]
    read produces. *)
Definition abs_diff (a b : option Z) : option Z :=
  match a, b with
  | Some a, Some b => Some (Z.abs (a - b))
  | _, _ => None
  end.

Definition add3 (a b c : option Z) : option Z :=
  match a, b, c with
  | Some a, Some b, Some c => Some (a + b + c)
  | _, _, _ => None
  end.

(** [dist < threshold]; a comparison with [NaN] is false. *)
Definition below (dist : option Z) (threshold : Z) : bool :=
  match dist with
  | Some d => d <? threshold
  | None => false
  end.

(** The values [i] takes in [for (let i = 0; i < length; i += 4)]. *)
Definition offsets (length : nat) : list nat :=
  (fun k => 4 * k)%nat <$> seq 0 ((length + 3) / 4).

(** *** removeMagentaBackground *)

Definition targetR : Z := 255.
Definition targetG : Z := 0.
Definition targetB : Z := 255.
Definition magenta_threshold : Z := 100.

(** The body of the loop at offset [i]. *)
Definition magenta_dist (data : list Z) (i : nat) : option Z :=
  let r := data !! i in
  let g := data !! (i + 1)%nat in
  let b := data !! (i + 2)%nat in
  add3 (abs_diff r (Some targetR)) (abs_diff g (Some targetG)) (abs_diff b (Some targetB)).

Definition magenta_step (data : list Z) (i : nat) : list Z :=
  let dist := magenta_dist data i in
  if below dist magenta_threshold then <[(i + 3)%nat := 0]> data else data.

(** The loop over [imageData.data]. *)
Definition removeMagenta_data (data : list Z) : list Z :=
  foldl magenta_step data (offsets (length data)).

(** [ctx.putImageData(imageData, 0, 0)] for an [imageData] of width [w]. *)
Definition byte_at (data : list Z) (k : nat) : Z := default 0 (data !! k).

Definition pixel_at (w : nat) (data : list Z) (i j : Z) : Pixel :=
  let k := (4 * (Z.to_nat j * w + Z.to_nat i))%nat in
  {| R := byte_at data k; G := byte_at data (k + 1);
     B := byte_at data (k + 2); A := byte_at data (k + 3) |}.

Definition putImageData (w h : nat) (data : list Z) (c : Canvas.t) : Canvas.t :=
  {| Canvas.bitmap :=
       {| rw := Canvas.width c; rh := Canvas.height c;
          rpx := fun i j =>
            if Canvas.inside c i j && (i <? Z.of_nat w) && (j <? Z.of_nat h)
            then pixel_at w data i j else Canvas.px c i j |};
     Canvas.log := Canvas.log c |}.

Definition removeMagentaBackground (br : Browser) (imageSrc : string) : outcome string :=
  match decode br imageSrc with
  | None => Throw Rejected
  | Some img =>
      let w := Z.to_nat (rw img) in
      let h := Z.to_nat (rh img) in
      let canvas := Canvas.create (rw img) (rh img) in
      let canvas := Canvas.drawImage3 imageSrc img 0 0 canvas in
      let data := Canvas.getImageData w h canvas in
      let data := removeMagenta_data data in
      Ok (toDataURL br (putImageData w h data canvas))
  end.

(** *** createDifferenceLayer *)

Definition difference_threshold : Z := 35.

Definition difference_dist (dataOrig dataGen : list Z) (i : nat) : option Z :=
  let r1 := dataOrig !! i in
  let g1 := dataOrig !! (i + 1)%nat in
  let b1 := dataOrig !! (i + 2)%nat in
  let r2 := dataGen !! i in
  let g2 := dataGen !! (i + 1)%nat in
  let b2 := dataGen !! (i + 2)%nat in
  add3 (abs_diff r1 r2) (abs_diff g1 g2) (abs_diff b1 b2).

Definition difference_step (dataOrig dataGen : list Z) (i : nat) : list Z :=
  let dist := difference_dist dataOrig dataGen i in
  if below dist difference_threshold
  then <[(i + 3)%nat := 0]> dataGen
  else <[(i + 3)%nat := 255]> dataGen.

Definition difference_data (dataOrig dataGen : list Z) : list Z :=
  foldl (difference_step dataOrig) dataGen (offsets (length dataGen)).

(** An RGBA buffer: its size and its bytes. *)
Record ImageData : Type := { idWidth : nat; idHeight : nat; idData : list Z }.

(** What the function does once both images are drawn: the original has
    been scaled to the generated image's size, and the result takes that
    size. *)
Definition differenceLayer (orig gen : ImageData) : ImageData :=
  {| idWidth := idWidth gen; idHeight := idHeight gen;
     idData := difference_data (idData orig) (idData gen) |}.

Definition createDifferenceLayer (br : Browser) (originalBase64 generatedBase64 : string)
  : outcome string :=
  match decode br originalBase64, decode br generatedBase64 with
  | Some imgOrig, Some imgGen =>
      let width := Z.to_nat (rw imgGen) in
      let height := Z.to_nat (rh imgGen) in
      let canvas := Canvas.create (rw imgGen) (rh imgGen) in
      let cOrig := Canvas.create (rw imgGen) (rh imgGen) in
      let cOrig := Canvas.drawImage5 originalBase64 imgOrig 0 0
                     (inject_Z (rw imgGen)) (inject_Z (rh imgGen)) cOrig in
      let dataOrig := Canvas.getImageData width height cOrig in
      let canvas := Canvas.drawImage3 generatedBase64 imgGen 0 0 canvas in
      let dataGen := Canvas.getImageData width height canvas in
      let out := differenceLayer
                   {| idWidth := width; idHeight := height; idData := dataOrig |}
                   {| idWidth := width; idHeight := height; idData := dataGen |} in
      Ok (toDataURL br (putImageData (idWidth out) (idHeight out) (idData out) canvas))
  | _, _ => Pending            (* no [onerror]: [onLoaded] never runs twice *)
  end.

(** *** getContentBounds *)

Record Scan : Type := {
  minX : nat; minY : nat; maxX : nat; maxY : nat; found : bool
}.

(** [alpha > 0] for [alpha = data[i+3]]. *)
Definition alpha_positive (alpha : option Z) : bool :=
  match alpha with
  | Some a => 0 <? a
  | None => false
  end.

(** The body of the inner loop at [(x, y)]. *)
Definition scan_pixel (canvasW : nat) (data : list Z) (y : nat) (s : Scan) (x : nat) : Scan :=
  let i := ((y * canvasW + x) * 4)%nat in
  if alpha_positive (data !! (i + 3)%nat) then
    {| minX := if (x <? minX s)%nat then x else minX s;
       maxX := if (maxX s <? x)%nat then x else maxX s;
       minY := if (y <? minY s)%nat then y else minY s;
       maxY := if (maxY s <? y)%nat then y else maxY s;
       found := true |}
  else s.

Definition scan_row (canvasW : nat) (data : list Z) (s : Scan) (y : nat) : Scan :=
  foldl (scan_pixel canvasW data y) s (seq 0 canvasW).

Definition scan_start (canvasW canvasH : nat) : Scan :=
  {| minX := canvasW; minY := canvasH; maxX := 0; maxY := 0; found := false |}.

Definition scan (canvasW canvasH : nat) (data : list Z) : Scan :=
  foldl (scan_row canvasW data) (scan_start canvasW canvasH) (seq 0 canvasH).



Definition nat_Q (n : nat) : Q := inject_Z (Z.of_nat n).

(** The value the promise resolves to, from [imageData.data]. *)
Definition contentBounds (canvasW canvasH : nat) (data : list Z) : option Rect.t :=
  let s := scan canvasW canvasH data in
  if found s then
    Some {| Rect.x := nat_Q (minX s); Rect.y := nat_Q (minY s);
            Rect.width := (nat_Q (maxX s) - nat_Q (minX s))%Q;
            Rect.height := (nat_Q (maxY s) - nat_Q (minY s))%Q |}
  else None.

Definition getContentBounds (br : Browser) (imageSrc : string) (canvasW canvasH : nat)
  : outcome (option Rect.t) :=
  match decode br imageSrc with
  | None => Pending                              (* no [onerror] *)
  | Some img =>
      let canvas := Canvas.create (Z.of_nat canvasW) (Z.of_nat canvasH) in
      let canvas := Canvas.drawImage3 imageSrc img 0 0 canvas in
      Ok (contentBounds canvasW canvasH (Canvas.getImageData canvasW canvasH canvas))
  end.

(** *** Compositing *)

(** [[...layers].sort((a, b) => a.zIndex - b.zIndex)].  [Array.prototype.sort]
    is stable; the insertion below keeps [a] in front of every element the
    comparator does not put before it. *)
Definition compare_zIndex (a b : MapLayer.t) : Z := MapLayer.zIndex a - MapLayer.zIndex b.

Fixpoint insert_layer (a : MapLayer.t) (l : list MapLayer.t) : list MapLayer.t :=
  match l with
  | [] => [a]
  | b :: l' => if compare_zIndex a b <=? 0 then a :: b :: l' else b :: insert_layer a l'
  end.

Definition sort_layers (l : list MapLayer.t) : list MapLayer.t :=
  foldr insert_layer [] l.

(** One image request settles.  [requests] are the layers whose images were
    requested, in the order [forEach] visited them; [k] is the position of
    the request whose event fires: [onload] draws the layer, [onerror] only
    counts. *)
Definition settle (br : Browser) (draw : MapLayer.t -> Raster -> Canvas.t -> Canvas.t)
    (requests : list MapLayer.t) (c : Canvas.t) (k : nat) : Canvas.t :=
  match requests !! k with
  | Some layer =>
      match decode br (MapLayer.imageData layer) with
      | Some img => draw layer img c
      | None => c
      end
  | None => c
  end.

(** The events fire one after another; [checkDone] resolves the promise
    with the canvas as it is when [loadedCount] reaches the number of
    requests.  [None]: the events ran out before that and the promise is
    still pending. *)
Fixpoint settle_all (br : Browser) (draw : MapLayer.t -> Raster -> Canvas.t -> Canvas.t)
    (requests : list MapLayer.t) (loadedCount : nat) (c : Canvas.t) (events : list nat)
  : option Canvas.t :=
  match events with
  | [] => None
  | k :: events' =>
      let c' := settle br draw requests c k in
      let loadedCount' := S loadedCount in
      if (loadedCount' =? length requests)%nat then Some c'
      else settle_all br draw requests loadedCount' c' events'
  end.

(** The load events firing in the order the requests were made. *)
Definition in_order (requests : list MapLayer.t) : list nat := seq 0 (length requests).

(** Every request fires exactly one event. *)
Definition schedule (requests : list MapLayer.t) (events : list nat) : Prop :=
  Permutation events (in_order requests).

(** What [onload] does for one layer, or [onerror]. *)
Definition paint (br : Browser) (draw : MapLayer.t -> Raster -> Canvas.t -> Canvas.t)
    (c : Canvas.t) (layer : MapLayer.t) : Canvas.t :=
  match decode br (MapLayer.imageData layer) with
  | Some img => draw layer img c
  | None => c
  end.

(** The layers [getCompositeRect] requests, in request order. *)
Definition compositeRect_requests (layers : list MapLayer.t) : list MapLayer.t :=
  let sorted := sort_layers layers in
  filter (fun l => MapLayer.visible l = true) sorted.

Definition drawLayer (offsetX offsetY : Q) (layer : MapLayer.t) (img : Raster) (c : Canvas.t)
  : Canvas.t :=
  Canvas.drawImage5 (MapLayer.imageData layer) img
    (MapLayer.x layer - offsetX)%Q (MapLayer.y layer - offsetY)%Q
    (MapLayer.width layer) (MapLayer.height layer) c.

(** The pixel of [layer] that [drawLayer] puts on canvas pixel [(i, j)];
    [None] where the layer does not reach or its image does not load. *)
Definition shows (br : Browser) (offsetX offsetY : Q) (layer : MapLayer.t) (i j : Z)
  : option Pixel :=
  match decode br (MapLayer.imageData layer) with
  | Some img =>
      Canvas.sample img 0 0 (inject_Z (rw img)) (inject_Z (rh img))
        (MapLayer.x layer - offsetX)%Q (MapLayer.y layer - offsetY)%Q
        (MapLayer.width layer) (MapLayer.height layer) i j
  | None => None
  end.

(** The canvas [getCompositeRect] resolves with, for the load events
    [events].  The opaque black fill covers the whole canvas. *)
Definition compositeRect_canvas (br : Browser) (events : list nat)
    (rect : Rect.t) (layers : list MapLayer.t) : option Canvas.t :=
  let canvas := Canvas.create (Num.canvas_dim (Rect.width rect))
                              (Num.canvas_dim (Rect.height rect)) in
  let canvas := Canvas.fillRect black 0 0 (Qceiling (Rect.width rect))
                                (Qceiling (Rect.height rect)) canvas in
  let visible := compositeRect_requests layers in
  if (length visible =? 0)%nat then Some canvas
  else settle_all br (drawLayer (Rect.x rect) (Rect.y rect)) visible 0 canvas events.

Definition getCompositeRect (br : Browser) (events : list nat)
    (rect : Rect.t) (layers : list MapLayer.t) : outcome string :=
  match compositeRect_canvas br events rect layers with
  | Some canvas => Ok (toDataURL br canvas)
  | None => Pending
  end.

(** [compositeLayers]: the bounds of the visible layers. *)
Definition Qminb (a b : Q) : Q := if Qle_bool a b then a else b.

Record Bounds : Type := { bMinX : Q; bMinY : Q; bMaxX : Q; bMaxY : Q }.

(** [Math.min(Infinity, v)] and [Math.max(-Infinity, v)] are [v]: the
    bounds start from the first visible layer. *)
Definition grow (b : option Bounds) (l : MapLayer.t) : option Bounds :=
  let right := (MapLayer.x l + MapLayer.width l)%Q in
  let bottom := (MapLayer.y l + MapLayer.height l)%Q in
  match b with
  | None => Some {| bMinX := MapLayer.x l; bMinY := MapLayer.y l;
                    bMaxX := right; bMaxY := bottom |}
  | Some b => Some {| bMinX := Qminb (bMinX b) (MapLayer.x l);
                      bMinY := Qminb (bMinY b) (MapLayer.y l);
                      bMaxX := Num.Math_max (bMaxX b) right;
                      bMaxY := Num.Math_max (bMaxY b) bottom |}
  end.

(** The layers [compositeLayers] requests, in request order. *)
Definition compositeLayers_requests (layers : list MapLayer.t) : list MapLayer.t :=
  let visibleLayers := filter (fun l => MapLayer.visible l = true) layers in
  sort_layers visibleLayers.

(** [width || v]: zero is falsy. *)
Definition or_else (n v : Q) : Q := if Qeq_bool n 0 then v else n.

Definition compositeLayers_canvas (br : Browser) (events : list nat)
    (width height : Q) (layers : list MapLayer.t) : option Canvas.t :=
  let visibleLayers := filter (fun l => MapLayer.visible l = true) layers in
  match foldl grow None visibleLayers with
  | None => Some (Canvas.create (Num.canvas_dim width) (Num.canvas_dim height))
  | Some b =>
      let exportWidth := or_else width (bMaxX b - bMinX b)%Q in
      let exportHeight := or_else height (bMaxY b - bMinY b)%Q in
      let offsetX := if Qeq_bool width 0 then bMinX b else 0%Q in
      let offsetY := if Qeq_bool height 0 then bMinY b else 0%Q in
      let canvas := Canvas.create (Num.canvas_dim exportWidth) (Num.canvas_dim exportHeight) in
      let sorted := sort_layers visibleLayers in
      settle_all br (drawLayer offsetX offsetY) sorted 0 canvas events
  end.

Definition compositeLayers (br : Browser) (events : list nat)
    (width height : Q) (layers : list MapLayer.t) : outcome string :=
  match compositeLayers_canvas br events width height layers with
  | Some canvas => Ok (toDataURL br canvas)
  | None => Pending
  end.

(** *** overlayImage and cropAndResize *)

Definition overlayImage (br : Browser) (baseSrc overlaySrc : string) : outcome string :=
  match decode br baseSrc, decode br overlaySrc with
  | Some imgBase, Some imgOverlay =>
      let canvas := Canvas.create (rw imgBase) (rh imgBase) in
      let canvas := Canvas.drawImage3 baseSrc imgBase 0 0 canvas in
      let canvas := Canvas.drawImage3 overlaySrc imgOverlay 0 0 canvas in
      Ok (toDataURL br canvas)
  | _, _ => Throw Rejected
  end.

Definition cropAndResize_canvas (base64Image : string) (img : Raster)
    (x y w h targetW targetH : Q) : Canvas.t :=
  let canvas := Canvas.create (Num.canvas_dim targetW) (Num.canvas_dim targetH) in
  Canvas.drawImage9 base64Image img x y w h 0 0 targetW targetH canvas.

Definition cropAndResize (br : Browser) (base64Image : string)
    (x y w h targetW targetH : Q) : outcome string :=
  match decode br base64Image with
  | Some img => Ok (toDataURL br (cropAndResize_canvas base64Image img x y w h targetW targetH))
  | None => Throw Rejected
  end.

End ImageUtils.

(** ** The generation collaborator and the rest of the environment *)

(** A part of a response: [inlineData] (its [mimeType] and [data]) or text. *)
Record Part : Type := {
  inlineData : option (string * string);
  text : option string
}.

(** What [ai.models.generateContent] does for one call: it throws (a
    transport error), or it answers with
    [response.candidates?.[0]?.content?.parts || []]. *)
Inductive GenOutcome : Type :=
  | Fails (e : thrown)
  | Responds (parts : list Part).

(** A request as far as the handlers determine it.  The wording of the
    prompt templates and the debug callback are left out: no handler reads
    them back. *)
Record Request : Type := {
  reqKind : DebugType;
  reqPrompt : string;
  reqSettings : MapSettings;
  reqImage : option string
}.

Record World : Type := {
  browser : Browser;
  apiKey : bool;                          (* [process.env.API_KEY] is set *)
  now : Z;                                (* [Date.now()] *)
  respond : nat -> GenOutcome;            (* the outcome of the n-th call *)
  dispatched : list Request;              (* the calls made so far *)
  loadEvents : list string -> list nat    (* the order in which the loads of
                                             the requested sources complete *)
}.

(** Asynchronous code: it reads and extends the world and settles. *)
Definition Async (T : Type) : Type := World -> outcome T * World.

#[export] Instance Async_ret : MRet Async := fun T v w => (Ok v, w).

#[export] Instance Async_bind : MBind Async := fun T U f m w =>
  match m w with
  | (Ok v, w') => f v w'
  | (Throw e, w') => (Throw e, w')
  | (Pending, w') => (Pending, w')
  end.

Definition throw {T : Type} (e : thrown) : Async T := fun w => (Throw e, w).

(** [await p] for a promise that is already determined. *)
Definition await {T : Type} (p : outcome T) : Async T := fun w => (p, w).

Definition ask {T : Type} (f : World -> T) : Async T := fun w => (Ok (f w), w).

(** One call of [ai.models.generateContent]. *)
Definition generateContent (req : Request) : Async (list Part) := fun w =>
  let w' := {| browser := browser w; apiKey := apiKey w; now := now w;
               respond := respond w; dispatched := dispatched w ++ [req];
               loadEvents := loadEvents w |} in
  match respond w (length (dispatched w)) with
  | Fails e => (Throw e, w')
  | Responds parts => (Ok parts, w')
  end.

(** ** services/geminiService.ts *)

Module GeminiService.

(** The next call of the collaborator fails: it throws, or its response
    carries no image. *)
Definition generation_fails (w : World) : Prop :=
  match respond w (length (dispatched w)) with
  | Fails _ => True
  | Responds parts => forall part, part ∈ parts -> inlineData part = None
  end.

Definition getClient : Async unit := fun w =>
  if apiKey w then (Ok tt, w)
  else (Throw (Error "API Key not found in environment variables"), w).

(** [for (const part of parts) if (part.inlineData) return `data:...`]. *)
Definition dataURL (inline : string * string) : string :=
  "data:" +:+ fst inline +:+ ";base64," +:+ snd inline.

Fixpoint first_image (parts : list Part) : option string :=
  match parts with
  | [] => None
  | part :: parts' =>
      match inlineData part with
      | Some inline => Some (dataURL inline)
      | None => first_image parts'
      end
  end.

(** The [try] block: the [catch] logs and rethrows, so a failure of the call
    and a response without image both leave the function by a [throw]. *)
Definition generateMapAsset (prompt : string) (settings : MapSettings)
    (contextImageBase64 : option string) : Async string :=
  _ ← getClient;
  parts ← generateContent {| reqKind := Asset; reqPrompt := prompt;
                             reqSettings := settings; reqImage := contextImageBase64 |};
  match first_image parts with
  | Some url => mret url
  | None => throw (Error "No image data found in response")
  end.

Definition generateBaseTexture (promptInput : string) (settings : MapSettings) : Async string :=
  _ ← getClient;
  parts ← generateContent {| reqKind := Base; reqPrompt := promptInput;
                             reqSettings := settings; reqImage := None |};
  match first_image parts with
  | Some url => mret url
  | None => throw (Error "No base texture generated")
  end.

(** *** generateSeamlessTexture *)

Record Neighbors : Type := {
  left : option string; right : option string;
  top : option string; bottom : option string
}.

(** [if (neighbors.left)]: a missing property and the empty string are
    falsy. *)
Definition present (o : option string) : bool :=
  match o with
  | Some s => negb (String.eqb s "")
  | None => false
  end.

Definition TARGET_SIZE : Z := 1024.
Definition STRIP_SIZE : Z := 256.

Record Layout : Type := {
  contentW : Z; contentH : Z; targetX : Z; targetY : Z
}.

(** "Calculate content dimensions and target offset". *)
Definition layout (n : Neighbors) : Layout :=
  let l0 := {| contentW := TARGET_SIZE; contentH := TARGET_SIZE; targetX := 0; targetY := 0 |} in
  let l1 := if present (left n)
            then {| contentW := contentW l0 + STRIP_SIZE; contentH := contentH l0;
                    targetX := targetX l0 + STRIP_SIZE; targetY := targetY l0 |}
            else l0 in
  let l2 := if present (right n)
            then {| contentW := contentW l1 + STRIP_SIZE; contentH := contentH l1;
                    targetX := targetX l1; targetY := targetY l1 |}
            else l1 in
  let l3 := if present (top n)
            then {| contentW := contentW l2; contentH := contentH l2 + STRIP_SIZE;
                    targetX := targetX l2; targetY := targetY l2 + STRIP_SIZE |}
            else l2 in
  if present (bottom n)
  then {| contentW := contentW l3; contentH := contentH l3 + STRIP_SIZE;
          targetX := targetX l3; targetY := targetY l3 |}
  else l3.

(** "FORCE SQUARE CANVAS". *)
Definition canvasSize (n : Neighbors) : Z :=
  Z.max (contentW (layout n)) (contentH (layout n)).

(** The promise of one [loadAndDraw(src, x, y)] call.  The call creates the
    image and returns at its [await]; the rest of its body, the
    [ctx.drawImage(img, x, y)], runs once, when the [load] event of the
    image fires, and fulfils the promise.  There is no [onerror]: an image
    that does not decode leaves the promise pending. *)
Record DrawPromise : Type := {
  pSrc : string; pX : Z; pY : Z; fulfilled : bool
}.

Definition loadAndDraw (src : string) (x y : Z) : DrawPromise :=
  {| pSrc := src; pX := x; pY := y; fulfilled := false |}.

(** The [promises] array, in the order of the [push] calls. *)
Definition strip_promises (n : Neighbors) : list DrawPromise :=
  let tX := targetX (layout n) in
  let tY := targetY (layout n) in
  (if present (left n) then [loadAndDraw (default "" (left n)) 0 tY] else []) ++
  (if present (right n) then [loadAndDraw (default "" (right n)) (tX + TARGET_SIZE) tY] else []) ++
  (if present (top n) then [loadAndDraw (default "" (top n)) tX 0] else []) ++
  (if present (bottom n) then [loadAndDraw (default "" (bottom n)) tX (tY + TARGET_SIZE)] else []).

(** The [load] event of the [k]-th image: the body of its [loadAndDraw]
    resumes, unless it already has. *)
Definition fire (br : Browser) (st : list DrawPromise * Canvas.t) (k : nat)
  : list DrawPromise * Canvas.t :=
  let (promises, c) := st in
  match promises !! k with
  | Some p =>
      if fulfilled p then st
      else match decode br (pSrc p) with
           | Some img =>
               (<[k := {| pSrc := pSrc p; pX := pX p; pY := pY p; fulfilled := true |}]> promises,
                Canvas.drawImage3 (pSrc p) img (pX p) (pY p) c)
           | None => st
           end
  | None => st
  end.

(** [await Promise.all(promises)]: the events that are still to come fire,
    and the function goes on once every promise is fulfilled.  Promises that
    are fulfilled already are not run again. *)
Definition await_all (br : Browser) (events : list nat)
    (st : list DrawPromise * Canvas.t) : option (list DrawPromise * Canvas.t) :=
  let st' := foldl (fire br) st events in
  if forallb fulfilled (fst st') then Some st' else None.

(** The canvas sent to the collaborator. *)
Definition stitch_canvas (br : Browser) (events : list nat) (n : Neighbors)
  : option Canvas.t :=
  let size := canvasSize n in
  let tX := targetX (layout n) in
  let tY := targetY (layout n) in
  let canvas := Canvas.create size size in
  (* 1. Fill background with neutral dark color *)
  let canvas := Canvas.fillRect neutral 0 0 size size canvas in
  (* 2. Draw Neighbors *)
  let promises := strip_promises n in
  st ← await_all br events (promises, canvas);
  (* 3. Fill the "Target Void" *)
  let canvas := Canvas.fillRect magenta tX tY TARGET_SIZE TARGET_SIZE (snd st) in
  (* "Redraw strips on top": [await Promise.all(promises)] once more *)
  st ← await_all br events (fst st, canvas);
  Some (snd st).

(** "4. Crop the Result". *)
Definition outputSize : Z := 1024.

Record Crop : Type := { cropX : Q; cropY : Q; cropW : Q; cropH : Q }.

Definition scale (n : Neighbors) : Num.double :=
  Num.double_div (Num.double_of_Z outputSize) (Num.double_of_Z (canvasSize n)).

(** [z * scale] for an integer [z], as the number handed to the canvas. *)
Definition scaled (z : Z) (n : Neighbors) : Q :=
  Num.double_value (Num.double_mul (Num.double_of_Z z) (scale n)).

Definition crop (n : Neighbors) : Crop :=
  {| cropX := scaled (targetX (layout n)) n;
     cropY := scaled (targetY (layout n)) n;
     cropW := scaled TARGET_SIZE n;
     cropH := scaled TARGET_SIZE n |}.

(** The canvas [cropAndResize] draws for the final block. *)
Definition finalBlock_canvas (generatedBase64 : string) (generated : Raster) (n : Neighbors)
  : Canvas.t :=
  ImageUtils.cropAndResize_canvas generatedBase64 generated
    (cropX (crop n)) (cropY (crop n)) (cropW (crop n)) (cropH (crop n))
    (inject_Z TARGET_SIZE) (inject_Z TARGET_SIZE).

Definition generateSeamlessTexture (n : Neighbors) (settings : MapSettings)
    (basePrompt : string) : Async string :=
  _ ← getClient;
  br ← ask browser;
  events ← ask (fun w => loadEvents w (pSrc <$> strip_promises n));
  match stitch_canvas br events n with
  | None => await Pending
  | Some canvas =>
      let inputImageBase64 := toDataURL br canvas in
      parts ← generateContent {| reqKind := Seamless; reqPrompt := basePrompt;
                                 reqSettings := settings;
                                 reqImage := Some inputImageBase64 |};
      match first_image parts with
      | None => throw (Error "No seamless texture generated")
      | Some generatedBase64 =>
          await (ImageUtils.cropAndResize br generatedBase64
                   (cropX (crop n)) (cropY (crop n)) (cropW (crop n)) (cropH (crop n))
                   (inject_Z TARGET_SIZE) (inject_Z TARGET_SIZE))
      end
  end.

End GeminiService.

(** ** App.tsx *)

Module App.

Definition CANVAS_WIDTH : Z := 1024.
Definition CANVAS_HEIGHT : Z := 1024.
Definition STRIP_SIZE : Z := 256.

(** The component state the handlers read and write ([useState]). *)
Record State : Type := {
  layers : list MapLayer.t;
  history : list (list MapLayer.t);
  historyIndex : Z;
  selection : option Rect.t;
  selectedLayerId : option string;
  activeTool : ActiveTool;
  brushMask : option string;
  prompt : string;
  isGenerating : bool;
  error : option string;
  viewX : Q;
  viewY : Q;
  mapSettings : MapSettings;
  isBaseModalOpen : bool;
  basePrompt : string;
  lastBasePrompt : string
}.

(** The [set...] functions of [useState]. *)
Definition setLayers (v : list MapLayer.t) (st : State) : State :=
  {| layers := v; history := history st; historyIndex := historyIndex st; selection := selection st; selectedLayerId := selectedLayerId st; activeTool := activeTool st; brushMask := brushMask st; prompt := prompt st; isGenerating := isGenerating st; error := error st; viewX := viewX st; viewY := viewY st; mapSettings := mapSettings st; isBaseModalOpen := isBaseModalOpen st; basePrompt := basePrompt st; lastBasePrompt := lastBasePrompt st |}.
Definition setHistory (v : list (list MapLayer.t)) (st : State) : State :=
  {| layers := layers st; history := v; historyIndex := historyIndex st; selection := selection st; selectedLayerId := selectedLayerId st; activeTool := activeTool st; brushMask := brushMask st; prompt := prompt st; isGenerating := isGenerating st; error := error st; viewX := viewX st; viewY := viewY st; mapSettings := mapSettings st; isBaseModalOpen := isBaseModalOpen st; basePrompt := basePrompt st; lastBasePrompt := lastBasePrompt st |}.
Definition setHistoryIndex (v : Z) (st : State) : State :=
  {| layers := layers st; history := history st; historyIndex := v; selection := selection st; selectedLayerId := selectedLayerId st; activeTool := activeTool st; brushMask := brushMask st; prompt := prompt st; isGenerating := isGenerating st; error := error st; viewX := viewX st; viewY := viewY st; mapSettings := mapSettings st; isBaseModalOpen := isBaseModalOpen st; basePrompt := basePrompt st; lastBasePrompt := lastBasePrompt st |}.
Definition setSelection (v : option Rect.t) (st : State) : State :=
  {| layers := layers st; history := history st; historyIndex := historyIndex st; selection := v; selectedLayerId := selectedLayerId st; activeTool := activeTool st; brushMask := brushMask st; prompt := prompt st; isGenerating := isGenerating st; error := error st; viewX := viewX st; viewY := viewY st; mapSettings := mapSettings st; isBaseModalOpen := isBaseModalOpen st; basePrompt := basePrompt st; lastBasePrompt := lastBasePrompt st |}.
Definition setSelectedLayerId (v : option string) (st : State) : State :=
  {| layers := layers st; history := history st; historyIndex := historyIndex st; selection := selection st; selectedLayerId := v; activeTool := activeTool st; brushMask := brushMask st; prompt := prompt st; isGenerating := isGenerating st; error := error st; viewX := viewX st; viewY := viewY st; mapSettings := mapSettings st; isBaseModalOpen := isBaseModalOpen st; basePrompt := basePrompt st; lastBasePrompt := lastBasePrompt st |}.
Definition setActiveTool (v : ActiveTool) (st : State) : State :=
  {| layers := layers st; history := history st; historyIndex := historyIndex st; selection := selection st; selectedLayerId := selectedLayerId st; activeTool := v; brushMask := brushMask st; prompt := prompt st; isGenerating := isGenerating st; error := error st; viewX := viewX st; viewY := viewY st; mapSettings := mapSettings st; isBaseModalOpen := isBaseModalOpen st; basePrompt := basePrompt st; lastBasePrompt := lastBasePrompt st |}.
Definition setBrushMask (v : option string) (st : State) : State :=
  {| layers := layers st; history := history st; historyIndex := historyIndex st; selection := selection st; selectedLayerId := selectedLayerId st; activeTool := activeTool st; brushMask := v; prompt := prompt st; isGenerating := isGenerating st; error := error st; viewX := viewX st; viewY := viewY st; mapSettings := mapSettings st; isBaseModalOpen := isBaseModalOpen st; basePrompt := basePrompt st; lastBasePrompt := lastBasePrompt st |}.
Definition setPrompt (v : string) (st : State) : State :=
  {| layers := layers st; history := history st; historyIndex := historyIndex st; selection := selection st; selectedLayerId := selectedLayerId st; activeTool := activeTool st; brushMask := brushMask st; prompt := v; isGenerating := isGenerating st; error := error st; viewX := viewX st; viewY := viewY st; mapSettings := mapSettings st; isBaseModalOpen := isBaseModalOpen st; basePrompt := basePrompt st; lastBasePrompt := lastBasePrompt st |}.
Definition setIsGenerating (v : bool) (st : State) : State :=
  {| layers := layers st; history := history st; historyIndex := historyIndex st; selection := selection st; selectedLayerId := selectedLayerId st; activeTool := activeTool st; brushMask := brushMask st; prompt := prompt st; isGenerating := v; error := error st; viewX := viewX st; viewY := viewY st; mapSettings := mapSettings st; isBaseModalOpen := isBaseModalOpen st; basePrompt := basePrompt st; lastBasePrompt := lastBasePrompt st |}.
Definition setError (v : option string) (st : State) : State :=
  {| layers := layers st; history := history st; historyIndex := historyIndex st; selection := selection st; selectedLayerId := selectedLayerId st; activeTool := activeTool st; brushMask := brushMask st; prompt := prompt st; isGenerating := isGenerating st; error := v; viewX := viewX st; viewY := viewY st; mapSettings := mapSettings st; isBaseModalOpen := isBaseModalOpen st; basePrompt := basePrompt st; lastBasePrompt := lastBasePrompt st |}.
Definition setIsBaseModalOpen (v : bool) (st : State) : State :=
  {| layers := layers st; history := history st; historyIndex := historyIndex st; selection := selection st; selectedLayerId := selectedLayerId st; activeTool := activeTool st; brushMask := brushMask st; prompt := prompt st; isGenerating := isGenerating st; error := error st; viewX := viewX st; viewY := viewY st; mapSettings := mapSettings st; isBaseModalOpen := v; basePrompt := basePrompt st; lastBasePrompt := lastBasePrompt st |}.
Definition setBasePrompt (v : string) (st : State) : State :=
  {| layers := layers st; history := history st; historyIndex := historyIndex st; selection := selection st; selectedLayerId := selectedLayerId st; activeTool := activeTool st; brushMask := brushMask st; prompt := prompt st; isGenerating := isGenerating st; error := error st; viewX := viewX st; viewY := viewY st; mapSettings := mapSettings st; isBaseModalOpen := isBaseModalOpen st; basePrompt := v; lastBasePrompt := lastBasePrompt st |}.
Definition setLastBasePrompt (v : string) (st : State) : State :=
  {| layers := layers st; history := history st; historyIndex := historyIndex st; selection := selection st; selectedLayerId := selectedLayerId st; activeTool := activeTool st; brushMask := brushMask st; prompt := prompt st; isGenerating := isGenerating st; error := error st; viewX := viewX st; viewY := viewY st; mapSettings := mapSettings st; isBaseModalOpen := isBaseModalOpen st; basePrompt := basePrompt st; lastBasePrompt := v |}.
Definition setViewState (vx vy : Q) (st : State) : State :=
  {| layers := layers st; history := history st; historyIndex := historyIndex st; selection := selection st; selectedLayerId := selectedLayerId st; activeTool := activeTool st; brushMask := brushMask st; prompt := prompt st; isGenerating := isGenerating st; error := error st; viewX := vx; viewY := vy; mapSettings := mapSettings st; isBaseModalOpen := isBaseModalOpen st; basePrompt := basePrompt st; lastBasePrompt := lastBasePrompt st |}.

(** The state of the first render. *)
Definition initial : State :=
  {| layers := []; history := []; historyIndex := -1;
     selection := None; selectedLayerId := None;
     activeTool := pointer; brushMask := None;
     prompt := ""; isGenerating := false; error := None;
     viewX := 0; viewY := 0;
     mapSettings :=
       {| artStyle := "Professional 2D RPG game art, semi-realistic with hand-painted details";
          projection := "Top-down orthographic (Bird's eye view)";
          sunDirection := "Top-Left" |};
     isBaseModalOpen := false; basePrompt := ""; lastBasePrompt := "grassland" |}.

(** "Initial setup: Base layer" (the mount effect). *)
Definition bootstrap_image (br : Browser) : string :=
  let canvas := Canvas.create 64 64 in
  let canvas := Canvas.fillRect (rgb 26 46 26) 0 0 64 64 canvas in      (* '#1a2e1a' *)
  let canvas := Canvas.fillRect (rgb 34 56 34) 0 0 32 32 canvas in      (* '#223822' *)
  let canvas := Canvas.fillRect (rgb 34 56 34) 32 32 32 32 canvas in
  toDataURL br canvas.

Definition bootstrap_layer (br : Browser) : MapLayer.t :=
  {| MapLayer.id := "layer-base-0-0";
     MapLayer.name := "Base Start";
     MapLayer.type := base;
     MapLayer.imageData := bootstrap_image br;
     MapLayer.x := 0;
     MapLayer.y := 0;
     MapLayer.width := inject_Z CANVAS_WIDTH;
     MapLayer.height := inject_Z CANVAS_HEIGHT;
     MapLayer.visible := true;
     MapLayer.zIndex := 0 |}.

Definition mount (st : State) (w : World) : State :=
  if (length (layers st) =? 0)%nat && (length (history st) =? 0)%nat then
    let initialLayers := [bootstrap_layer (browser w)] in
    setHistoryIndex 0 (setHistory [initialLayers] (setLayers initialLayers st))
  else st.

(** *** History *)

(** [history.slice(0, end)]. *)
Definition slice0 {T : Type} (l : list T) (e : Z) : list T :=
  if e <? 0 then take (Z.to_nat (Z.max (Z.of_nat (length l) + e) 0)) l
  else take (Z.to_nat e) l.

Definition addToHistory (newLayers : list MapLayer.t) (st : State) : State :=
  let newHistory := slice0 (history st) (historyIndex st + 1) in
  let newHistory := newHistory ++ [newLayers] in
  setLayers newLayers
    (setHistoryIndex (Z.of_nat (length newHistory) - 1)
       (setHistory newHistory st)).

(** [history[newIndex]]; [None] is [undefined], with which [setLayers] would
    leave the component without a layer array: the next render fails. *)
Definition entry (history : list (list MapLayer.t)) (i : Z) : option (list MapLayer.t) :=
  if i <? 0 then None else history !! Z.to_nat i.

Definition handleUndo (st : State) : option State :=
  if 0 <? historyIndex st then
    let newIndex := historyIndex st - 1 in
    scene ← entry (history st) newIndex;
    Some (setSelection None (setLayers scene (setHistoryIndex newIndex st)))
  else Some st.

Definition handleRedo (st : State) : option State :=
  if historyIndex st <? Z.of_nat (length (history st)) - 1 then
    let newIndex := historyIndex st + 1 in
    scene ← entry (history st) newIndex;
    Some (setSelection None (setLayers scene (setHistoryIndex newIndex st)))
  else Some st.

Definition handleToolChange (tool : ActiveTool) (st : State) : State :=
  let st := setActiveTool tool st in
  let st := match tool with rectangle => st | _ => setSelection None st end in
  match tool with brush => st | _ => setBrushMask None st end.

(** *** Awaited image services, with the environment's browser *)

Definition getCompositeRect (rect : Rect.t) (layers : list MapLayer.t) : Async string :=
  fun w =>
    let requests := ImageUtils.compositeRect_requests layers in
    (ImageUtils.getCompositeRect (browser w)
       (loadEvents w (MapLayer.imageData <$> requests)) rect layers, w).

Definition getContentBounds (imageSrc : string) (canvasW canvasH : nat)
  : Async (option Rect.t) :=
  fun w => (ImageUtils.getContentBounds (browser w) imageSrc canvasW canvasH, w).

Definition overlayImage (baseSrc overlaySrc : string) : Async string :=
  fun w => (ImageUtils.overlayImage (browser w) baseSrc overlaySrc, w).

Definition cropAndResize (src : string) (x y w h targetW targetH : Q) : Async string :=
  fun wd => (ImageUtils.cropAndResize (browser wd) src x y w h targetW targetH, wd).

Definition createDifferenceLayer (originalBase64 generatedBase64 : string) : Async string :=
  fun w => (ImageUtils.createDifferenceLayer (browser w) originalBase64 generatedBase64, w).

Definition removeMagentaBackground (imageSrc : string) : Async string :=
  fun w => (ImageUtils.removeMagentaBackground (browser w) imageSrc, w).

(** *** handleNavigate *)

Inductive Direction : Type := dirTop | dirBottom | dirLeft | dirRight.

Definition is_base (l : MapLayer.t) : bool := LayerType_eqb (MapLayer.type l) base.

(** "Check if base exists for this grid". *)
Definition baseExists (layers : list MapLayer.t) (targetX targetY : Q) : bool :=
  existsb (fun l => is_base l
                    && Num.Qltb (Qabs (MapLayer.x l - targetX)) 50
                    && Num.Qltb (Qabs (MapLayer.y l - targetY)) 50) layers.

Definition EPSILON : Q := 100.

Definition hasLeft (layers : list MapLayer.t) (targetX targetY : Q) : bool :=
  existsb (fun l => is_base l
                    && Num.Qltb (Qabs (MapLayer.x l - (targetX - inject_Z CANVAS_WIDTH))) EPSILON
                    && Num.Qltb (Qabs (MapLayer.y l - targetY)) EPSILON) layers.

Definition hasRight (layers : list MapLayer.t) (targetX targetY : Q) : bool :=
  existsb (fun l => is_base l
                    && Num.Qltb (Qabs (MapLayer.x l - (targetX + inject_Z CANVAS_WIDTH))) EPSILON
                    && Num.Qltb (Qabs (MapLayer.y l - targetY)) EPSILON) layers.

Definition hasTop (layers : list MapLayer.t) (targetX targetY : Q) : bool :=
  existsb (fun l => is_base l
                    && Num.Qltb (Qabs (MapLayer.x l - targetX)) EPSILON
                    && Num.Qltb (Qabs (MapLayer.y l - (targetY - inject_Z CANVAS_HEIGHT))) EPSILON)
          layers.

Definition hasBottom (layers : list MapLayer.t) (targetX targetY : Q) : bool :=
  existsb (fun l => is_base l
                    && Num.Qltb (Qabs (MapLayer.x l - targetX)) EPSILON
                    && Num.Qltb (Qabs (MapLayer.y l - (targetY + inject_Z CANVAS_HEIGHT))) EPSILON)
          layers.

(** "Check ALL neighbors to build context": the strip of each neighbour that
    is there. *)
Definition strip (has : bool) (rect : Rect.t) (layers : list MapLayer.t)
  : Async (option string) :=
  if has then s ← getCompositeRect rect layers; mret (Some s) else mret None.

Definition collectNeighbors (layers : list MapLayer.t) (targetX targetY : Q)
  : Async GeminiService.Neighbors :=
  let cw := inject_Z CANVAS_WIDTH in
  let chh := inject_Z CANVAS_HEIGHT in
  let ss := inject_Z STRIP_SIZE in
  l ← strip (hasLeft layers targetX targetY)
        {| Rect.x := targetX - ss; Rect.y := targetY; Rect.width := ss; Rect.height := chh |}
        layers;
  r ← strip (hasRight layers targetX targetY)
        {| Rect.x := targetX + cw; Rect.y := targetY; Rect.width := ss; Rect.height := chh |}
        layers;
  t ← strip (hasTop layers targetX targetY)
        {| Rect.x := targetX; Rect.y := targetY - ss; Rect.width := cw; Rect.height := ss |}
        layers;
  b ← strip (hasBottom layers targetX targetY)
        {| Rect.x := targetX; Rect.y := targetY + chh; Rect.width := cw; Rect.height := ss |}
        layers;
  mret {| GeminiService.left := l; GeminiService.right := r;
          GeminiService.top := t; GeminiService.bottom := b |}.

Definition nextGrid (direction : Direction) (st : State) : Z * Z :=
  let currentGridX := Num.Math_round (viewX st / inject_Z CANVAS_WIDTH) in
  let currentGridY := Num.Math_round (viewY st / inject_Z CANVAS_HEIGHT) in
  match direction with
  | dirTop => (currentGridX, currentGridY - 1)
  | dirBottom => (currentGridX, currentGridY + 1)
  | dirLeft => (currentGridX - 1, currentGridY)
  | dirRight => (currentGridX + 1, currentGridY)
  end.

Definition navigate_layer (nextGridX nextGridY : Z) (newBaseImage : string) : MapLayer.t :=
  {| MapLayer.id := "layer-base-" +:+ pretty nextGridX +:+ "-" +:+ pretty nextGridY;
     MapLayer.name := "Base (" +:+ pretty nextGridX +:+ "," +:+ pretty nextGridY +:+ ")";
     MapLayer.type := base;
     MapLayer.imageData := newBaseImage;
     MapLayer.x := inject_Z (nextGridX * CANVAS_WIDTH);
     MapLayer.y := inject_Z (nextGridY * CANVAS_HEIGHT);
     MapLayer.width := inject_Z CANVAS_WIDTH;
     MapLayer.height := inject_Z CANVAS_HEIGHT;
     MapLayer.visible := true;
     MapLayer.zIndex := 0 |}.

(** ["Failed to generate neighbor: " + e.message]. *)
Definition message (e : thrown) : string :=
  match e with
  | Error m => m
  | Rejected => "undefined"
  end.

(** [err.message || fallback]. *)
Definition message_or (e : thrown) (fallback : string) : string :=
  match e with
  | Error m => if String.eqb m "" then fallback else m
  | Rejected => fallback
  end.

Definition handleNavigate (direction : Direction) (st : State) (w : World) : State * World :=
  let (nextGridX, nextGridY) := nextGrid direction st in
  let targetX := inject_Z (nextGridX * CANVAS_WIDTH) in
  let targetY := inject_Z (nextGridY * CANVAS_HEIGHT) in
  let st := setViewState targetX targetY st in
  if baseExists (layers st) targetX targetY then (st, w)
  else
    let st := setIsGenerating true st in
    let try :=
      neighbors ← collectNeighbors (layers st) targetX targetY;
      GeminiService.generateSeamlessTexture neighbors (mapSettings st) (lastBasePrompt st) in
    match try w with
    | (Ok newBaseImage, w') =>
        let newLayer := navigate_layer nextGridX nextGridY newBaseImage in
        let newLayers := layers st ++ [newLayer] in
        (setIsGenerating false (addToHistory newLayers st), w')
    | (Throw e, w') =>
        (setIsGenerating false
           (setError (Some ("Failed to generate neighbor: " +:+ message e)) st), w')
    | (Pending, w') => (st, w')
    end.

(** *** handleGenerateAsset *)

(** [!prompt.trim()]: only white space.  Of the code units below 256,
    [trim] strips the space (32), tab, line feed, vertical tab, form feed
    and carriage return (9 to 13) and the no-break space (160). *)
Definition is_space (c : Ascii.ascii) : bool :=
  let n := Ascii.nat_of_ascii c in
  (n =? 32)%nat || ((9 <=? n)%nat && (n <=? 13)%nat) || (n =? 160)%nat.

Definition blank (s : string) : bool := forallb is_space (String.list_ascii_of_string s).

(** What the [try] block has settled when it reaches [newLayer]. *)
Record Generated : Type := {
  finalImageData : string;
  genX : Q; genY : Q; genW : Q; genH : Q;
  clearBrush : bool                      (* [setBrushMask(null)] was called *)
}.

Definition GENERATION_SIZE : Q := 512.

(** "MODE 1: BRUSH MASK GENERATION". *)
Definition generate_brush (mask : string) (st : State) : Async Generated :=
  bounds ← getContentBounds mask (Z.to_nat CANVAS_WIDTH) (Z.to_nat CANVAS_HEIGHT);
  match bounds with
  | None => throw (Error "Paint something first!")
  | Some bounds =>
      let viewportRect := {| Rect.x := viewX st; Rect.y := viewY st;
                             Rect.width := inject_Z CANVAS_WIDTH;
                             Rect.height := inject_Z CANVAS_HEIGHT |} in
      viewportImage ← getCompositeRect viewportRect (layers st);
      guidanceImage ← overlayImage viewportImage mask;
      let size := Num.Math_max (Rect.width bounds) (Rect.height bounds) in
      let padding := 20%Q in
      let cropSize := (size + padding * 2)%Q in
      let cx := (Rect.x bounds + Rect.width bounds / 2)%Q in
      let cy := (Rect.y bounds + Rect.height bounds / 2)%Q in
      let cropX := (cx - cropSize / 2)%Q in
      let cropY := (cy - cropSize / 2)%Q in
      guidanceCrop ← cropAndResize guidanceImage cropX cropY cropSize cropSize
                       GENERATION_SIZE GENERATION_SIZE;
      cleanCrop ← cropAndResize viewportImage cropX cropY cropSize cropSize
                    GENERATION_SIZE GENERATION_SIZE;
      rawGeneratedImage ← GeminiService.generateMapAsset (prompt st) (mapSettings st)
                            (Some guidanceCrop);
      final ← createDifferenceLayer cleanCrop rawGeneratedImage;
      mret {| finalImageData := final;
              genX := (viewX st + cropX)%Q; genY := (viewY st + cropY)%Q;
              genW := cropSize; genH := cropSize; clearBrush := true |}
  end.

(** "MODE 2: RECTANGLE SELECTION". *)
Definition generate_selection (sel : Rect.t) (st : State) : Async Generated :=
  let size := Num.Math_max (Rect.width sel) (Rect.height sel) in
  let centerX := (Rect.x sel + Rect.width sel / 2)%Q in
  let centerY := (Rect.y sel + Rect.height sel / 2)%Q in
  let contextRect := {| Rect.x := (centerX - size / 2)%Q; Rect.y := (centerY - size / 2)%Q;
                        Rect.width := size; Rect.height := size |} in
  contextCrop ← getCompositeRect contextRect (layers st);
  contextResized ← cropAndResize contextCrop 0 0 size size 512 512;
  rawGeneratedImage ← GeminiService.generateMapAsset (prompt st) (mapSettings st)
                        (Some contextResized);
  final ← createDifferenceLayer contextResized rawGeneratedImage;
  mret {| finalImageData := final;
          genX := Rect.x contextRect; genY := Rect.y contextRect;
          genW := size; genH := size; clearBrush := false |}.

(** "MODE 3: ISOLATED (FALLBACK)". *)
Definition generate_isolated (st : State) : Async Generated :=
  rawImageData ← GeminiService.generateMapAsset (prompt st) (mapSettings st) None;
  final ← removeMagentaBackground rawImageData;
  mret {| finalImageData := final;
          genX := (viewX st + inject_Z CANVAS_WIDTH / 2 - 128)%Q;
          genY := (viewY st + inject_Z CANVAS_HEIGHT / 2 - 128)%Q;
          genW := 256; genH := 256; clearBrush := false |}.

Definition is_brush (t : ActiveTool) : bool :=
  match t with brush => true | _ => false end.

Definition generate (st : State) : Async Generated :=
  if GeminiService.present (brushMask st) && is_brush (activeTool st)
  then generate_brush (default "" (brushMask st)) st
  else match selection st with
       | Some sel => generate_selection sel st
       | None => generate_isolated st
       end.

Definition asset_layer (st : State) (w : World) (g : Generated) : MapLayer.t :=
  {| MapLayer.id := "layer-" +:+ pretty (now w);
     MapLayer.name := prompt st;
     MapLayer.type := object;
     MapLayer.imageData := finalImageData g;
     MapLayer.x := genX g;
     MapLayer.y := genY g;
     MapLayer.width := genW g;
     MapLayer.height := genH g;
     MapLayer.visible := true;
     MapLayer.zIndex := Z.of_nat (length (layers st)) + 10 |}.

Definition handleGenerateAsset (st : State) (w : World) : State * World :=
  if blank (prompt st) then (st, w)
  else
    let st := setError None (setIsGenerating true st) in
    match generate st w with
    | (Ok g, w') =>
        let st1 := if clearBrush g then setBrushMask None st else st in
        let newLayer := asset_layer st w' g in
        let newLayers := layers st ++ [newLayer] in
        let st1 := addToHistory newLayers st1 in
        let st1 := setActiveTool pointer (setPrompt "" (setSelection None st1)) in
        (setIsGenerating false st1, w')
    | (Throw err, w') =>
        (setIsGenerating false
           (setError (Some (message_or err "Failed to generate image")) st), w')
    | (Pending, w') => (st, w')
    end.

(** *** handleGenerateBase *)

Definition base_layer (snapX snapY : Z) (basePrompt imageData : string) (w : World)
  : MapLayer.t :=
  {| MapLayer.id := "layer-base-" +:+ pretty snapX +:+ "-" +:+ pretty snapY
                      +:+ "-" +:+ pretty (now w);
     MapLayer.name := "Base: " +:+ basePrompt;
     MapLayer.type := base;
     MapLayer.imageData := imageData;
     MapLayer.x := inject_Z snapX;
     MapLayer.y := inject_Z snapY;
     MapLayer.width := inject_Z CANVAS_WIDTH;
     MapLayer.height := inject_Z CANVAS_HEIGHT;
     MapLayer.visible := true;
     MapLayer.zIndex := 0 |}.

Definition handleGenerateBase (st : State) (w : World) : State * World :=
  if blank (basePrompt st) then (st, w)
  else
    let st := setLastBasePrompt (basePrompt st)
                (setError None (setIsGenerating true (setIsBaseModalOpen false st))) in
    match GeminiService.generateBaseTexture (basePrompt st) (mapSettings st) w with
    | (Ok imageData, w') =>
        let snapX := Num.Math_round (viewX st / inject_Z CANVAS_WIDTH) * CANVAS_WIDTH in
        let snapY := Num.Math_round (viewY st / inject_Z CANVAS_HEIGHT) * CANVAS_HEIGHT in
        let prevLayers :=
          filter (fun l => negb (is_base l
                                 && Num.Qltb (Qabs (MapLayer.x l - inject_Z snapX)) 10
                                 && Num.Qltb (Qabs (MapLayer.y l - inject_Z snapY)) 10) = true)
                 (layers st) in
        let baseLayer := base_layer snapX snapY (basePrompt st) imageData w' in
        let newLayers := baseLayer :: prevLayers in
        (setIsGenerating false (setBasePrompt "" (addToHistory newLayers st)), w')
    | (Throw err, w') =>
        (setIsGenerating false
           (setError (Some (message_or err "Failed to generate base")) st), w')
    | (Pending, w') => (st, w')
    end.

(** *** Layer operations *)

Definition handleDeleteLayer (id : string) (st : State) : State :=
  let newLayers := filter (fun l => MapLayer.id l <> id) (layers st) in
  let st' := addToHistory newLayers st in
  if decide (selectedLayerId st = Some id) then setSelectedLayerId None st' else st'.

Definition with_visible (v : bool) (l : MapLayer.t) : MapLayer.t :=
  {| MapLayer.id := MapLayer.id l; MapLayer.name := MapLayer.name l;
     MapLayer.type := MapLayer.type l; MapLayer.imageData := MapLayer.imageData l;
     MapLayer.x := MapLayer.x l; MapLayer.y := MapLayer.y l;
     MapLayer.width := MapLayer.width l; MapLayer.height := MapLayer.height l;
     MapLayer.visible := v; MapLayer.zIndex := MapLayer.zIndex l |}.

Definition handleToggleVisibility (id : string) (st : State) : State :=
  let newLayers :=
    (fun l => if String.eqb (MapLayer.id l) id
              then with_visible (negb (MapLayer.visible l)) l else l) <$> layers st in
  addToHistory newLayers st.

Definition with_position (x y : Q) (l : MapLayer.t) : MapLayer.t :=
  {| MapLayer.id := MapLayer.id l; MapLayer.name := MapLayer.name l;
     MapLayer.type := MapLayer.type l; MapLayer.imageData := MapLayer.imageData l;
     MapLayer.x := x; MapLayer.y := y;
     MapLayer.width := MapLayer.width l; MapLayer.height := MapLayer.height l;
     MapLayer.visible := MapLayer.visible l; MapLayer.zIndex := MapLayer.zIndex l |}.

Definition updateLayerPosition (id : string) (x y : Q) (st : State) : State :=
  setLayers ((fun l => if String.eqb (MapLayer.id l) id then with_position x y l else l)
               <$> layers st) st.

Definition handleMoveEnd (st : State) : State := addToHistory (layers st) st.

(** [Partial<MapLayer>]. *)
Record Updates : Type := {
  uId : option string; uName : option string; uType : option LayerType;
  uImageData : option string; uX : option Q; uY : option Q;
  uWidth : option Q; uHeight : option Q; uVisible : option bool; uZIndex : option Z
}.

(** [{ ...l, ...updates }]. *)
Definition apply_updates (u : Updates) (l : MapLayer.t) : MapLayer.t :=
  {| MapLayer.id := default (MapLayer.id l) (uId u);
     MapLayer.name := default (MapLayer.name l) (uName u);
     MapLayer.type := default (MapLayer.type l) (uType u);
     MapLayer.imageData := default (MapLayer.imageData l) (uImageData u);
     MapLayer.x := default (MapLayer.x l) (uX u);
     MapLayer.y := default (MapLayer.y l) (uY u);
     MapLayer.width := default (MapLayer.width l) (uWidth u);
     MapLayer.height := default (MapLayer.height l) (uHeight u);
     MapLayer.visible := default (MapLayer.visible l) (uVisible u);
     MapLayer.zIndex := default (MapLayer.zIndex l) (uZIndex u) |}.

Definition updateLayerData (id : string) (updates : Updates) (st : State) : State :=
  let newLayers :=
    (fun l => if String.eqb (MapLayer.id l) id then apply_updates updates l else l)
      <$> layers st in
  addToHistory newLayers st.

(** The only update the canvas component sends: [{ imageData: newData }]. *)
Definition imageData_update (newData : string) : Updates :=
  {| uId := None; uName := None; uType := None; uImageData := Some newData;
     uX := None; uY := None; uWidth := None; uHeight := None;
     uVisible := None; uZIndex := None |}.

(** *** The component as a transition system *)

(** What the user interface can ask of the component. *)
Inductive Event : Type :=
  | Undo
  | Redo
  | ToolChange (tool : ActiveTool)
  | Navigate (direction : Direction)
  | GenerateAsset
  | GenerateBase
  | DeleteLayer (id : string)
  | ToggleVisibility (id : string)
  | MoveLayer (id : string) (x y : Q)            (* [onMoveLayer] *)
  | MoveEnd                                      (* [onMoveEnd] *)
  | EraseCommit (id : string) (newData : string) (* [onUpdateLayer] *)
  | SetPrompt (value : string)
  | SetBasePrompt (value : string)
  | SetSelection (sel : option Rect.t)
  | SetBrushMask (mask : option string)
  | SetSelectedLayerId (id : option string)
  | SetMapSettings (settings : MapSettings)
  | SetIsBaseModalOpen (open : bool)
  | SetError (err : option string)
  | Wheel (deltaX deltaY : Q).                   (* [handleWheel]; the arrow keys too *)

Definition setMapSettings (v : MapSettings) (st : State) : State :=
  {| layers := layers st; history := history st; historyIndex := historyIndex st;
     selection := selection st; selectedLayerId := selectedLayerId st;
     activeTool := activeTool st; brushMask := brushMask st; prompt := prompt st;
     isGenerating := isGenerating st; error := error st;
     viewX := viewX st; viewY := viewY st; mapSettings := v;
     isBaseModalOpen := isBaseModalOpen st; basePrompt := basePrompt st;
     lastBasePrompt := lastBasePrompt st |}.

(** One event, handled to the end.  [None]: the component has failed. *)
Definition handle (ev : Event) (st : State) (w : World) : option (State * World) :=
  match ev with
  | Undo => st' ← handleUndo st; Some (st', w)
  | Redo => st' ← handleRedo st; Some (st', w)
  | ToolChange tool => Some (handleToolChange tool st, w)
  | Navigate direction => Some (handleNavigate direction st w)
  | GenerateAsset => Some (handleGenerateAsset st w)
  | GenerateBase => Some (handleGenerateBase st w)
  | DeleteLayer id => Some (handleDeleteLayer id st, w)
  | ToggleVisibility id => Some (handleToggleVisibility id st, w)
  | MoveLayer id x y => Some (updateLayerPosition id x y st, w)
  | MoveEnd => Some (handleMoveEnd st, w)
  | EraseCommit id newData => Some (updateLayerData id (imageData_update newData) st, w)
  | SetPrompt value => Some (setPrompt value st, w)
  | SetBasePrompt value => Some (setBasePrompt value st, w)
  | SetSelection sel => Some (setSelection sel st, w)
  | SetBrushMask mask => Some (setBrushMask mask st, w)
  | SetSelectedLayerId id => Some (setSelectedLayerId id st, w)
  | SetMapSettings settings => Some (setMapSettings settings st, w)
  | SetIsBaseModalOpen open => Some (setIsBaseModalOpen open st, w)
  | SetError err => Some (setError err st, w)
  | Wheel deltaX deltaY => Some (setViewState (viewX st + deltaX)%Q (viewY st + deltaY)%Q st, w)
  end.

(** The states the component goes through: the mounted component, then one
    event after another, the environment being free to change in between
    (clock, collaborator, load order). *)
Inductive reachable : State -> Prop :=
  | reach_mount (w : World) :
      reachable (mount initial w)
  | reach_event (ev : Event) (st st' : State) (w w' : World) :
      reachable st -> handle ev st w = Some (st', w') -> reachable st'.

(** *** The history manager on its own *)

(** [commit], [undo] and [redo] of the history: [addToHistory],
    [handleUndo] and [handleRedo]. *)
Inductive HistoryOp : Type :=
  | commit (scene : list MapLayer.t)
  | undo
  | redo.

Definition apply_op (op : HistoryOp) (st : State) : option State :=
  match op with
  | commit scene => Some (addToHistory scene st)
  | undo => handleUndo st
  | redo => handleRedo st
  end.

Fixpoint run (ops : list HistoryOp) (st : State) : option State :=
  match ops with
  | [] => Some st
  | op :: ops' => st' ← apply_op op st; run ops' st'
  end.

(** [commit(sceneA); commit(sceneB); undo(); undo(); redo()]. *)
Definition round_trip (sceneA sceneB : list MapLayer.t) : list HistoryOp :=
  [commit sceneA; commit sceneB; undo; undo; redo].

(** The cursor is an index of the history, or -1. *)
Definition cursor_ok (st : State) : Prop :=
  -1 <= historyIndex st <= Z.of_nat (length (history st)) - 1.

End App.

(** ** App.tsx: the names of the exported files *)

Module ExportZip.

(** A string is a sequence of code units below 256. *)
Definition code (c : Ascii.ascii) : nat := Ascii.nat_of_ascii c.

(** The class [[a-z0-9]] under the [i] flag. *)
Definition is_alnum (c : Ascii.ascii) : bool :=
  let n := code c in
  ((97 <=? n) && (n <=? 122) || (65 <=? n) && (n <=? 90) || (48 <=? n) && (n <=? 57))%nat.

Definition underscore : Ascii.ascii := Ascii.ascii_of_nat 95.

(** [toLowerCase] of one code unit. *)
Definition lower (c : Ascii.ascii) : Ascii.ascii :=
  let n := code c in
  if ((65 <=? n) && (n <=? 90))%nat then Ascii.ascii_of_nat (n + 32) else c.

(** [layer.name.replace(/[^a-z0-9]/gi, '_').toLowerCase()]. *)
Fixpoint safeName (name : string) : string :=
  match name with
  | EmptyString => EmptyString
  | String c rest => String (lower (if is_alnum c then c else underscore)) (safeName rest)
  end.

(** [`${layer.zIndex}_${safeName}_${layer.id.substring(0,6)}.png`]. *)
Definition filename (layer : MapLayer.t) : string :=
  pretty (MapLayer.zIndex layer) +:+ "_" +:+ safeName (MapLayer.name layer) +:+ "_"
    +:+ String.substring 0 6 (MapLayer.id layer) +:+ ".png".

(** [layer.imageData.split(',')[1]]: what stands between the first comma
    and the second; [None] ([undefined]) if there is no comma. *)
Definition comma : Ascii.ascii := Ascii.ascii_of_nat 44.

Fixpoint until_comma (s : string) : string :=
  match s with
  | EmptyString => EmptyString
  | String c rest => if Ascii.eqb c comma then EmptyString else String c (until_comma rest)
  end.

Fixpoint after_comma (s : string) : option string :=
  match s with
  | EmptyString => None
  | String c rest => if Ascii.eqb c comma then Some (until_comma rest) else after_comma rest
  end.

(** The files [handleExportZip] puts into the [layers] folder: one per
    visible layer, in the order of the scene, each with its name and its
    base64 data. *)
Definition layer_files (layers : list MapLayer.t) : list (string * option string) :=
  (fun l => (filename l, after_comma (MapLayer.imageData l)))
    <$> filter (fun l => MapLayer.visible l = true) layers.

End ExportZip.

(** ** components/MapCanvas.tsx *)

Module MapCanvas.

(** [worldPos.x >= l.x && worldPos.x <= l.x + l.width && ...]. *)
Definition contains (l : MapLayer.t) (wx wy : Q) : bool :=
  Qle_bool (MapLayer.x l) wx && Qle_bool wx (MapLayer.x l + MapLayer.width l)
  && Qle_bool (MapLayer.y l) wy && Qle_bool wy (MapLayer.y l + MapLayer.height l).

(** [[...layers].sort((a, b) => b.zIndex - a.zIndex)]: descending, stable. *)
Fixpoint insert_desc (a : MapLayer.t) (l : list MapLayer.t) : list MapLayer.t :=
  match l with
  | [] => [a]
  | b :: l' =>
      if MapLayer.zIndex b - MapLayer.zIndex a <=? 0 then a :: b :: l'
      else b :: insert_desc a l'
  end.

Definition sort_desc (l : list MapLayer.t) : list MapLayer.t := foldr insert_desc [] l.

(** [sortedLayers.find(l => l.visible && inside)]. *)
Definition hit (layers : list MapLayer.t) (wx wy : Q) : option MapLayer.t :=
  List.find (fun l => MapLayer.visible l && contains l wx wy) (sort_desc layers).

Definition has_id (selectedLayerId : option string) (l : MapLayer.t) : bool :=
  match selectedLayerId with
  | Some id => String.eqb (MapLayer.id l) id
  | None => false
  end.

(** "TOOL: POINTER": the layer under the pointer, with "priority to
    currently selected". *)
Definition pointer_target (layers : list MapLayer.t) (selectedLayerId : option string)
    (wx wy : Q) : option MapLayer.t :=
  let targetLayer := hit layers wx wy in
  let currentSelected := List.find (has_id selectedLayerId) layers in
  match currentSelected with
  | Some cs => if MapLayer.visible cs && contains cs wx wy then Some cs else targetLayer
  | None => targetLayer
  end.

Inductive InteractionMode : Type := none | selecting | moving_layer | erasing | brushing.

(** What a mouse-down with the pointer tool sets: the selected layer, the
    interaction mode and the start position of the drag. *)
Record PointerDown : Type := {
  selected : option string;
  mode : InteractionMode;
  dragLayerStartPos : option (Q * Q)
}.

Definition pointer_down (layers : list MapLayer.t) (selectedLayerId : option string)
    (wx wy : Q) : PointerDown :=
  match pointer_target layers selectedLayerId wx wy with
  | Some targetLayer =>
      match MapLayer.type targetLayer with
      | base => {| selected := None; mode := none; dragLayerStartPos := None |}
      | object =>
          {| selected := Some (MapLayer.id targetLayer); mode := moving_layer;
             dragLayerStartPos := Some (MapLayer.x targetLayer, MapLayer.y targetLayer) |}
      end
  | None => {| selected := None; mode := none; dragLayerStartPos := None |}
  end.

(** "TOOL: ERASER": the layer that becomes the one in edit. *)
Definition eraser_down (layers : list MapLayer.t) (wx wy : Q) : option string :=
  MapLayer.id <$> hit layers wx wy.

(** "Commit Rectangle Selection" of [handleMouseUp]: the [setSelection] call,
    if there is one.  [startPos] and [mousePos] are screen positions. *)
Definition selection_of_drag (startX startY mouseX mouseY viewX viewY : Q) : option Rect.t :=
  let w := (mouseX - startX)%Q in
  let h := (mouseY - startY)%Q in
  if Num.Qltb 10 (Qabs w) && Num.Qltb 10 (Qabs h) then
    Some {| Rect.x := ((if Num.Qltb w 0 then mouseX else startX) + viewX)%Q;
            Rect.y := ((if Num.Qltb h 0 then mouseY else startY) + viewY)%Q;
            Rect.width := Qabs w;
            Rect.height := Qabs h |}
  else None.

End MapCanvas.

(** ** components/LayerPanel.tsx *)

Module LayerPanel.

Definition BLOCK_SIZE : Q := 1024.

Record BlockId : Type := { id : string; label : string; bx : Z; by_ : Z }.

Definition getBlockId (layer : MapLayer.t) : BlockId :=
  let cx := (MapLayer.x layer + MapLayer.width layer / 2)%Q in
  let cy := (MapLayer.y layer + MapLayer.height layer / 2)%Q in
  let bx := Qfloor (cx / BLOCK_SIZE) in
  let by_ := Qfloor (cy / BLOCK_SIZE) in
  {| id := pretty bx +:+ "," +:+ pretty by_;
     label := "Block (" +:+ pretty bx +:+ ", " +:+ pretty by_ +:+ ")";
     bx := bx; by_ := by_ |}.

(** [groups] and [info] together: the blocks in the order their keys were
    first set, each with its layers in the order they were pushed. *)
Record Group : Type := { block : BlockId; members : list MapLayer.t }.

Definition has_key (key : string) (g : Group) : bool := String.eqb (id (block g)) key.

(** The body of [layers.forEach]. *)
Definition push (groups : list Group) (layer : MapLayer.t) : list Group :=
  let b := getBlockId layer in
  if existsb (has_key (id b)) groups
  then (fun g => if has_key (id b) g
                 then {| block := block g; members := members g ++ [layer] |}
                 else g) <$> groups
  else groups ++ [{| block := b; members := [layer] |}].

Definition grouped (layers : list MapLayer.t) : list Group := foldl push [] layers.

(** "Sort blocks: Top-Left to Bottom-Right roughly (Y then X)". *)
Definition compare_blocks (a b : Group) : Z :=
  if by_ (block a) =? by_ (block b)
  then bx (block a) - bx (block b)
  else by_ (block a) - by_ (block b).

Fixpoint insert_block (a : Group) (l : list Group) : list Group :=
  match l with
  | [] => [a]
  | b :: l' => if compare_blocks a b <=? 0 then a :: b :: l' else b :: insert_block a l'
  end.

Definition sort_blocks (l : list Group) : list Group := foldr insert_block [] l.

(** The panel: the blocks in sorted order, each with its layers sorted by
    z-order, top first. *)
Definition panel (layers : list MapLayer.t) : list Group :=
  (fun g => {| block := block g; members := MapCanvas.sort_desc (members g) |})
    <$> sort_blocks (grouped layers).

(** [layer.name.replace(/\s+/g, '_')]: every run of white space becomes one
    underscore. *)
Definition is_white (c : Ascii.ascii) : bool :=
  let n := Ascii.nat_of_ascii c in
  ((n =? 32) || (9 <=? n) && (n <=? 13) || (n =? 160))%nat.

Fixpoint collapse (in_run : bool) (s : string) : string :=
  match s with
  | EmptyString => EmptyString
  | String c rest =>
      if is_white c
      then if in_run then collapse true rest else String ExportZip.underscore (collapse true rest)
      else String c (collapse false rest)
  end.

(** The name [downloadLayer] gives the file. *)
Definition download_name (layer : MapLayer.t) : string :=
  collapse false (MapLayer.name layer) +:+ "_" +:+ String.substring 0 4 (MapLayer.id layer)
    +:+ ".png".

End LayerPanel.

(** ** Sample scenes and environments *)

Module Samples.

Definition layer (id : string) (type : LayerType) (imageData : string)
    (x y width height : Q) (visible : bool) (zIndex : Z) : MapLayer.t :=
  {| MapLayer.id := id; MapLayer.name := id; MapLayer.type := type;
     MapLayer.imageData := imageData;
     MapLayer.x := x; MapLayer.y := y; MapLayer.width := width; MapLayer.height := height;
     MapLayer.visible := visible; MapLayer.zIndex := zIndex |}.

(** Two 2x1 RGBA buffers: the second pixel differs by more than the
    difference threshold, the first by less. *)
Definition bufferOrig : ImageUtils.ImageData :=
  {| ImageUtils.idWidth := 2; ImageUtils.idHeight := 1;
     ImageUtils.idData := [10; 20; 30; 255; 100; 100; 100; 255] |}.
Definition bufferGen : ImageUtils.ImageData :=
  {| ImageUtils.idWidth := 2; ImageUtils.idHeight := 1;
     ImageUtils.idData := [12; 25; 33; 200; 100; 140; 100; 7] |}.

(** The base tile at the world origin, base tiles 40 and 150 units off the
    position of its right neighbour, and an object at that position. *)
Definition tileOrigin : MapLayer.t := layer "layer-base-0-0" base "t0.png" 0 0 1024 1024 true 0.
Definition tileNear : MapLayer.t := layer "near" base "t1.png" (1024 + 40) 0 1024 1024 true 0.
Definition tileFar : MapLayer.t := layer "far" base "t2.png" (1024 + 150) 0 1024 1024 true 0.
Definition objectNear : MapLayer.t := layer "obj" object "o.png" (1024 + 40) 0 256 256 true 11.

(** Neighbours on the left and on the right: a stitching canvas of side 1536. *)
Definition leftRight : GeminiService.Neighbors :=
  {| GeminiService.left := Some "left.png"; GeminiService.right := Some "right.png";
     GeminiService.top := None; GeminiService.bottom := None |}.

(** A browser that knows a few images by name: strips of the size
    [handleNavigate] cuts (256 x 1024), a strip that is 300 wide, single
    red and blue pixels, the image the collaborator answers with, and what
    its own canvases encode to. *)
Definition solid (w h : Z) (p : Pixel) : Raster := {| rw := w; rh := h; rpx := fun _ _ => p |}.

Definition green : Pixel := rgb 10 120 10.
Definition red : Pixel := rgb 200 0 0.
Definition blue : Pixel := rgb 0 0 200.

Definition images : Browser :=
  {| decode := fun src =>
       if String.eqb src "left.png" then Some (solid 256 1024 green)
       else if String.eqb src "right.png" then Some (solid 256 1024 green)
       else if String.eqb src "wide.png" then Some (solid 300 1024 green)
       else if String.eqb src "red.png" then Some (solid 1 1 red)
       else if String.eqb src "blue.png" then Some (solid 1 1 blue)
       else if String.eqb src "data:image/png;base64,iVBORw0KGgo=" then Some (solid 2 2 red)
       else if String.eqb src "data:image/png;base64,canvas" then Some (solid 256 1024 green)
       else None;
     toDataURL := fun _ => "data:image/png;base64,canvas" |}.

(** A left neighbour only, with a strip of the usual size and with the wide
    one. *)
Definition leftOnly : GeminiService.Neighbors :=
  {| GeminiService.left := Some "left.png"; GeminiService.right := None;
     GeminiService.top := None; GeminiService.bottom := None |}.
Definition leftWide : GeminiService.Neighbors :=
  {| GeminiService.left := Some "wide.png"; GeminiService.right := None;
     GeminiService.top := None; GeminiService.bottom := None |}.

(** A red pixel at z-order 0 under a blue pixel at z-order 1, both at the
    world origin, and the 1x1 rectangle there; the same two pixels at equal
    z-order. *)
Definition redLayer : MapLayer.t := layer "red" base "red.png" 0 0 1 1 true 0.
Definition blueLayer : MapLayer.t := layer "blue" object "blue.png" 0 0 1 1 true 1.
Definition blueLevel : MapLayer.t := layer "blue" object "blue.png" 0 0 1 1 true 0.
Definition unit_rect : Rect.t :=
  {| Rect.x := 0; Rect.y := 0; Rect.width := 1; Rect.height := 1 |}.

(** Two scenes for the history. *)
Definition sceneA : list MapLayer.t := [layer "a" base "a.png" 0 0 1024 1024 true 0].
Definition sceneB : list MapLayer.t := [].

(** Worlds: the load events in request order, and a collaborator that
    always fails, or always answers with one image. *)
Definition world (respond : nat -> GenOutcome) : World :=
  {| browser := images; apiKey := true; now := 1700000000000;
     respond := respond; dispatched := [];
     loadEvents := fun srcs => seq 0 (length srcs) |}.

Definition failing : World := world (fun _ => Fails (Error "503 Service Unavailable")).

Definition answering : World :=
  world (fun _ => Responds [{| inlineData := None; text := Some "here it is" |};
                            {| inlineData := Some ("image/png", "iVBORw0KGgo="); text := None |}]).

(** The same environment without an API key. *)
Definition keyless : World :=
  {| browser := images; apiKey := false; now := 1700000000000;
     respond := fun _ => Fails (Error "503 Service Unavailable"); dispatched := [];
     loadEvents := fun srcs => seq 0 (length srcs) |}.

(** A browser whose codec is exact on the two canvases of the smallest
    scene with an object: the 64 x 64 canvas of the first base layer
    encodes to [base.png], which decodes to the bitmap of that canvas, and
    every other canvas to [object.png], the opaque red 2 x 2 image, which
    is also what the collaborator answers with. *)
Definition checkerboard : Raster :=
  Canvas.bitmap
    (Canvas.fillRect (rgb 34 56 34) 32 32 32 32
       (Canvas.fillRect (rgb 34 56 34) 0 0 32 32
          (Canvas.fillRect (rgb 26 46 26) 0 0 64 64 (Canvas.create 64 64)))).

Definition tinted : Browser :=
  {| decode := fun src =>
       if String.eqb src "base.png" then Some checkerboard
       else if String.eqb src "object.png" then Some (solid 2 2 red)
       else if String.eqb src "data:image/png;base64,iVBORw0KGgo=" then Some (solid 2 2 red)
       else None;
     toDataURL := fun c => if Canvas.width c =? 64 then "base.png" else "object.png" |}.

Definition tintedWorld : World :=
  {| browser := tinted; apiKey := true; now := 1700000000000;
     respond := fun _ => Responds [{| inlineData := Some ("image/png", "iVBORw0KGgo=");
                                      text := None |}];
     dispatched := [];
     loadEvents := fun srcs => seq 0 (length srcs) |}.

(** The component in that browser after one asset has been generated on the
    first tile, and the rectangle of the viewport. *)
Definition tower : App.State :=
  fst (App.handleGenerateAsset (App.setPrompt "a watch tower" (App.mount App.initial tintedWorld))
         tintedWorld).

Definition viewport : Rect.t :=
  {| Rect.x := 0; Rect.y := 0; Rect.width := 1024; Rect.height := 1024 |}.

(** A 1024 x 1024 image whose pixels tell their own position: red and green
    carry the column, blue the row modulo 256. *)
Definition ramp : Raster :=
  {| rw := 1024; rh := 1024;
     rpx := fun u v => {| R := u mod 256; G := u / 256; B := v mod 256; A := 255 |} |}.

(** The mounted component with a prompt typed in. *)
Definition prompted : App.State := App.setPrompt "a watch tower" (App.mount App.initial failing).

(** The component after an asset has been generated for that prompt. *)
Definition withObject : App.State := fst (App.handleGenerateAsset prompted answering).

End Samples.

(** ** Vocabulary of the statements *)

(** A call that draws an image. *)
Definition is_draw (op : Canvas.Op) : Prop :=
  match op with
  | Canvas.DrawImage _ _ _ _ _ => True
  | Canvas.FillRect _ _ _ _ _ => False
  end.

(** The number of promises that are fulfilled. *)
Definition settled (promises : list GeminiService.DrawPromise) : nat :=
  length (filter (fun p => GeminiService.fulfilled p = true) promises).

(** Canvas pixel [(i, j)] lies under the image [img] drawn at [(x, y)]. *)
Definition under_image (x y : Z) (img : Raster) (i j : Z) : Prop :=
  x <= i < x + rw img /\ y <= j < y + rh img.

(** Canvas pixel [(i, j)] lies in the rectangle the marker fill covers. *)
Definition in_target (n : GeminiService.Neighbors) (i j : Z) : Prop :=
  GeminiService.targetX (GeminiService.layout n) <= i
    < GeminiService.targetX (GeminiService.layout n) + GeminiService.TARGET_SIZE
  /\ GeminiService.targetY (GeminiService.layout n) <= j
      < GeminiService.targetY (GeminiService.layout n) + GeminiService.TARGET_SIZE.

(** Between [w] and [w'] the collaborator was called once at most. *)
Definition one_call_at_most (w w' : World) : Prop :=
  (length (dispatched w') <= S (length (dispatched w)))%nat.

(** [a] is not above [b]. *)
Definition below_or_level (a b : MapLayer.t) : Prop := MapLayer.zIndex a <= MapLayer.zIndex b.

(** A base layer sits at z-order 0, an object layer at 10 or above. *)
Definition layer_ok (l : MapLayer.t) : Prop :=
  match MapLayer.type l with
  | base => MapLayer.zIndex l = 0
  | object => 10 <= MapLayer.zIndex l
  end.

Definition scene_ok (scene : list MapLayer.t) : Prop := Forall layer_ok scene.

(** The invariant of the component: every scene it holds is well layered
    and the cursor points at an entry of the history. *)
Record state_ok (st : App.State) : Prop := {
  ok_layers : scene_ok (App.layers st);
  ok_history : Forall scene_ok (App.history st);
  ok_cursor : 0 <= App.historyIndex st < Z.of_nat (length (App.history st))
}.

(** A layer that does not put an opaque or mixed pixel on [(i, j)]. *)
Definition lets_through (br : Browser) (ox oy : Q) (i j : Z) (layer : MapLayer.t) : Prop :=
  match ImageUtils.shows br ox oy layer i j with
  | Some s => A s = 0
  | None => True
  end.

(** The black canvas [getCompositeRect] starts from. *)
Definition backdrop (rect : Rect.t) : Canvas.t :=
  Canvas.fillRect black 0 0 (Qceiling (Rect.width rect)) (Qceiling (Rect.height rect))
    (Canvas.create (Num.canvas_dim (Rect.width rect)) (Num.canvas_dim (Rect.height rect))).

(** A drag of the layer [id]: the positions [onMoveLayer] is called with,
    one after another. *)
Definition drag (id : string) (moves : list (Q * Q)) (st : App.State) : App.State :=
  foldl (fun s m => App.updateLayerPosition id (fst m) (snd m) s) st moves.

(** No strip of [promises0] that decodes covers canvas pixel [(i, j)]. *)
Definition beside_strips (br : Browser) (promises0 : list GeminiService.DrawPromise)
    (i j : Z) : Prop :=
  forall k q img, promises0 !! k = Some q ->
                  decode br (GeminiService.pSrc q) = Some img ->
                  ~ under_image (GeminiService.pX q) (GeminiService.pY q) img i j.

(** The promises of [st] are those of [promises0], fulfilled or not, and
    pixel [(i, j)] is as it is on [c0]. *)
Definition untouched (promises0 : list GeminiService.DrawPromise) (c0 : Canvas.t) (i j : Z)
    (st : list GeminiService.DrawPromise * Canvas.t) : Prop :=
  (forall k q, fst st !! k = Some q ->
     exists q0, promises0 !! k = Some q0
                /\ GeminiService.pSrc q = GeminiService.pSrc q0
                /\ GeminiService.pX q = GeminiService.pX q0
                /\ GeminiService.pY q = GeminiService.pY q0)
  /\ Canvas.px (snd st) i j = Canvas.px c0 i j.

(** The canvas the stitcher starts from: the neutral fill. *)
Definition stitch_ground (n : GeminiService.Neighbors) : Canvas.t :=
  Canvas.fillRect neutral 0 0 (GeminiService.canvasSize n) (GeminiService.canvasSize n)
    (Canvas.create (GeminiService.canvasSize n) (GeminiService.canvasSize n)).

(** A canvas of the given size without a transparent or translucent pixel. *)
Definition opaque_canvas (w h : Z) (c : Canvas.t) : Prop :=
  Canvas.width c = w /\ Canvas.height c = h
  /\ forall i j, Canvas.inside c i j = true -> A (Canvas.px c i j) = 255.

(** [b] is the bounding box of the layers [ls]: it contains each of them and
    each of its sides is the side of one of them. *)
Definition bounding_box (ls : list MapLayer.t) (b : ImageUtils.Bounds) : Prop :=
  (forall l, l ∈ ls ->
     (ImageUtils.bMinX b <= MapLayer.x l)%Q /\ (ImageUtils.bMinY b <= MapLayer.y l)%Q
     /\ (MapLayer.x l + MapLayer.width l <= ImageUtils.bMaxX b)%Q
     /\ (MapLayer.y l + MapLayer.height l <= ImageUtils.bMaxY b)%Q)
  /\ (exists l, l ∈ ls /\ ImageUtils.bMinX b = MapLayer.x l)
  /\ (exists l, l ∈ ls /\ ImageUtils.bMinY b = MapLayer.y l)
  /\ (exists l, l ∈ ls /\ ImageUtils.bMaxX b = (MapLayer.x l + MapLayer.width l)%Q)
  /\ (exists l, l ∈ ls /\ ImageUtils.bMaxY b = (MapLayer.y l + MapLayer.height l)%Q).

(** The key of the block a layer belongs to, and of a group. *)
Definition block_key (l : MapLayer.t) : string := LayerPanel.id (LayerPanel.getBlockId l).
Definition group_key (g : LayerPanel.Group) : string := LayerPanel.id (LayerPanel.block g).

(** The groups [gs] are the layers [seen], grouped: no key occurs twice,
    every group holds the layers of [seen] with its key, in their order,
    and is headed by the block of its first layer. *)
Definition groups_of (seen : list MapLayer.t) (gs : list LayerPanel.Group) : Prop :=
  NoDup (group_key <$> gs)
  /\ (forall g, g ∈ gs ->
        LayerPanel.members g = filter (fun l => block_key l = group_key g) seen
        /\ exists first, head (LayerPanel.members g) = Some first
                         /\ LayerPanel.block g = LayerPanel.getBlockId first)
  /\ (forall l, l ∈ seen -> exists g, g ∈ gs /\ group_key g = block_key l).

(** Blocks in reading order: by row, then by column. *)
Definition block_le (a b : LayerPanel.Group) : Prop :=
  LayerPanel.by_ (LayerPanel.block a) < LayerPanel.by_ (LayerPanel.block b)
  \/ (LayerPanel.by_ (LayerPanel.block a) = LayerPanel.by_ (LayerPanel.block b)
      /\ LayerPanel.bx (LayerPanel.block a) <= LayerPanel.bx (LayerPanel.block b)).

(** Every layer of every scene the component holds satisfies [P]. *)
Definition every_layer (P : MapLayer.t -> Prop) (st : App.State) : Prop :=
  Forall P (App.layers st) /\ Forall (Forall P) (App.history st).

(** The characters [safeName] lets through: lower-case letters, digits and
    the underscore. *)
Definition safe_char (c : Ascii.ascii) : bool :=
  let n := ExportZip.code c in
  ((97 <=? n) && (n <=? 122) || (48 <=? n) && (n <=? 57) || (n =? 95))%nat.

(** The canvas [removeMagentaBackground] encodes, for a decoded image. *)
Definition removeMagenta_canvas (imageSrc : string) (img : Raster) : Canvas.t :=
  let w := Z.to_nat (rw img) in
  let h := Z.to_nat (rh img) in
  let canvas := Canvas.drawImage3 imageSrc img 0 0 (Canvas.create (rw img) (rh img)) in
  ImageUtils.putImageData w h
    (ImageUtils.removeMagenta_data (Canvas.getImageData w h canvas)) canvas.

(** The pixel the chroma key makes of [p]. *)
Definition keyed (p : Pixel) : Pixel :=
  if Z.abs (R p - 255) + Z.abs (G p - 0) + Z.abs (B p - 255) <? 100
  then {| R := R p; G := G p; B := B p; A := 0 |}
  else p.

(** The two canvases of [createDifferenceLayer], for decoded images: the
    original scaled to the size of the generated image, and the result. *)
Definition original_canvas (originalBase64 : string) (imgOrig imgGen : Raster) : Canvas.t :=
  Canvas.drawImage5 originalBase64 imgOrig 0 0 (inject_Z (rw imgGen)) (inject_Z (rh imgGen))
    (Canvas.create (rw imgGen) (rh imgGen)).

Definition difference_canvas (originalBase64 generatedBase64 : string)
    (imgOrig imgGen : Raster) : Canvas.t :=
  let width := Z.to_nat (rw imgGen) in
  let height := Z.to_nat (rh imgGen) in
  let canvas := Canvas.drawImage3 generatedBase64 imgGen 0 0
                  (Canvas.create (rw imgGen) (rh imgGen)) in
  ImageUtils.putImageData width height
    (ImageUtils.difference_data
       (Canvas.getImageData width height (original_canvas originalBase64 imgOrig imgGen))
       (Canvas.getImageData width height canvas))
    canvas.

(** The pixel the difference key makes of the generated pixel [pg] where
    the original shows [po]. *)
Definition differing (po pg : Pixel) : Pixel :=
  {| R := R pg; G := G pg; B := B pg;
     A := if Z.abs (R po - R pg) + Z.abs (G po - G pg) + Z.abs (B po - B pg) <? 35
          then 0 else 255 |}.

(** The base layers [handleGenerateBase] removes: those within 10 units of
    the snapped position, in both directions. *)
Definition replaced_base (snapX snapY : Z) (l : MapLayer.t) : bool :=
  App.is_base l
  && Num.Qltb (Qabs (MapLayer.x l - inject_Z snapX)) 10
  && Num.Qltb (Qabs (MapLayer.y l - inject_Z snapY)) 10.

(** The column (or row) of the generated image that is shown at column (or
    row) [i] of the final block when the crop starts at [t * s] and is
    [1024 * s] wide: the centre of the pixel, mapped back through the scale
    [s]. *)
Definition source_pixel (s : Q) (t i : Z) : Z :=
  Qfloor ((inject_Z t + inject_Z i + (1 # 2)) * s).

(** * Properties *)

(** ** History: [addToHistory], [handleUndo], [handleRedo] *)

Section History.

Import App.

Lemma slice0_take {T : Type} (l : list T) (e : Z) :
  0 <= e -> slice0 l e = take (Z.to_nat e) l.
Proof.
  intros He. unfold slice0.
  destruct (e <? 0) eqn:E; [apply Z.ltb_lt in E; lia | reflexivity].
Qed.

Lemma addToHistory_history (scene : list MapLayer.t) (st : State) :
  history (addToHistory scene st) = slice0 (history st) (historyIndex st + 1) ++ [scene].
Proof. reflexivity. Qed.

Lemma addToHistory_index (scene : list MapLayer.t) (st : State) :
  historyIndex (addToHistory scene st)
  = Z.of_nat (length (slice0 (history st) (historyIndex st + 1) ++ [scene])) - 1.
Proof. reflexivity. Qed.

Lemma addToHistory_layers (scene : list MapLayer.t) (st : State) :
  layers (addToHistory scene st) = scene.
Proof. reflexivity. Qed.

(** A commit leaves the cursor on the entry it appended, whatever the state
    before. *)
Lemma addToHistory_cursor (scene : list MapLayer.t) (st : State) :
  historyIndex (addToHistory scene st) = Z.of_nat (length (history (addToHistory scene st))) - 1
  /\ entry (history (addToHistory scene st)) (historyIndex (addToHistory scene st)) = Some scene.
Proof.
  rewrite addToHistory_index, addToHistory_history. split; [reflexivity |].
  unfold entry. rewrite length_app. cbn [length].
  destruct (_ <? 0) eqn:E; [apply Z.ltb_lt in E; lia |].
  replace (Z.to_nat _) with (length (slice0 (history st) (historyIndex st + 1)) + 0)%nat by lia.
  rewrite lookup_app_r by lia.
  replace (_ + 0 - _)%nat with 0%nat by lia. reflexivity.
Qed.

Lemma addToHistory_cursor_ok (scene : list MapLayer.t) (st : State) :
  cursor_ok (addToHistory scene st).
Proof.
  unfold cursor_ok. destruct (addToHistory_cursor scene st) as [-> _].
  rewrite addToHistory_history, length_app. cbn [length]. lia.
Qed.

(** Within the bounds the cursor moves by one and the scene of that entry
    becomes current. *)
Lemma handleUndo_step (st : State) (scene : list MapLayer.t) :
  0 < historyIndex st ->
  entry (history st) (historyIndex st - 1) = Some scene ->
  exists st', handleUndo st = Some st'
    /\ history st' = history st
    /\ historyIndex st' = historyIndex st - 1
    /\ layers st' = scene.
Proof.
  intros Hi He. unfold handleUndo.
  destruct (0 <? historyIndex st) eqn:E; [| apply Z.ltb_ge in E; lia].
  rewrite He. cbn. eauto.
Qed.

Lemma handleRedo_step (st : State) (scene : list MapLayer.t) :
  historyIndex st < Z.of_nat (length (history st)) - 1 ->
  entry (history st) (historyIndex st + 1) = Some scene ->
  exists st', handleRedo st = Some st'
    /\ history st' = history st
    /\ historyIndex st' = historyIndex st + 1
    /\ layers st' = scene.
Proof.
  intros Hi He. unfold handleRedo.
  destruct (_ <? _) eqn:E; [| apply Z.ltb_ge in E; lia].
  rewrite He. cbn. eauto.
Qed.

(** Out of bounds, undo and redo change nothing. *)
Lemma handleUndo_noop (st : State) :
  historyIndex st <= 0 -> handleUndo st = Some st.
Proof.
  intros Hi. unfold handleUndo.
  destruct (0 <? historyIndex st) eqn:E; [apply Z.ltb_lt in E; lia | reflexivity].
Qed.

Lemma handleRedo_noop (st : State) :
  Z.of_nat (length (history st)) - 1 <= historyIndex st -> handleRedo st = Some st.
Proof.
  intros Hi. unfold handleRedo.
  destruct (_ <? _) eqn:E; [apply Z.ltb_lt in E; lia | reflexivity].
Qed.

Lemma entry_in_range (h : list (list MapLayer.t)) (i : Z) :
  0 <= i < Z.of_nat (length h) -> exists scene, entry h i = Some scene.
Proof.
  intros Hi. unfold entry.
  destruct (i <? 0) eqn:E; [apply Z.ltb_lt in E; lia |].
  destruct (lookup_lt_is_Some_2 h (Z.to_nat i)) as [s Hs]; [lia | eauto].
Qed.

(** No operation of the history fails on a state whose cursor is in range,
    and each one keeps the cursor in range. *)
Lemma apply_op_cursor_ok (op : HistoryOp) (st : State) :
  cursor_ok st -> exists st', apply_op op st = Some st' /\ cursor_ok st'.
Proof.
  intros Hc. unfold cursor_ok in Hc. destruct op as [scene | |]; cbn [apply_op].
  - eexists; split; [reflexivity | apply addToHistory_cursor_ok].
  - destruct (Z_lt_le_dec 0 (historyIndex st)) as [Hlt | Hle].
    + destruct (entry_in_range (history st) (historyIndex st - 1)) as [s Hs]; [lia |].
      destruct (handleUndo_step st s Hlt Hs) as (st' & -> & Hh & Hi & _).
      eexists; split; [reflexivity |]. unfold cursor_ok. rewrite Hh, Hi. lia.
    + rewrite handleUndo_noop by lia. eauto.
  - destruct (Z_lt_le_dec (historyIndex st) (Z.of_nat (length (history st)) - 1)) as [Hlt | Hle].
    + destruct (entry_in_range (history st) (historyIndex st + 1)) as [s Hs]; [lia |].
      destruct (handleRedo_step st s Hlt Hs) as (st' & -> & Hh & Hi & _).
      eexists; split; [reflexivity |]. unfold cursor_ok. rewrite Hh, Hi. lia.
    + rewrite handleRedo_noop by lia. eauto.
Qed.

Lemma run_cons (op : HistoryOp) (ops : list HistoryOp) (st : State) :
  run (op :: ops) st
  = match apply_op op st with Some st' => run ops st' | None => None end.
Proof. reflexivity. Qed.

Lemma run_cursor_ok (ops : list HistoryOp) (st : State) :
  cursor_ok st -> exists st', run ops st = Some st' /\ cursor_ok st'.
Proof.
  revert st. induction ops as [| op ops IH]; intros st Hc; cbn [run].
  - eauto.
  - destruct (apply_op_cursor_ok op st Hc) as (st1 & -> & Hc1). cbn. apply IH, Hc1.
Qed.

End History.

Section HistoryRoundTrip.

Import App.

Lemma two_commits (st : State) (sceneA sceneB : list MapLayer.t) :
  -1 <= historyIndex st < Z.of_nat (length (history st)) ->
  history (addToHistory sceneB (addToHistory sceneA st))
    = take (Z.to_nat (historyIndex st + 1)) (history st) ++ [sceneA; sceneB]
  /\ historyIndex (addToHistory sceneB (addToHistory sceneA st)) = historyIndex st + 2.
Proof.
  intros Hi.
  assert (H1 : history (addToHistory sceneA st)
               = take (Z.to_nat (historyIndex st + 1)) (history st) ++ [sceneA]).
  { rewrite addToHistory_history, slice0_take by lia. reflexivity. }
  assert (L1 : length (take (Z.to_nat (historyIndex st + 1)) (history st))
               = Z.to_nat (historyIndex st + 1)).
  { rewrite length_take. lia. }
  assert (I1 : historyIndex (addToHistory sceneA st) = historyIndex st + 1).
  { destruct (addToHistory_cursor sceneA st) as [-> _].
    rewrite H1, length_app, L1. cbn [length]. lia. }
  assert (H2 : history (addToHistory sceneB (addToHistory sceneA st))
               = take (Z.to_nat (historyIndex st + 1)) (history st) ++ [sceneA; sceneB]).
  { rewrite addToHistory_history, I1, slice0_take by lia. rewrite H1.
    rewrite take_ge by (rewrite length_app, L1; cbn [length]; lia).
    rewrite <- app_assoc. reflexivity. }
  split; [exact H2 |].
  destruct (addToHistory_cursor sceneB (addToHistory sceneA st)) as [-> _].
  rewrite H2, length_app, L1. cbn [length]. lia.
Qed.

Lemma entry_after_prefix (h : list (list MapLayer.t)) (i : Z) (sceneA sceneB : list MapLayer.t) :
  -1 <= i < Z.of_nat (length h) ->
  entry (take (Z.to_nat (i + 1)) h ++ [sceneA; sceneB]) (i + 1) = Some sceneA.
Proof.
  intros Hi. unfold entry.
  destruct (i + 1 <? 0) eqn:E; [apply Z.ltb_lt in E; lia |].
  rewrite lookup_app_r by (rewrite length_take; lia).
  rewrite length_take.
  replace (_ - _)%nat with 0%nat by lia. reflexivity.
Qed.

Lemma entry_in_prefix (h : list (list MapLayer.t)) (i : Z) (sceneA sceneB : list MapLayer.t) :
  0 <= i < Z.of_nat (length h) ->
  entry (take (Z.to_nat (i + 1)) h ++ [sceneA; sceneB]) i = entry h i.
Proof.
  intros Hi. unfold entry.
  destruct (i <? 0) eqn:E; [apply Z.ltb_lt in E; lia |].
  rewrite lookup_app_l by (rewrite length_take; lia).
  apply lookup_take_lt. lia.
Qed.

(** C2, as it holds: from a state whose cursor points at an entry of the
    history (the state of the mounted component, and every state after it),
    committing [sceneA] and [sceneB], undoing twice and redoing once makes
    [sceneA] the current scene and leaves the cursor on its entry.  From
    any state whose cursor is in [-1, length - 1] every prefix of the
    sequence runs and ends with the cursor in that range, and undo at or
    below index 0 and redo at the newest entry change nothing. *)
Theorem history_round_trip (st : State) (sceneA sceneB : list MapLayer.t) :
  0 <= historyIndex st < Z.of_nat (length (history st)) ->
  (exists st', run (round_trip sceneA sceneB) st = Some st'
     /\ layers st' = sceneA
     /\ entry (history st') (historyIndex st') = Some sceneA
     /\ historyIndex st' = historyIndex st + 1)
  /\ (forall n, exists st', run (take n (round_trip sceneA sceneB)) st = Some st'
                            /\ cursor_ok st')
  /\ (forall s, historyIndex s <= 0 -> handleUndo s = Some s)
  /\ (forall s, Z.of_nat (length (history s)) - 1 <= historyIndex s -> handleRedo s = Some s).
Proof.
  intros Hi. repeat split.
  - destruct (two_commits st sceneA sceneB ltac:(lia)) as [H2 I2].
    set (st2 := addToHistory sceneB (addToHistory sceneA st)) in *.
    (* first undo: back to sceneA *)
    destruct (handleUndo_step st2 sceneA) as (st3 & U3 & H3 & I3 & L3).
    { lia. }
    { rewrite H2, I2. replace (historyIndex st + 2 - 1) with (historyIndex st + 1) by lia.
      apply entry_after_prefix. lia. }
    (* second undo: back to the entry the cursor was on *)
    destruct (entry_in_range (history st) (historyIndex st) Hi) as [scene0 E0].
    destruct (handleUndo_step st3 scene0) as (st4 & U4 & H4 & I4 & L4).
    { lia. }
    { rewrite H3, I3, H2, I2.
      replace (historyIndex st + 2 - 1 - 1) with (historyIndex st) by lia.
      rewrite entry_in_prefix by lia. exact E0. }
    (* redo: forward to sceneA *)
    assert (Len : length (history st4) = (Z.to_nat (historyIndex st + 1) + 2)%nat).
    { rewrite H4, H3, H2, length_app, length_take. cbn [length]. lia. }
    assert (E5 : entry (history st4) (historyIndex st4 + 1) = Some sceneA).
    { rewrite H4, H3, H2, I4, I3, I2.
      replace (historyIndex st + 2 - 1 - 1 + 1) with (historyIndex st + 1) by lia.
      apply entry_after_prefix. lia. }
    destruct (handleRedo_step st4 sceneA) as (st5 & R5 & H5 & I5 & L5).
    { rewrite Len. lia. }
    { exact E5. }
    exists st5. unfold round_trip.
    rewrite run_cons. cbn [apply_op]. rewrite run_cons. cbn [apply_op]. fold st2.
    rewrite run_cons. cbn [apply_op]. rewrite U3.
    rewrite run_cons. cbn [apply_op]. rewrite U4.
    rewrite run_cons. cbn [apply_op]. rewrite R5. cbn [run].
    repeat split.
    + exact L5.
    + rewrite H5, I5. exact E5.
    + lia.
  - intros n. apply run_cursor_ok. unfold cursor_ok. lia.
  - apply handleUndo_noop.
  - apply handleRedo_noop.
Qed.

(** The theorem at the mounted component's history of one entry. *)
Lemma history_round_trip_witness :
  exists st', run (round_trip Samples.sceneA Samples.sceneB)
                  (setHistoryIndex 0 (setHistory [Samples.sceneB] initial)) = Some st'
              /\ layers st' = Samples.sceneA.
Proof.
  destruct (history_round_trip (setHistoryIndex 0 (setHistory [Samples.sceneB] initial))
              Samples.sceneA Samples.sceneB) as [(st' & H & L & _) _].
  - cbn. lia.
  - exists st'. split; [exact H | exact L].
Defined.

(** C2, as stated, fails on the state of the first render (empty history,
    cursor -1, which is in [-1, length - 1]): the second undo is out of
    bounds and does nothing, so the redo moves on to [sceneB]. *)
Lemma history_round_trip_from_empty :
  cursor_ok initial
  /\ layers <$> run (round_trip Samples.sceneA Samples.sceneB) initial = Some Samples.sceneB
  /\ Samples.sceneB <> Samples.sceneA.
Proof.
  split; [unfold cursor_ok; cbn; lia |].
  split; [reflexivity | discriminate].
Qed.

End HistoryRoundTrip.

(** ** The pixel loops of the object isolator *)

Ltac nat_div := zify; Z.to_euclidean_division_equations; lia.

(** Both loops visit the offsets 0, 4, 8, ... and write at most the alpha
    byte [i + 3] of the pixel at offset [i], deciding from bytes that are
    not alpha bytes.  [upd d i] is the alpha written at offset [i], if any. *)
Section AlphaLoop.

Variable upd : list Z -> nat -> option Z.
Variable step : list Z -> nat -> list Z.

Hypothesis step_spec : forall d i,
  step d i = match upd d i with Some v => <[(i + 3)%nat := v]> d | None => d end.

Hypothesis upd_rgb : forall d d' i,
  (forall p, (p mod 4)%nat <> 3%nat -> d' !! p = d !! p) ->
  (i mod 4 = 0)%nat -> upd d' i = upd d i.

Lemma alpha_step_lookup (d : list Z) (i j : nat) :
  step d i !! j
  = if decide (j = i + 3)%nat
    then match upd d i with Some v => (fun _ => v) <$> d !! j | None => d !! j end
    else d !! j.
Proof.
  rewrite step_spec. destruct (upd d i) as [v |].
  - rewrite list_lookup_insert. destruct (decide (j = (i + 3)%nat)) as [-> | Hne].
    + destruct (decide _) as [[_ Hlt] | Hn].
      * destruct (lookup_lt_is_Some_2 d (i + 3)%nat Hlt) as [x ->]. reflexivity.
      * rewrite lookup_ge_None_2; [reflexivity | ]. 
        destruct (le_lt_dec (length d) (i + 3)); [assumption | exfalso; apply Hn; split; [reflexivity | assumption]].
    + destruct (decide _) as [[He _] | _]; [congruence | reflexivity].
  - destruct (decide _); reflexivity.
Qed.

Lemma alpha_step_rgb (d : list Z) (i p : nat) :
  (i mod 4 = 0)%nat -> (p mod 4)%nat <> 3%nat -> step d i !! p = d !! p.
Proof.
  intros Hi Hp. rewrite alpha_step_lookup.
  destruct (decide _) as [-> | _]; [exfalso; apply Hp; nat_div | reflexivity].
Qed.

Lemma alpha_fold_lookup (ks : list nat) (d : list Z) (j : nat) :
  foldl step d ((fun k => 4 * k)%nat <$> ks) !! j
  = if decide ((j mod 4)%nat = 3%nat /\ (j / 4)%nat ∈ ks)
    then match upd d (j - 3) with Some v => (fun _ => v) <$> d !! j | None => d !! j end
    else d !! j.
Proof.
  revert d. induction ks as [| k ks IH]; intros d.
  - cbn. destruct (decide _) as [[_ H] | _]; [inversion H | reflexivity].
  - cbn [fmap list_fmap foldl]. rewrite IH. clear IH.
    assert (Hk : ((4 * k) mod 4 = 0)%nat) by nat_div.
    destruct (decide ((j mod 4)%nat = 3%nat)) as [Hj | Hj].
    + assert (Hu : upd (step d (4 * k)) (j - 3) = upd d (j - 3)).
      { apply upd_rgb; [intros p Hp; apply alpha_step_rgb; assumption | nat_div]. }
      rewrite Hu, alpha_step_lookup.
      destruct (decide (j = (4 * k + 3)%nat)) as [-> | Hne].
      * replace (4 * k + 3 - 3)%nat with (4 * k)%nat by lia.
        destruct (decide (_ /\ _ ∈ ks)) as [_ | _];
          destruct (decide (_ /\ _ ∈ k :: ks)) as [_ | Hn].
        -- destruct (upd d (4 * k)) as [v |]; [| reflexivity].
           destruct (d !! (4 * k + 3)%nat); reflexivity.
        -- exfalso. apply Hn. split; [assumption |]. apply elem_of_cons. left. nat_div.
        -- reflexivity.
        -- exfalso. apply Hn. split; [assumption |]. apply elem_of_cons. left. nat_div.
      * destruct (decide (_ /\ _ ∈ ks)) as [[_ Hin] | Hn];
          destruct (decide (_ /\ _ ∈ k :: ks)) as [[_ Hin'] | Hn'].
        -- reflexivity.
        -- exfalso. apply Hn'. split; [assumption | apply elem_of_cons; right; assumption].
        -- exfalso. apply elem_of_cons in Hin' as [He | Hin'].
           ++ apply Hne. nat_div.
           ++ apply Hn. split; assumption.
        -- reflexivity.
    + destruct (decide (_ /\ _ ∈ ks)) as [[Hc _] | _]; [contradiction |].
      destruct (decide (_ /\ _ ∈ k :: ks)) as [[Hc _] | _]; [contradiction |].
      apply alpha_step_rgb; assumption.
Qed.

Lemma alpha_fold_length (offs : list nat) (d : list Z) :
  length (foldl step d offs) = length d.
Proof.
  revert d. induction offs as [| i offs IH]; intros d; cbn [foldl]; [reflexivity |].
  rewrite IH, step_spec. destruct (upd d i); [apply length_insert | reflexivity].
Qed.

End AlphaLoop.

Section ChromaKey.

Import ImageUtils.

Lemma magenta_dist_rgb (d d' : list Z) (i : nat) :
  (forall p, (p mod 4)%nat <> 3%nat -> d' !! p = d !! p) ->
  (i mod 4 = 0)%nat -> magenta_dist d' i = magenta_dist d i.
Proof.
  intros H Hi. unfold magenta_dist.
  rewrite !H by nat_div. reflexivity.
Qed.

(** What the loop leaves at index [j]: an alpha byte of a pixel within the
    threshold of the key becomes 0, every other byte stays. *)
Lemma removeMagenta_lookup (data : list Z) (j : nat) :
  removeMagenta_data data !! j
  = if decide ((j mod 4)%nat = 3%nat)
    then if below (magenta_dist data (j - 3)) magenta_threshold
         then (fun _ => 0) <$> data !! j else data !! j
    else data !! j.
Proof.
  unfold removeMagenta_data, offsets.
  rewrite (alpha_fold_lookup
             (fun d i => if below (magenta_dist d i) magenta_threshold then Some 0 else None)).
  - destruct (decide ((j mod 4)%nat = 3%nat)) as [Hj | Hj].
    + destruct (decide (_ /\ _)) as [_ | Hn].
      * destruct (below _ _); reflexivity.
      * assert (Hlen : (length data <= j)%nat).
        { destruct (le_lt_dec (length data) j) as [| Hlt]; [assumption |].
          exfalso. apply Hn. split; [assumption |]. apply elem_of_seq. nat_div. }
        rewrite lookup_ge_None_2 by assumption.
        destruct (below _ _); reflexivity.
    + destruct (decide (_ /\ _)) as [[Hc _] | _]; [contradiction | reflexivity].
  - intros d i. unfold magenta_step. destruct (below _ _); reflexivity.
  - intros d d' i H Hi. rewrite (magenta_dist_rgb d d' i H Hi). reflexivity.
Qed.

Lemma removeMagenta_length (data : list Z) :
  length (removeMagenta_data data) = length data.
Proof.
  unfold removeMagenta_data.
  apply (alpha_fold_length
           (fun d i => if below (magenta_dist d i) magenta_threshold then Some 0 else None)).
  intros d i. unfold magenta_step. destruct (below _ _); reflexivity.
Qed.

(** C8.  Chroma-key removal with key (255, 0, 255) and threshold 100 is
    idempotent on every RGBA buffer: the loop applied to its own result
    returns that result.  The loop keeps the length of the buffer and
    every colour byte, and sets the alpha byte of exactly the pixels whose
    Manhattan distance to the key is below the threshold to 0. *)
Theorem removeMagenta_idempotent (data : list Z) :
  removeMagenta_data (removeMagenta_data data) = removeMagenta_data data
  /\ length (removeMagenta_data data) = length data
  /\ (forall k r g b a,
        data !! (4 * k)%nat = Some r -> data !! (4 * k + 1)%nat = Some g ->
        data !! (4 * k + 2)%nat = Some b -> data !! (4 * k + 3)%nat = Some a ->
        removeMagenta_data data !! (4 * k)%nat = Some r
        /\ removeMagenta_data data !! (4 * k + 1)%nat = Some g
        /\ removeMagenta_data data !! (4 * k + 2)%nat = Some b
        /\ removeMagenta_data data !! (4 * k + 3)%nat
           = Some (if Z.abs (r - 255) + Z.abs (g - 0) + Z.abs (b - 255) <? 100 then 0 else a)).
Proof.
  split; [| split].
  - apply list_eq. intros j. rewrite (removeMagenta_lookup (removeMagenta_data data)).
    destruct (decide ((j mod 4)%nat = 3%nat)) as [Hj | Hj]; [| reflexivity].
    assert (Hd : magenta_dist (removeMagenta_data data) (j - 3) = magenta_dist data (j - 3)).
    { apply magenta_dist_rgb; [| nat_div].
      intros p Hp. rewrite removeMagenta_lookup.
      destruct (decide _); [contradiction | reflexivity]. }
    rewrite Hd. destruct (below _ _) eqn:Hb; [| reflexivity].
    rewrite removeMagenta_lookup. destruct (decide _); [| contradiction].
    rewrite Hb. destruct (data !! j); reflexivity.
  - apply removeMagenta_length.
  - intros k r g b a Hr Hg Hb Ha.
    rewrite !removeMagenta_lookup.
    destruct (decide ((4 * k) mod 4 = 3)%nat) as [H0 | _]; [exfalso; nat_div |].
    destruct (decide ((4 * k + 1) mod 4 = 3)%nat) as [H1 | _]; [exfalso; nat_div |].
    destruct (decide ((4 * k + 2) mod 4 = 3)%nat) as [H2 | _]; [exfalso; nat_div |].
    destruct (decide ((4 * k + 3) mod 4 = 3)%nat) as [_ | H3]; [| exfalso; nat_div].
    repeat split; try assumption.
    replace (4 * k + 3 - 3)%nat with (4 * k)%nat by lia.
    unfold magenta_dist. rewrite Hr, Hg, Hb, Ha. cbn.
    unfold targetR, targetG, targetB, magenta_threshold.
    destruct (_ <? 100); reflexivity.
Qed.

End ChromaKey.

Section Difference.

Import ImageUtils.

Lemma difference_dist_rgb (orig d d' : list Z) (i : nat) :
  (forall p, (p mod 4)%nat <> 3%nat -> d' !! p = d !! p) ->
  (i mod 4 = 0)%nat -> difference_dist orig d' i = difference_dist orig d i.
Proof.
  intros H Hi. unfold difference_dist.
  rewrite !H by nat_div. reflexivity.
Qed.

Lemma difference_lookup (orig gen : list Z) (j : nat) :
  difference_data orig gen !! j
  = if decide ((j mod 4)%nat = 3%nat)
    then (fun _ => if below (difference_dist orig gen (j - 3)) difference_threshold
                   then 0 else 255) <$> gen !! j
    else gen !! j.
Proof.
  unfold difference_data, offsets.
  rewrite (alpha_fold_lookup
             (fun d i => Some (if below (difference_dist orig d i) difference_threshold
                               then 0 else 255))).
  - destruct (decide ((j mod 4)%nat = 3%nat)) as [Hj | Hj].
    + destruct (decide (_ /\ _)) as [_ | Hn]; [reflexivity |].
      assert (Hlen : (length gen <= j)%nat).
      { destruct (le_lt_dec (length gen) j) as [| Hlt]; [assumption |].
        exfalso. apply Hn. split; [assumption |]. apply elem_of_seq. nat_div. }
      rewrite lookup_ge_None_2 by assumption. reflexivity.
    + destruct (decide (_ /\ _)) as [[Hc _] | _]; [contradiction | reflexivity].
  - intros d i. unfold difference_step. destruct (below _ _); reflexivity.
  - intros d d' i H Hi. rewrite (difference_dist_rgb orig d d' i H Hi). reflexivity.
Qed.

Lemma difference_length (orig gen : list Z) :
  length (difference_data orig gen) = length gen.
Proof.
  unfold difference_data.
  apply (alpha_fold_length
           (fun d i => Some (if below (difference_dist orig d i) difference_threshold
                             then 0 else 255))).
  intros d i. unfold difference_step. destruct (below _ _); reflexivity.
Qed.

(** The bytes of pixel [k] of a buffer that has one. *)
Lemma pixel_bytes_exist (data : list Z) (n k : nat) :
  length data = (4 * n)%nat -> (k < n)%nat ->
  exists r g b a,
    data !! (4 * k)%nat = Some r /\ data !! (4 * k + 1)%nat = Some g
    /\ data !! (4 * k + 2)%nat = Some b /\ data !! (4 * k + 3)%nat = Some a.
Proof.
  intros Hlen Hk.
  destruct (lookup_lt_is_Some_2 data (4 * k)%nat) as [r Hr]; [lia |].
  destruct (lookup_lt_is_Some_2 data (4 * k + 1)%nat) as [g Hg]; [lia |].
  destruct (lookup_lt_is_Some_2 data (4 * k + 2)%nat) as [b Hb]; [lia |].
  destruct (lookup_lt_is_Some_2 data (4 * k + 3)%nat) as [a Ha]; [lia |].
  exists r, g, b, a. repeat split; assumption.
Qed.

(** C7.  For two RGBA buffers of the same shape, difference extraction
    returns a buffer with the dimensions of the generated one; pixel by
    pixel it keeps the generated colour, with alpha 0 where the Manhattan
    distance over R, G, B between original and generated is below 35 and
    alpha 255 elsewhere.  Applied to two identical buffers it yields a
    fully transparent buffer. *)
Theorem createDifferenceLayer_pixels (orig gen : ImageData) :
  idWidth orig = idWidth gen ->
  idHeight orig = idHeight gen ->
  length (idData orig) = (4 * (idWidth orig * idHeight orig))%nat ->
  length (idData gen) = (4 * (idWidth gen * idHeight gen))%nat ->
  let out := differenceLayer orig gen in
  idWidth out = idWidth gen
  /\ idHeight out = idHeight gen
  /\ length (idData out) = (4 * (idWidth gen * idHeight gen))%nat
  /\ (forall k, (k < idWidth gen * idHeight gen)%nat ->
        exists r1 g1 b1 r2 g2 b2,
          idData orig !! (4 * k)%nat = Some r1
          /\ idData orig !! (4 * k + 1)%nat = Some g1
          /\ idData orig !! (4 * k + 2)%nat = Some b1
          /\ idData gen !! (4 * k)%nat = Some r2
          /\ idData gen !! (4 * k + 1)%nat = Some g2
          /\ idData gen !! (4 * k + 2)%nat = Some b2
          /\ idData out !! (4 * k)%nat = Some r2
          /\ idData out !! (4 * k + 1)%nat = Some g2
          /\ idData out !! (4 * k + 2)%nat = Some b2
          /\ idData out !! (4 * k + 3)%nat
             = Some (if Z.abs (r1 - r2) + Z.abs (g1 - g2) + Z.abs (b1 - b2) <? 35
                     then 0 else 255))
  /\ (idData orig = idData gen ->
      forall k, (k < idWidth gen * idHeight gen)%nat -> idData out !! (4 * k + 3)%nat = Some 0).
Proof.
  intros Hw Hh Lo Lg out.
  assert (Pix : forall k, (k < idWidth gen * idHeight gen)%nat ->
        exists r1 g1 b1 r2 g2 b2,
          idData orig !! (4 * k)%nat = Some r1
          /\ idData orig !! (4 * k + 1)%nat = Some g1
          /\ idData orig !! (4 * k + 2)%nat = Some b1
          /\ idData gen !! (4 * k)%nat = Some r2
          /\ idData gen !! (4 * k + 1)%nat = Some g2
          /\ idData gen !! (4 * k + 2)%nat = Some b2
          /\ idData out !! (4 * k)%nat = Some r2
          /\ idData out !! (4 * k + 1)%nat = Some g2
          /\ idData out !! (4 * k + 2)%nat = Some b2
          /\ idData out !! (4 * k + 3)%nat
             = Some (if Z.abs (r1 - r2) + Z.abs (g1 - g2) + Z.abs (b1 - b2) <? 35
                     then 0 else 255)).
  { intros k Hk.
    destruct (pixel_bytes_exist (idData orig) _ k Lo) as (r1 & g1 & b1 & a1 & O0 & O1 & O2 & _).
    { rewrite Hw, Hh. exact Hk. }
    destruct (pixel_bytes_exist (idData gen) _ k Lg Hk) as (r2 & g2 & b2 & a2 & G0 & G1 & G2 & G3).
    exists r1, g1, b1, r2, g2, b2. repeat split; try assumption.
    all: subst out; cbn [differenceLayer idData]; rewrite difference_lookup.
    - destruct (decide ((4 * k) mod 4 = 3)%nat) as [H0 | _]; [exfalso; nat_div | exact G0].
    - destruct (decide ((4 * k + 1) mod 4 = 3)%nat) as [H0 | _]; [exfalso; nat_div | exact G1].
    - destruct (decide ((4 * k + 2) mod 4 = 3)%nat) as [H0 | _]; [exfalso; nat_div | exact G2].
    - destruct (decide ((4 * k + 3) mod 4 = 3)%nat) as [_ | H3]; [| exfalso; nat_div].
      replace (4 * k + 3 - 3)%nat with (4 * k)%nat by lia.
      unfold difference_dist. rewrite O0, O1, O2, G0, G1, G2, G3. cbn.
      unfold difference_threshold. reflexivity. }
  split; [reflexivity |]. split; [reflexivity |].
  split; [subst out; cbn [differenceLayer idData]; rewrite difference_length; exact Lg |].
  split; [exact Pix |].
  intros Heq k Hk.
  destruct (Pix k Hk) as (r1 & g1 & b1 & r2 & g2 & b2 & O0 & O1 & O2 & G0 & G1 & G2 & _ & _ & _ & ->).
  rewrite Heq in O0, O1, O2.
  assert (r1 = r2) by congruence. assert (g1 = g2) by congruence. assert (b1 = b2) by congruence.
  subst. rewrite !Z.sub_diag. reflexivity.
Qed.

(** The theorem at two 2x1 buffers: the first pixel is within the
    threshold and becomes transparent, the second is kept opaque. *)
Lemma createDifferenceLayer_pixels_witness :
  idData (differenceLayer Samples.bufferOrig Samples.bufferGen)
    = [12; 25; 33; 0; 100; 140; 100; 255]
  /\ length (idData (differenceLayer Samples.bufferOrig Samples.bufferGen)) = 8%nat.
Proof.
  split; [reflexivity |].
  destruct (createDifferenceLayer_pixels Samples.bufferOrig Samples.bufferGen
              eq_refl eq_refl eq_refl eq_refl) as (_ & _ & H & _).
  exact H.
Defined.

End Difference.

(** ** getContentBounds *)

Section ContentBounds.

Import ImageUtils.

Variables (canvasW canvasH : nat) (data : list Z).






End ContentBounds.

Section ContentBoundsResult.

Import ImageUtils.


(** A 3x2 mask whose only pixel with alpha > 0 is (1, 1), and an empty one. *)
Example getContentBounds_single_pixel :
  contentBounds 3 2 [0;0;0;0; 0;0;0;0; 0;0;0;0;
                     0;0;0;0; 255;0;255;128; 0;0;0;0]
  = Some {| Rect.x := 1; Rect.y := 1; Rect.width := 1 - 1; Rect.height := 1 - 1 |}
  /\ contentBounds 3 2 (repeat 0 24) = None.
Proof. split; reflexivity. Qed.

End ContentBoundsResult.

(** ** Neighbour detection *)

Section Neighbours.

Import App.

Lemma Qltb_lt (a b : Q) : Num.Qltb a b = true <-> (a < b)%Q.
Proof.
  unfold Num.Qltb. rewrite negb_true_iff. split.
  - intros H. apply Qnot_le_lt. intros Hle. apply Qle_bool_iff in Hle. congruence.
  - intros H. destruct (Qle_bool b a) eqn:E; [| reflexivity].
    apply Qle_bool_iff in E. exfalso. exact (Qlt_not_le _ _ H E).
Qed.

Lemma is_base_true (l : MapLayer.t) : is_base l = true <-> MapLayer.type l = base.
Proof. unfold is_base. destruct (MapLayer.type l); cbn; split; congruence. Qed.

(** The test the four checks share. *)
Lemma near_base (l : MapLayer.t) (px py : Q) :
  is_base l && Num.Qltb (Qabs (MapLayer.x l - px)) EPSILON
            && Num.Qltb (Qabs (MapLayer.y l - py)) EPSILON = true
  <-> MapLayer.type l = base
      /\ (Qabs (MapLayer.x l - px) < 100)%Q /\ (Qabs (MapLayer.y l - py) < 100)%Q.
Proof.
  rewrite !andb_true_iff, is_base_true, !Qltb_lt. unfold EPSILON. tauto.
Qed.

Lemma existsb_elem {T : Type} (f : T -> bool) (l : list T) :
  existsb f l = true <-> exists v, v ∈ l /\ f v = true.
Proof.
  rewrite existsb_exists. split; intros (v & H1 & H2); exists v; split; try assumption;
    apply list_elem_of_In; assumption.
Qed.

(** C6.  Each of the four neighbour checks succeeds exactly when some base
    layer of the scene lies within epsilon = 100 of the expected neighbour
    position on both coordinates; object layers are not looked at.  For the
    target tile at the world origin a base layer at (1024 + 40, 0) is found
    as the right neighbour, a base layer at (1024 + 150, 0) is not, and
    neither is an object layer at (1024 + 40, 0). *)
Theorem neighbour_detection :
  (forall layers tx ty,
     (hasLeft layers tx ty = true <->
      exists l, l ∈ layers /\ MapLayer.type l = base
                /\ (Qabs (MapLayer.x l - (tx - 1024)) < 100)%Q
                /\ (Qabs (MapLayer.y l - ty) < 100)%Q)
     /\ (hasRight layers tx ty = true <->
         exists l, l ∈ layers /\ MapLayer.type l = base
                   /\ (Qabs (MapLayer.x l - (tx + 1024)) < 100)%Q
                   /\ (Qabs (MapLayer.y l - ty) < 100)%Q)
     /\ (hasTop layers tx ty = true <->
         exists l, l ∈ layers /\ MapLayer.type l = base
                   /\ (Qabs (MapLayer.x l - tx) < 100)%Q
                   /\ (Qabs (MapLayer.y l - (ty - 1024)) < 100)%Q)
     /\ (hasBottom layers tx ty = true <->
         exists l, l ∈ layers /\ MapLayer.type l = base
                   /\ (Qabs (MapLayer.x l - tx) < 100)%Q
                   /\ (Qabs (MapLayer.y l - (ty + 1024)) < 100)%Q))
  /\ hasRight [Samples.tileOrigin; Samples.tileNear] 0 0 = true
  /\ hasRight [Samples.tileOrigin; Samples.tileFar] 0 0 = false
  /\ hasRight [Samples.tileOrigin; Samples.objectNear] 0 0 = false.
Proof.
  split; [| repeat split; reflexivity].
  intros layers tx ty.
  unfold hasLeft, hasRight, hasTop, hasBottom.
  rewrite !existsb_elem. unfold CANVAS_WIDTH, CANVAS_HEIGHT.
  repeat split; intros (l & Hin & H); exists l; (split; [exact Hin |]);
    first [apply near_base in H; exact H | apply near_base; exact H].
Qed.

End Neighbours.

(** ** The inverse crop of the tile stitcher *)

Section InverseCrop.

Import GeminiService.

Lemma layout_cases (n : Neighbors) :
  (targetX (layout n) = 0 \/ targetX (layout n) = 256)
  /\ (targetY (layout n) = 0 \/ targetY (layout n) = 256)
  /\ targetX (layout n) + 1024 <= contentW (layout n) <= 1536
  /\ targetY (layout n) + 1024 <= contentH (layout n) <= 1536.
Proof.
  unfold layout.
  destruct (present (left n)), (present (right n)), (present (top n)), (present (bottom n));
    cbn; unfold TARGET_SIZE, STRIP_SIZE; lia.
Qed.

Lemma canvasSize_cases (n : Neighbors) :
  (canvasSize n = 1024 \/ canvasSize n = 1280 \/ canvasSize n = 1536)
  /\ targetX (layout n) + 1024 <= canvasSize n
  /\ targetY (layout n) + 1024 <= canvasSize n.
Proof.
  unfold canvasSize, layout.
  destruct (present (left n)), (present (right n)), (present (top n)), (present (bottom n));
    cbn; unfold TARGET_SIZE, STRIP_SIZE; lia.
Qed.

End InverseCrop.

(** ** The stitching canvas *)

Section Stitching.

Import GeminiService.

Lemma settled_insert (promises : list DrawPromise) (k : nat) (p p' : DrawPromise) :
  promises !! k = Some p -> fulfilled p = false -> fulfilled p' = true ->
  settled (<[k := p']> promises) = S (settled promises).
Proof.
  revert k. induction promises as [| q qs IH]; intros k Hk Hp Hp'; [discriminate |].
  destruct k as [| k]; cbn in Hk.
  - injection Hk as ->. change (<[0%nat := p']> (p :: qs)) with (p' :: qs).
    unfold settled. rewrite !filter_cons.
    destruct (decide (fulfilled p' = true)); [| contradiction].
    destruct (decide (fulfilled p = true)); [congruence | reflexivity].
  - change (<[S k := p']> (q :: qs)) with (q :: <[k := p']> qs).
    unfold settled in *. rewrite !filter_cons.
    destruct (decide (fulfilled q = true)); cbn [length]; rewrite (IH k Hk Hp Hp'); reflexivity.
Qed.

Lemma settled_all (promises : list DrawPromise) :
  forallb fulfilled promises = true -> settled promises = length promises.
Proof.
  induction promises as [| q qs IH]; [reflexivity |].
  cbn [forallb]. intros H. apply andb_true_iff in H as [Hq Hqs].
  unfold settled in *. rewrite filter_cons.
  destruct (decide (fulfilled q = true)); [| contradiction].
  cbn [length]. rewrite (IH Hqs). reflexivity.
Qed.

(** One [load] event draws at most one strip, and only for a promise that was
    pending. *)
Lemma fire_step (br : Browser) (promises : list DrawPromise) (c : Canvas.t) (k : nat) :
  exists draws,
    Canvas.log (snd (fire br (promises, c) k)) = Canvas.log c ++ draws
    /\ Forall is_draw draws
    /\ settled (fst (fire br (promises, c) k)) = (settled promises + length draws)%nat
    /\ length (fst (fire br (promises, c) k)) = length promises.
Proof.
  unfold fire.
  destruct (promises !! k) as [p |] eqn:Hk.
  - destruct (fulfilled p) eqn:Hp.
    + exists []. cbn [fst snd length]. rewrite app_nil_r. split; [reflexivity |]. split; [constructor |]. split; [lia | reflexivity].
    + destruct (decode br (pSrc p)) as [img |].
      * eexists [_]. cbn [fst snd Canvas.drawImage3 Canvas.log].
        split; [reflexivity |]. split; [repeat constructor |]. split.
        -- erewrite settled_insert; [| exact Hk | exact Hp | reflexivity]. cbn [length]. lia.
        -- apply length_insert.
      * exists []. cbn [fst snd length]. rewrite app_nil_r. split; [reflexivity |]. split; [constructor |]. split; [lia | reflexivity].
  - exists []. cbn [fst snd length]. rewrite app_nil_r. split; [reflexivity |]. split; [constructor |]. split; [lia | reflexivity].
Qed.

Lemma fire_all (br : Browser) (events : list nat) (st : list DrawPromise * Canvas.t) :
  exists draws,
    Canvas.log (snd (foldl (fire br) st events)) = Canvas.log (snd st) ++ draws
    /\ Forall is_draw draws
    /\ settled (fst (foldl (fire br) st events)) = (settled (fst st) + length draws)%nat
    /\ length (fst (foldl (fire br) st events)) = length (fst st).
Proof.
  revert st. induction events as [| k events IH]; intros [promises c].
  - exists []. cbn [foldl fst snd length]. rewrite app_nil_r. split; [reflexivity |]. split; [constructor |]. split; [lia | reflexivity].
  - cbn [foldl].
    destruct (fire_step br promises c k) as (d1 & L1 & F1 & S1 & N1).
    destruct (IH (fire br (promises, c) k)) as (d2 & L2 & F2 & S2 & N2).
    exists (d1 ++ d2). cbn [fst snd].
    rewrite L2, L1, S2, S1, N2, N1, length_app, <- app_assoc.
    split; [reflexivity |]. split; [apply Forall_app; auto |]. split; [lia | reflexivity].
Qed.

(** Once every promise is fulfilled, further events and a further
    [await Promise.all(promises)] draw nothing. *)
Lemma fire_fulfilled (br : Browser) (promises : list DrawPromise) (c : Canvas.t) (k : nat) :
  forallb fulfilled promises = true -> fire br (promises, c) k = (promises, c).
Proof.
  intros Hall. unfold fire. destruct (promises !! k) as [p |] eqn:Hk; [| reflexivity].
  assert (Hp : fulfilled p = true).
  { rewrite forallb_forall in Hall. apply Hall. apply list_elem_of_In.
    eapply list_elem_of_lookup_2, Hk. }
  rewrite Hp. reflexivity.
Qed.

Lemma await_all_fulfilled (br : Browser) (events : list nat)
    (promises : list DrawPromise) (c : Canvas.t) :
  forallb fulfilled promises = true ->
  await_all br events (promises, c) = Some (promises, c).
Proof.
  intros Hall.
  assert (H : foldl (fire br) (promises, c) events = (promises, c)).
  { induction events as [| k events IH]; [reflexivity |].
    cbn [foldl]. rewrite fire_fulfilled by assumption. exact IH. }
  unfold await_all. rewrite H. cbn [fst]. rewrite Hall. reflexivity.
Qed.

Lemma strip_promises_pending (n : Neighbors) : settled (strip_promises n) = 0%nat.
Proof.
  unfold strip_promises.
  destruct (present (left n)), (present (right n)), (present (top n)), (present (bottom n));
    reflexivity.
Qed.

(** X11.  The paint order of the stitching canvas, for every set of neighbours
    and every order of the load events for which the function goes on: the
    neutral fill, one [drawImage] per present strip, the magenta fill, and
    nothing after it. *)
Lemma stitch_canvas_paint_order (br : Browser) (events : list nat) (n : Neighbors)
    (c : Canvas.t) :
  stitch_canvas br events n = Some c ->
  exists draws,
    Canvas.log c
    = Canvas.FillRect neutral 0 0 (canvasSize n) (canvasSize n) :: draws
      ++ [Canvas.FillRect magenta (targetX (layout n)) (targetY (layout n)) 1024 1024]
    /\ Forall is_draw draws
    /\ length draws = length (strip_promises n).
Proof.
  unfold stitch_canvas.
  set (c0 := Canvas.fillRect neutral 0 0 (canvasSize n) (canvasSize n)
               (Canvas.create (canvasSize n) (canvasSize n))).
  destruct (await_all br events (strip_promises n, c0)) as [[promises c1] |] eqn:H1;
    [| discriminate].
  cbn [mbind option_bind fst snd].
  unfold await_all in H1.
  destruct (forallb fulfilled (fst (foldl (fire br) (strip_promises n, c0) events))) eqn:Hall;
    [| discriminate].
  injection H1 as H1.
  destruct (fire_all br events (strip_promises n, c0)) as (draws & L & F & S & N).
  rewrite H1 in L, S, N, Hall. cbn [fst snd] in L, S, N, Hall.
  rewrite await_all_fulfilled by exact Hall.
  cbn [mbind option_bind fst snd]. intros [= <-].
  exists draws. cbn [Canvas.fillRect Canvas.log]. rewrite L.
  split; [reflexivity |]. split; [exact F |].
  rewrite strip_promises_pending in S. rewrite (settled_all _ Hall) in S. lia.
Qed.

(** C4 on the code.  With a left neighbour the canvas receives the neutral
    fill, the strip and the magenta fill, in this order, and no second
    [drawImage]: the second [await Promise.all(promises)] waits for promises
    that are fulfilled already.  For the strip [handleNavigate] cuts the
    final canvas still shows the strip, because the marker rectangle starts
    where the strip ends; for a strip wider than 256 the pixels that reach
    into the marker rectangle end magenta. *)
Theorem stitch_canvas_strips_drawn_once :
  (exists c, stitch_canvas Samples.images [0%nat] Samples.leftOnly = Some c
     /\ Canvas.log c = [Canvas.FillRect neutral 0 0 1280 1280;
                        Canvas.DrawImage "left.png" 0 0 256 1024;
                        Canvas.FillRect magenta 256 0 1024 1024]
     /\ Canvas.px c 255 0 = Samples.green
     /\ Canvas.px c 256 0 = magenta)
  /\ (exists c, stitch_canvas Samples.images [0%nat] Samples.leftWide = Some c
        /\ Canvas.log c = [Canvas.FillRect neutral 0 0 1280 1280;
                           Canvas.DrawImage "wide.png" 0 0 300 1024;
                           Canvas.FillRect magenta 256 0 1024 1024]
        /\ Canvas.px c 255 0 = Samples.green
        /\ Canvas.px c 256 0 = magenta
        /\ Canvas.px (Canvas.drawImage3 "wide.png" (Samples.solid 300 1024 Samples.green) 0 0 c)
                     256 0 = Samples.green).
Proof.
  split; eexists; (split; [reflexivity |]); repeat split; reflexivity.
Qed.

End Stitching.

Section StripPixels.

Import GeminiService.

Lemma drawImage3_px_under (src : string) (img : Raster) (x y : Z) (c : Canvas.t) (i j : Z) :
  Canvas.inside c i j = true -> under_image x y img i j ->
  Canvas.px (Canvas.drawImage3 src img x y c) i j = over (rpx img (i - x) (j - y)) (Canvas.px c i j).
Proof.
  intros Hin [Hi Hj]. unfold Canvas.drawImage3, Canvas.px at 1. cbn [Canvas.bitmap rpx].
  rewrite Hin.
  replace (x <=? i) with true by (symmetry; apply Z.leb_le; lia).
  replace (i <? x + rw img) with true by (symmetry; apply Z.ltb_lt; lia).
  replace (y <=? j) with true by (symmetry; apply Z.leb_le; lia).
  replace (j <? y + rh img) with true by (symmetry; apply Z.ltb_lt; lia).
  reflexivity.
Qed.

Lemma drawImage3_px_beside (src : string) (img : Raster) (x y : Z) (c : Canvas.t) (i j : Z) :
  ~ under_image x y img i j ->
  Canvas.px (Canvas.drawImage3 src img x y c) i j = Canvas.px c i j.
Proof.
  intros Hout. unfold Canvas.drawImage3, Canvas.px at 1. cbn [Canvas.bitmap rpx].
  destruct (Canvas.inside c i j); [| reflexivity]. cbn [andb].
  destruct (Z.leb_spec x i), (Z.ltb_spec i (x + rw img)),
           (Z.leb_spec y j), (Z.ltb_spec j (y + rh img)); try reflexivity.
  exfalso. apply Hout. unfold under_image. lia.
Qed.

Lemma fillRect_px_beside (style : Pixel) (x y w h : Z) (c : Canvas.t) (i j : Z) :
  ~ (x <= i < x + w /\ y <= j < y + h) ->
  Canvas.px (Canvas.fillRect style x y w h c) i j = Canvas.px c i j.
Proof.
  intros Hout. unfold Canvas.fillRect, Canvas.px at 1. cbn [Canvas.bitmap rpx].
  destruct (Canvas.inside c i j); [| reflexivity]. cbn [andb].
  destruct (Z.leb_spec x i), (Z.ltb_spec i (x + w)),
           (Z.leb_spec y j), (Z.ltb_spec j (y + h)); try reflexivity.
  exfalso. apply Hout. lia.
Qed.

Variable br : Browser.
Variables (promises0 : list DrawPromise) (c0 : Canvas.t).
Variables (k : nat) (p0 : DrawPromise) (img : Raster) (i j : Z).

Hypothesis strip_k : promises0 !! k = Some p0.
Hypothesis strip_img : decode br (pSrc p0) = Some img.
Hypothesis pixel_inside : Canvas.inside c0 i j = true.
Hypothesis pixel_under : under_image (pX p0) (pY p0) img i j.
Hypothesis pixel_free : forall k' q img',
  k' <> k -> promises0 !! k' = Some q -> decode br (pSrc q) = Some img' ->
  ~ under_image (pX q) (pY q) img' i j.

(** What the events so far have done to the pixel. *)
Let tracked (st : list DrawPromise * Canvas.t) : Prop :=
  (forall k' q, fst st !! k' = Some q ->
     exists q0, promises0 !! k' = Some q0
                /\ pSrc q = pSrc q0 /\ pX q = pX q0 /\ pY q = pY q0)
  /\ Canvas.inside (snd st) i j = true
  /\ exists p, fst st !! k = Some p
       /\ Canvas.px (snd st) i j
          = if fulfilled p
            then over (rpx img (i - pX p0) (j - pY p0)) (Canvas.px c0 i j)
            else Canvas.px c0 i j.

Lemma tracked_fire (st : list DrawPromise * Canvas.t) (e : nat) :
  tracked st -> tracked (fire br st e).
Proof.
  destruct st as [promises c]. intros (Hsame & Hin & p & Hp & Hpx). cbn [fst snd] in *.
  unfold fire.
  destruct (promises !! e) as [q |] eqn:Hq; [| repeat split; eauto].
  destruct (fulfilled q) eqn:Hf; [repeat split; eauto |].
  destruct (decode br (pSrc q)) as [img' |] eqn:Hd; [| repeat split; eauto].
  destruct (Hsame e q Hq) as (q0 & Hq0 & Es & Ex & Ey).
  split; [| split]; cbn [fst snd].
  - intros k' q' Hk'. destruct (decide (k' = e)) as [-> | Hne].
    + rewrite list_lookup_insert_eq in Hk' by (eapply lookup_lt_Some; eauto).
      injection Hk' as <-. exists q0. cbn. auto.
    + rewrite list_lookup_insert_ne in Hk' by congruence. eauto.
  - exact Hin.
  - destruct (decide (e = k)) as [-> | Hne].
    + rewrite Hp in Hq. injection Hq as <-.
      rewrite strip_k in Hq0. injection Hq0 as <-.
      assert (img' = img) as -> by congruence.
      eexists. split; [apply list_lookup_insert_eq; eapply lookup_lt_Some; eauto |].
      cbn [fulfilled]. rewrite Hf in Hpx.
      rewrite Ex, Ey, drawImage3_px_under by assumption. rewrite Hpx. reflexivity.
    + exists p. split; [rewrite list_lookup_insert_ne by congruence; exact Hp |].
      rewrite drawImage3_px_beside; [exact Hpx |].
      rewrite Ex, Ey. apply (pixel_free e q0 img' Hne Hq0). rewrite <- Es. exact Hd.
Qed.

Lemma tracked_events (events : list nat) (st : list DrawPromise * Canvas.t) :
  tracked st -> tracked (foldl (fire br) st events).
Proof.
  revert st. induction events as [| e events IH]; intros st H; [exact H |].
  cbn [foldl]. apply IH, tracked_fire, H.
Qed.

(** Once every strip is drawn, a pixel that lies under one strip only shows
    that strip over what was there before. *)
Lemma await_all_pixel (events : list nat) (promises : list DrawPromise) (c : Canvas.t) :
  Forall (fun p => fulfilled p = false) promises0 ->
  await_all br events (promises0, c0) = Some (promises, c) ->
  Canvas.inside c i j = true
  /\ Canvas.px c i j = over (rpx img (i - pX p0) (j - pY p0)) (Canvas.px c0 i j).
Proof.
  intros Hpending. unfold await_all.
  destruct (forallb fulfilled (fst (foldl (fire br) (promises0, c0) events))) eqn:Hall;
    [| discriminate].
  intros [= E].
  assert (H0 : tracked (promises0, c0)).
  { split; [| split]; cbn [fst snd].
    - intros k' q Hq. exists q. auto.
    - exact pixel_inside.
    - exists p0. split; [exact strip_k |].
      rewrite Forall_forall in Hpending.
      rewrite (Hpending p0) by (eapply list_elem_of_lookup_2, strip_k). reflexivity. }
  pose proof (tracked_events events _ H0) as (_ & Hin & p & Hp & Hpx).
  rewrite E in Hall, Hin, Hp, Hpx. cbn [fst snd] in *.
  split; [exact Hin |].
  assert (Hf : fulfilled p = true).
  { rewrite forallb_forall in Hall. apply Hall, list_elem_of_In.
    eapply list_elem_of_lookup_2, Hp. }
  rewrite Hf in Hpx. exact Hpx.
Qed.

End StripPixels.

Section StripPixelsFinal.

Import GeminiService.

Lemma strip_promises_all_pending (n : Neighbors) :
  Forall (fun p => fulfilled p = false) (strip_promises n).
Proof.
  unfold strip_promises.
  destruct (present (left n)), (present (right n)), (present (top n)), (present (bottom n));
    repeat constructor.
Qed.

(** The outcome the re-blit was meant to secure, as far as the code secures
    it: on the final canvas a pixel that lies under one strip, and outside
    the marker rectangle and the other strips, shows that strip over the
    neutral background. *)
Lemma stitch_canvas_strip_pixel (br : Browser) (events : list nat) (n : Neighbors)
    (c : Canvas.t) (k : nat) (p : DrawPromise) (img : Raster) (i j : Z) :
  stitch_canvas br events n = Some c ->
  strip_promises n !! k = Some p ->
  decode br (pSrc p) = Some img ->
  0 <= i < canvasSize n -> 0 <= j < canvasSize n ->
  under_image (pX p) (pY p) img i j ->
  ~ in_target n i j ->
  (forall k' q img', k' <> k -> strip_promises n !! k' = Some q ->
     decode br (pSrc q) = Some img' -> ~ under_image (pX q) (pY q) img' i j) ->
  Canvas.px c i j = over (rpx img (i - pX p) (j - pY p)) neutral.
Proof.
  intros Hc Hk Hd Hi Hj Hunder Htarget Hfree. unfold stitch_canvas in Hc.
  set (c0 := Canvas.fillRect neutral 0 0 (canvasSize n) (canvasSize n)
               (Canvas.create (canvasSize n) (canvasSize n))) in *.
  destruct (await_all br events (strip_promises n, c0)) as [[promises c1] |] eqn:H1;
    [| discriminate].
  cbn [mbind option_bind fst snd] in Hc.
  assert (Hall : forallb fulfilled promises = true).
  { unfold await_all in H1.
    destruct (forallb fulfilled (fst (foldl (fire br) (strip_promises n, c0) events))) eqn:E;
      [| discriminate].
    injection H1 as H1. rewrite H1 in E. exact E. }
  rewrite await_all_fulfilled in Hc by exact Hall.
  cbn [mbind option_bind fst snd] in Hc. injection Hc as <-.
  assert (Hin0 : Canvas.inside c0 i j = true).
  { unfold Canvas.inside, c0. cbn.
    apply andb_true_iff; split; [apply andb_true_iff; split; [apply andb_true_iff; split |] |];
      first [apply Z.leb_le | apply Z.ltb_lt]; lia. }
  assert (Hpx0 : Canvas.px c0 i j = neutral).
  { unfold c0, Canvas.fillRect, Canvas.px at 1. cbn [Canvas.bitmap rpx].
    fold c0. change (Canvas.inside (Canvas.create (canvasSize n) (canvasSize n)) i j)
      with (Canvas.inside c0 i j). rewrite Hin0. cbn [andb].
    replace (0 <=? i) with true by (symmetry; apply Z.leb_le; lia).
    replace (i <? 0 + canvasSize n) with true by (symmetry; apply Z.ltb_lt; lia).
    replace (0 <=? j) with true by (symmetry; apply Z.leb_le; lia).
    replace (j <? 0 + canvasSize n) with true by (symmetry; apply Z.ltb_lt; lia).
    reflexivity. }
  destruct (await_all_pixel br (strip_promises n) c0 k p img i j Hk Hd Hin0 Hunder Hfree
              events promises c1 (strip_promises_all_pending n) H1) as [_ Hpx].
  rewrite fillRect_px_beside; [rewrite Hpx, Hpx0; reflexivity |].
  exact Htarget.
Qed.

End StripPixelsFinal.

(** ** Failure of the generation collaborator *)

Section GenerationFailure.

Import GeminiService App.

Lemma first_image_none (parts : list Part) :
  (forall part, part ∈ parts -> inlineData part = None) -> first_image parts = None.
Proof.
  induction parts as [| part parts IH]; intros H; [reflexivity |].
  cbn [first_image]. rewrite (H part) by (apply elem_of_cons; left; reflexivity).
  apply IH. intros q Hq. apply H. apply elem_of_cons. right. exact Hq.
Qed.

Lemma generateMapAsset_fails (prompt : string) (settings : MapSettings)
    (contextImage : option string) (w : World) :
  generation_fails w ->
  exists e w', generateMapAsset prompt settings contextImage w = (Throw e, w')
               /\ one_call_at_most w w'.
Proof.
  unfold generation_fails, generateMapAsset, one_call_at_most, getClient, generateContent.
  intros H. unfold mbind, Async_bind.
  destruct (apiKey w).
  - destruct (respond w (length (dispatched w))) as [e | parts].
    + eexists _, _. split; [reflexivity |]. cbn. rewrite length_app. cbn. lia.
    + rewrite (first_image_none parts H). unfold throw.
      eexists _, _. split; [reflexivity |]. cbn. rewrite length_app. cbn. lia.
  - eexists _, _. split; [reflexivity |]. lia.
Qed.

Lemma generateBaseTexture_fails (promptInput : string) (settings : MapSettings) (w : World) :
  generation_fails w ->
  exists e w', generateBaseTexture promptInput settings w = (Throw e, w')
               /\ one_call_at_most w w'.
Proof.
  unfold generation_fails, generateBaseTexture, one_call_at_most, getClient, generateContent.
  intros H. unfold mbind, Async_bind.
  destruct (apiKey w).
  - destruct (respond w (length (dispatched w))) as [e | parts].
    + eexists _, _. split; [reflexivity |]. cbn. rewrite length_app. cbn. lia.
    + rewrite (first_image_none parts H). unfold throw.
      eexists _, _. split; [reflexivity |]. cbn. rewrite length_app. cbn. lia.
  - eexists _, _. split; [reflexivity |]. lia.
Qed.

(** The stitcher either never gets to the call (a strip that does not
    load), or makes it once and throws. *)
Lemma generateSeamlessTexture_fails (n : Neighbors) (settings : MapSettings)
    (basePrompt : string) (w : World) :
  generation_fails w ->
  exists r w', generateSeamlessTexture n settings basePrompt w = (r, w')
               /\ (forall url, r <> Ok url)
               /\ one_call_at_most w w'.
Proof.
  unfold generation_fails, generateSeamlessTexture, one_call_at_most, getClient,
    generateContent, ask, await.
  intros H. unfold mbind, Async_bind.
  destruct (apiKey w).
  - destruct (stitch_canvas _ _ n) as [canvas |].
    + destruct (respond w (length (dispatched w))) as [e | parts].
      * eexists _, _. split; [reflexivity |]. split; [discriminate |].
        cbn. rewrite length_app. cbn. lia.
      * rewrite (first_image_none parts H). unfold throw.
        eexists _, _. split; [reflexivity |]. split; [discriminate |].
        cbn. rewrite length_app. cbn. lia.
    + eexists _, _. split; [reflexivity |]. split; [discriminate | lia].
  - eexists _, _. split; [reflexivity |]. split; [discriminate | lia].
Qed.

(** The awaited image services do not touch the collaborator. *)
Ltac service_outcome :=
  match goal with
  | |- context [ImageUtils.getContentBounds ?b ?s ?cw ?chh] =>
      destruct (ImageUtils.getContentBounds b s cw chh) as [[?bounds |] | ? |]
  | |- context [ImageUtils.getCompositeRect ?b ?ev ?r ?l] =>
      destruct (ImageUtils.getCompositeRect b ev r l) as [?image | ? |]
  | |- context [ImageUtils.overlayImage ?b ?s ?o] =>
      destruct (ImageUtils.overlayImage b s o) as [?image | ? |]
  | |- context [ImageUtils.cropAndResize ?b ?s ?x ?y ?cw ?chh ?tw ?th] =>
      destruct (ImageUtils.cropAndResize b s x y cw chh tw th) as [?image | ? |]
  end.

Ltac failed_call H :=
  match goal with
  | |- context [generateMapAsset ?p ?s ?c ?w] =>
      let e := fresh "e" in
      let w' := fresh "w'" in
      let E := fresh "E" in
      let C := fresh "C" in
      destruct (generateMapAsset_fails p s c w H) as (e & w' & E & C); rewrite E
  end.

Lemma generate_fails (st : State) (w : World) :
  generation_fails w ->
  exists r w', generate st w = (r, w')
               /\ (forall g, r <> Ok g)
               /\ one_call_at_most w w'.
Proof.
  intros H.
  assert (Hquiet : one_call_at_most w w) by (unfold one_call_at_most; lia).
  unfold generate.
  destruct (present (brushMask st) && is_brush (activeTool st)); [| destruct (selection st)].
  - unfold generate_brush, getContentBounds, getCompositeRect, overlayImage, cropAndResize,
      createDifferenceLayer, throw.
    unfold mbind, Async_bind.
    repeat (first [service_outcome | failed_call H]);
      eexists _, _; (split; [reflexivity |]); (split; [discriminate | assumption]).
  - unfold generate_selection, getCompositeRect, cropAndResize, createDifferenceLayer.
    unfold mbind, Async_bind.
    repeat (first [service_outcome | failed_call H]);
      eexists _, _; (split; [reflexivity |]); (split; [discriminate | assumption]).
  - unfold generate_isolated, removeMagentaBackground.
    unfold mbind, Async_bind.
    failed_call H.
    eexists _, _; (split; [reflexivity |]); (split; [discriminate | assumption]).
Qed.

End GenerationFailure.

Section GenerationFailureAtomic.

Import GeminiService App.

(** C3.  When the call of the generation collaborator fails (it throws, or
    its response carries no image), [generateMapAsset] throws after that one
    call, and each handler that commits a generated layer
    ([handleGenerateAsset], [handleGenerateBase], [handleNavigate]) leaves
    the layer list, the history and the history cursor as they were and
    makes no second call.  In the isolated mode the handler ends with the
    error set and [isGenerating] cleared. *)
Theorem generation_failure_atomic (st : State) (w : World) :
  generation_fails w ->
  (forall prompt settings contextImage,
     exists e w', generateMapAsset prompt settings contextImage w = (Throw e, w')
                  /\ one_call_at_most w w')
  /\ (layers (fst (handleGenerateAsset st w)) = layers st
      /\ history (fst (handleGenerateAsset st w)) = history st
      /\ historyIndex (fst (handleGenerateAsset st w)) = historyIndex st
      /\ one_call_at_most w (snd (handleGenerateAsset st w)))
  /\ (layers (fst (handleGenerateBase st w)) = layers st
      /\ history (fst (handleGenerateBase st w)) = history st
      /\ historyIndex (fst (handleGenerateBase st w)) = historyIndex st
      /\ one_call_at_most w (snd (handleGenerateBase st w)))
  /\ (forall direction,
        layers (fst (handleNavigate direction st w)) = layers st
        /\ history (fst (handleNavigate direction st w)) = history st
        /\ historyIndex (fst (handleNavigate direction st w)) = historyIndex st
        /\ one_call_at_most w (snd (handleNavigate direction st w)))
  /\ (blank (prompt st) = false -> selection st = None ->
      present (brushMask st) && is_brush (activeTool st) = false ->
      exists msg, error (fst (handleGenerateAsset st w)) = Some msg
                  /\ isGenerating (fst (handleGenerateAsset st w)) = false).
Proof.
  intros H.
  assert (Hquiet : one_call_at_most w w) by (unfold one_call_at_most; lia).
  split; [intros; apply generateMapAsset_fails, H |].
  split; [| split; [| split]].
  - unfold handleGenerateAsset. destruct (blank (prompt st)); [repeat split; assumption |].
    destruct (generate_fails (setError None (setIsGenerating true st)) w H)
      as (r & w' & -> & Hr & Hc).
    destruct r as [g | e |]; [destruct (Hr g); reflexivity | |]; repeat split; assumption.
  - unfold handleGenerateBase. destruct (blank (basePrompt st)); [repeat split; assumption |].
    cbn [mapSettings basePrompt setLastBasePrompt setError setIsGenerating setIsBaseModalOpen].
    destruct (generateBaseTexture_fails (basePrompt st) (mapSettings st) w H)
      as (e & w' & -> & Hc).
    repeat split; assumption.
  - intros direction. unfold handleNavigate.
    destruct (nextGrid direction st) as [nextGridX nextGridY].
    destruct (baseExists _ _ _); [repeat split; assumption |].
    unfold collectNeighbors, strip, getCompositeRect. unfold mbind, mret, Async_bind, Async_ret.
    repeat match goal with
           | |- context [if ?b then _ else _] =>
               match b with
               | hasLeft _ _ _ => destruct b
               | hasRight _ _ _ => destruct b
               | hasTop _ _ _ => destruct b
               | hasBottom _ _ _ => destruct b
               end
           end;
      repeat match goal with
             | |- context [ImageUtils.getCompositeRect ?b ?ev ?r ?l] =>
                 destruct (ImageUtils.getCompositeRect b ev r l) as [?image | ? |]
             end;
      try (repeat split; assumption);
      match goal with
      | |- context [generateSeamlessTexture ?n ?s ?p w] =>
          destruct (generateSeamlessTexture_fails n s p w H) as (r & w' & -> & Hr & Hc);
          destruct r as [url | e |]; [destruct (Hr url); reflexivity | |];
          repeat split; assumption
      end.
  - intros Hp Hs Hb. unfold handleGenerateAsset. rewrite Hp.
    unfold generate.
    cbn [brushMask activeTool selection prompt mapSettings setError setIsGenerating].
    rewrite Hb, Hs. unfold generate_isolated, removeMagentaBackground.
    cbn [brushMask activeTool selection prompt mapSettings setError setIsGenerating].
    unfold mbind, Async_bind.
    destruct (generateMapAsset_fails (prompt st) (mapSettings st) None w H)
      as (e & w' & -> & _).
    eexists. split; reflexivity.
Qed.

(** The theorem for the mounted component with a prompt typed in and a
    collaborator that answers with an error: the error is shown and the
    scene of the bootstrap is still the only entry of the history. *)
Lemma generation_failure_atomic_witness :
  layers (fst (handleGenerateAsset Samples.prompted Samples.failing))
    = layers Samples.prompted
  /\ history (fst (handleGenerateAsset Samples.prompted Samples.failing))
     = [layers Samples.prompted]
  /\ historyIndex (fst (handleGenerateAsset Samples.prompted Samples.failing)) = 0
  /\ error (fst (handleGenerateAsset Samples.prompted Samples.failing))
     = Some "503 Service Unavailable"
  /\ length (dispatched (snd (handleGenerateAsset Samples.prompted Samples.failing))) = 1%nat.
Proof.
  destruct (generation_failure_atomic Samples.prompted Samples.failing I)
    as (_ & (HL & HH & HI & _) & _).
  split; [exact HL |]. split; [rewrite HH; reflexivity |]. split; [rewrite HI; reflexivity |].
  split; reflexivity.
Defined.

(** The collaborator answering: navigating to the right of the bootstrap
    tile appends a base layer at (1024, 0) of size 1024 x 1024 and z-order
    0, with one more history entry and the cursor on it. *)
Example navigate_right_commits :
  let st := fst (handleNavigate dirRight (mount initial Samples.answering) Samples.answering) in
  (MapLayer.id <$> layers st) = ["layer-base-0-0"; "layer-base-1-0"]
  /\ (MapLayer.x <$> layers st) = [0%Q; inject_Z 1024]
  /\ (MapLayer.zIndex <$> layers st) = [0; 0]
  /\ length (history st) = 2%nat /\ historyIndex st = 1
  /\ entry (history st) 1 = Some (layers st).
Proof. repeat split. Qed.

End GenerationFailureAtomic.

(** ** The z-order sort *)

Section SortLayers.

Import ImageUtils.

Lemma insert_layer_elem (a x : MapLayer.t) (l : list MapLayer.t) :
  x ∈ insert_layer a l <-> x = a \/ x ∈ l.
Proof.
  induction l as [| b l IH]; cbn [insert_layer].
  - rewrite elem_of_cons. split; [intros [H | H]; [auto | inversion H] | intros [H | H]; [auto | inversion H]].
  - destruct (compare_zIndex a b <=? 0).
    + rewrite elem_of_cons. reflexivity.
    + rewrite !elem_of_cons, IH. tauto.
Qed.

Lemma insert_layer_sorted (a : MapLayer.t) (l : list MapLayer.t) :
  StronglySorted below_or_level l -> StronglySorted below_or_level (insert_layer a l).
Proof.
  induction l as [| b l IH]; intros Hs; cbn [insert_layer].
  - repeat constructor.
  - apply StronglySorted_cons in Hs as [Hb Hs].
    destruct (compare_zIndex a b <=? 0) eqn:E.
    + apply Z.leb_le in E. unfold compare_zIndex in E.
      apply StronglySorted_cons. split.
      * apply Forall_cons. split; [unfold below_or_level; lia |].
        eapply Forall_impl; [exact Hb |]. unfold below_or_level. intros x Hx. lia.
      * apply StronglySorted_cons. auto.
    + apply Z.leb_gt in E. unfold compare_zIndex in E.
      apply StronglySorted_cons. split; [| apply IH, Hs].
      apply Forall_forall. intros x Hx. apply insert_layer_elem in Hx as [-> | Hx].
      * unfold below_or_level. lia.
      * rewrite Forall_forall in Hb. apply Hb, Hx.
Qed.

(** The result is in ascending z-order ... *)
Lemma sort_layers_sorted (l : list MapLayer.t) :
  StronglySorted below_or_level (sort_layers l).
Proof.
  induction l as [| a l IH]; [constructor |].
  cbn [sort_layers foldr]. apply insert_layer_sorted, IH.
Qed.

Lemma insert_layer_perm (a : MapLayer.t) (l : list MapLayer.t) :
  insert_layer a l ≡ₚ a :: l.
Proof.
  induction l as [| b l IH]; cbn [insert_layer]; [reflexivity |].
  destruct (compare_zIndex a b <=? 0); [reflexivity |].
  rewrite IH. apply Permutation_swap.
Qed.

(** ... holds the same layers ... *)
Lemma sort_layers_perm (l : list MapLayer.t) : sort_layers l ≡ₚ l.
Proof.
  induction l as [| a l IH]; [reflexivity |].
  cbn [sort_layers foldr]. rewrite insert_layer_perm. apply Permutation_skip, IH.
Qed.

Lemma insert_layer_level (k : Z) (a : MapLayer.t) (l : list MapLayer.t) :
  filter (fun x => MapLayer.zIndex x = k) (insert_layer a l)
  = filter (fun x => MapLayer.zIndex x = k) (a :: l).
Proof.
  induction l as [| b l IH]; cbn [insert_layer]; [reflexivity |].
  destruct (compare_zIndex a b <=? 0) eqn:E; [reflexivity |].
  apply Z.leb_gt in E. unfold compare_zIndex in E.
  rewrite (filter_cons _ b), IH, !(filter_cons _ a), (filter_cons _ b).
  destruct (decide (MapLayer.zIndex b = k)), (decide (MapLayer.zIndex a = k));
    try reflexivity; lia.
Qed.

(** ... and keeps layers of equal z-order in the order of the sequence
    (the sort is stable). *)
Lemma sort_layers_stable (k : Z) (l : list MapLayer.t) :
  filter (fun x => MapLayer.zIndex x = k) (sort_layers l)
  = filter (fun x => MapLayer.zIndex x = k) l.
Proof.
  induction l as [| a l IH]; [reflexivity |].
  change (sort_layers (a :: l)) with (insert_layer a (sort_layers l)).
  rewrite insert_layer_level, !filter_cons, IH. reflexivity.
Qed.

Lemma insert_layer_front (a : MapLayer.t) (l : list MapLayer.t) :
  Forall (below_or_level a) l -> insert_layer a l = a :: l.
Proof.
  destruct l as [| b l]; [reflexivity |].
  intros H. apply Forall_cons in H as [Hb _]. cbn [insert_layer].
  unfold below_or_level in Hb. unfold compare_zIndex.
  destruct (_ <=? 0) eqn:E; [reflexivity | apply Z.leb_gt in E; lia].
Qed.

Lemma insert_layer_filter (P : MapLayer.t -> Prop) `{!forall x, Decision (P x)}
    (a : MapLayer.t) (l : list MapLayer.t) :
  StronglySorted below_or_level l ->
  filter P (insert_layer a l)
  = if decide (P a) then insert_layer a (filter P l) else filter P l.
Proof.
  induction l as [| b l IH]; intros Hs.
  - cbn [insert_layer]. rewrite filter_cons, filter_nil.
    destruct (decide (P a)); reflexivity.
  - apply StronglySorted_cons in Hs as [Hb Hs]. cbn [insert_layer].
    destruct (compare_zIndex a b <=? 0) eqn:E.
    + apply Z.leb_le in E. unfold compare_zIndex in E.
      rewrite (filter_cons _ a). destruct (decide (P a)); [| reflexivity].
      rewrite insert_layer_front; [reflexivity |].
      apply Forall_forall. intros x Hx. apply list_elem_of_filter in Hx as [_ Hx].
      apply elem_of_cons in Hx as [-> | Hx]; [unfold below_or_level; lia |].
      rewrite Forall_forall in Hb. specialize (Hb x Hx). unfold below_or_level in *. lia.
    + rewrite (filter_cons _ b), (IH Hs), (filter_cons _ b).
      destruct (decide (P a)), (decide (P b)); try reflexivity.
      cbn [insert_layer]. rewrite E. reflexivity.
Qed.

(** Sorting and dropping the hidden layers commute: [getCompositeRect]
    (sort, then filter) and [compositeLayers] (filter, then sort) request
    the same layers in the same order. *)
Lemma requests_agree (layers : list MapLayer.t) :
  compositeRect_requests layers = compositeLayers_requests layers.
Proof.
  unfold compositeRect_requests, compositeLayers_requests.
  induction layers as [| a l IH]; [reflexivity |].
  change (sort_layers (a :: l)) with (insert_layer a (sort_layers l)).
  rewrite insert_layer_filter by apply sort_layers_sorted.
  rewrite IH, filter_cons.
  destruct (decide (MapLayer.visible a = true)); reflexivity.
Qed.

Lemma sorted_lookup (l : list MapLayer.t) (i j : nat) (a b : MapLayer.t) :
  StronglySorted below_or_level l ->
  l !! i = Some a -> l !! j = Some b -> (i < j)%nat -> below_or_level a b.
Proof.
  revert i j. induction l as [| x l IH]; intros i j Hs Hi Hj Hlt; [discriminate |].
  apply StronglySorted_cons in Hs as [Hx Hs].
  destruct j as [| j]; [lia |]. cbn in Hj.
  destruct i as [| i]; cbn in Hi.
  - injection Hi as ->. rewrite Forall_forall in Hx. apply Hx.
    eapply list_elem_of_lookup_2, Hj.
  - eapply IH; eauto. lia.
Qed.

Lemma filter_sorted (P : MapLayer.t -> Prop) `{!forall x, Decision (P x)}
    (l : list MapLayer.t) :
  StronglySorted below_or_level l -> StronglySorted below_or_level (filter P l).
Proof.
  induction l as [| x l IH]; intros Hs; [constructor |].
  apply StronglySorted_cons in Hs as [Hx Hs]. rewrite filter_cons.
  destruct (decide (P x)); [| apply IH, Hs].
  apply StronglySorted_cons. split; [| apply IH, Hs].
  apply Forall_forall. intros y Hy. apply list_elem_of_filter in Hy as [_ Hy].
  rewrite Forall_forall in Hx. apply Hx, Hy.
Qed.

(** The request order of the compositor: ascending z-order, the visible
    layers and only them. *)
Lemma requests_sorted (layers : list MapLayer.t) :
  StronglySorted below_or_level (compositeRect_requests layers).
Proof. apply filter_sorted, sort_layers_sorted. Qed.

Lemma requests_elem (layers : list MapLayer.t) (x : MapLayer.t) :
  x ∈ compositeRect_requests layers <-> MapLayer.visible x = true /\ x ∈ layers.
Proof.
  unfold compositeRect_requests. rewrite list_elem_of_filter, sort_layers_perm. reflexivity.
Qed.

End SortLayers.

(** ** The z-order of base and object layers *)

Section ZOrder.

Import App.

(** How the layers are constructed. *)
Lemma constructed_layers :
  (forall br, MapLayer.type (bootstrap_layer br) = base
              /\ MapLayer.zIndex (bootstrap_layer br) = 0)
  /\ (forall gx gy image, MapLayer.type (navigate_layer gx gy image) = base
                          /\ MapLayer.zIndex (navigate_layer gx gy image) = 0)
  /\ (forall sx sy p image w, MapLayer.type (base_layer sx sy p image w) = base
                              /\ MapLayer.zIndex (base_layer sx sy p image w) = 0)
  /\ (forall st w g, MapLayer.type (asset_layer st w g) = object
                     /\ MapLayer.zIndex (asset_layer st w g)
                        = Z.of_nat (length (layers st)) + 10
                     /\ 10 <= MapLayer.zIndex (asset_layer st w g)).
Proof.
  repeat split; cbn; lia.
Qed.

Lemma addToHistory_ok (scene : list MapLayer.t) (st : State) :
  scene_ok scene -> state_ok st -> state_ok (addToHistory scene st).
Proof.
  intros Hscene [Hl Hh Hc]. split.
  - exact Hscene.
  - rewrite addToHistory_history, slice0_take by lia.
    apply Forall_app. split; [apply Forall_take, Hh | repeat constructor; exact Hscene].
  - destruct (addToHistory_cursor scene st) as [-> _].
    rewrite addToHistory_history, length_app. cbn [length]. lia.
Qed.

Lemma entry_ok (h : list (list MapLayer.t)) (i : Z) (scene : list MapLayer.t) :
  Forall scene_ok h -> entry h i = Some scene -> scene_ok scene.
Proof.
  unfold entry. destruct (i <? 0); [discriminate |].
  intros Hh Hi. eapply Forall_lookup_1; eauto.
Qed.

Lemma handleUndo_ok (st st' : State) :
  state_ok st -> handleUndo st = Some st' -> state_ok st'.
Proof.
  intros [Hl Hh Hc]. unfold handleUndo.
  destruct (0 <? historyIndex st) eqn:E; [| intros [= <-]; split; assumption].
  apply Z.ltb_lt in E.
  destruct (entry (history st) (historyIndex st - 1)) as [scene |] eqn:He; [| discriminate].
  cbn. intros [= <-]. split; cbn.
  - eapply entry_ok; eauto.
  - exact Hh.
  - lia.
Qed.

Lemma handleRedo_ok (st st' : State) :
  state_ok st -> handleRedo st = Some st' -> state_ok st'.
Proof.
  intros [Hl Hh Hc]. unfold handleRedo.
  destruct (_ <? _) eqn:E; [| intros [= <-]; split; assumption].
  apply Z.ltb_lt in E.
  destruct (entry (history st) (historyIndex st + 1)) as [scene |] eqn:He; [| discriminate].
  cbn. intros [= <-]. split; cbn.
  - eapply entry_ok; eauto.
  - exact Hh.
  - lia.
Qed.

(** Changes that leave the scenes and the cursor alone. *)
Lemma state_ok_same (st st' : State) :
  layers st' = layers st -> history st' = history st -> historyIndex st' = historyIndex st ->
  state_ok st -> state_ok st'.
Proof.
  intros El Eh Ei [Hl Hh Hc]. split; rewrite ?El, ?Eh, ?Ei; assumption.
Qed.

Lemma handleNavigate_ok (direction : Direction) (st : State) (w : World) :
  state_ok st -> state_ok (fst (handleNavigate direction st w)).
Proof.
  intros Hok. unfold handleNavigate.
  destruct (nextGrid direction st) as [gx gy].
  destruct (baseExists _ _ _); [eapply state_ok_same; [.. | exact Hok]; reflexivity |].
  match goal with |- context [match ?t w with _ => _ end] => destruct (t w) as [[url | e |] w'] end.
  - cbn [fst]. eapply state_ok_same with (st := addToHistory _ _); [reflexivity .. |].
    apply addToHistory_ok.
    + apply Forall_app. split; [apply Hok |].
      repeat constructor.
    + eapply state_ok_same; [.. | exact Hok]; reflexivity.
  - eapply state_ok_same; [.. | exact Hok]; reflexivity.
  - eapply state_ok_same; [.. | exact Hok]; reflexivity.
Qed.

Lemma handleGenerateAsset_ok (st : State) (w : World) :
  state_ok st -> state_ok (fst (handleGenerateAsset st w)).
Proof.
  intros Hok. unfold handleGenerateAsset.
  destruct (blank (prompt st)); [exact Hok |].
  destruct (generate _ w) as [[g | e |] w'].
  - cbn [fst].
    eapply state_ok_same with
      (st := addToHistory _ (if clearBrush g
                             then setBrushMask None (setError None (setIsGenerating true st))
                             else setError None (setIsGenerating true st)));
      [reflexivity .. |].
    apply addToHistory_ok.
    + apply Forall_app. split; [apply Hok |].
      repeat constructor. unfold layer_ok. cbn. lia.
    + destruct (clearBrush g); (eapply state_ok_same; [.. | exact Hok]; reflexivity).
  - eapply state_ok_same; [.. | exact Hok]; reflexivity.
  - eapply state_ok_same; [.. | exact Hok]; reflexivity.
Qed.

Lemma filter_ok (P : MapLayer.t -> Prop) `{!forall x, Decision (P x)} (scene : list MapLayer.t) :
  scene_ok scene -> scene_ok (filter P scene).
Proof.
  unfold scene_ok. rewrite !Forall_forall. intros Hs x Hx.
  apply list_elem_of_filter in Hx as [_ Hx]. apply Hs, Hx.
Qed.

Lemma handleGenerateBase_ok (st : State) (w : World) :
  state_ok st -> state_ok (fst (handleGenerateBase st w)).
Proof.
  intros Hok. unfold handleGenerateBase.
  destruct (blank (basePrompt st)); [exact Hok |].
  destruct (GeminiService.generateBaseTexture _ _ w) as [[image | e |] w'].
  - cbn [fst]. eapply state_ok_same with (st := addToHistory _ _); [reflexivity .. |].
    apply addToHistory_ok.
    + apply Forall_cons. split; [reflexivity |]. apply filter_ok, Hok.
    + eapply state_ok_same; [.. | exact Hok]; reflexivity.
  - eapply state_ok_same; [.. | exact Hok]; reflexivity.
  - eapply state_ok_same; [.. | exact Hok]; reflexivity.
Qed.

Lemma fmap_ok (f : MapLayer.t -> MapLayer.t) (scene : list MapLayer.t) :
  (forall l, MapLayer.type (f l) = MapLayer.type l /\ MapLayer.zIndex (f l) = MapLayer.zIndex l) ->
  scene_ok scene -> scene_ok (f <$> scene).
Proof.
  intros Hf. unfold scene_ok. rewrite Forall_fmap. intros Hs.
  eapply Forall_impl; [exact Hs |].
  intros l Hl. unfold layer_ok, compose in *. destruct (Hf l) as [-> ->]. exact Hl.
Qed.

(** Every event keeps the invariant. *)
Lemma handle_ok (ev : Event) (st st' : State) (w w' : World) :
  state_ok st -> handle ev st w = Some (st', w') -> state_ok st'.
Proof.
  intros Hok. destruct ev; cbn [handle].
  - destruct (handleUndo st) as [s |] eqn:E; [| discriminate].
    cbn. intros [= <- _]. eapply handleUndo_ok; eauto.
  - destruct (handleRedo st) as [s |] eqn:E; [| discriminate].
    cbn. intros [= <- _]. eapply handleRedo_ok; eauto.
  - intros [= <- _]. eapply state_ok_same; [.. | exact Hok]; destruct tool; reflexivity.
  - intros [= Hev]. replace st' with (fst (handleNavigate direction st w)) by (rewrite Hev; reflexivity).
    apply handleNavigate_ok, Hok.
  - intros [= Hev]. replace st' with (fst (handleGenerateAsset st w)) by (rewrite Hev; reflexivity).
    apply handleGenerateAsset_ok, Hok.
  - intros [= Hev]. replace st' with (fst (handleGenerateBase st w)) by (rewrite Hev; reflexivity).
    apply handleGenerateBase_ok, Hok.
  - intros [= <- _]. unfold handleDeleteLayer.
    eapply state_ok_same with (st := addToHistory _ st);
      [destruct (decide _); reflexivity .. |].
    apply addToHistory_ok; [apply filter_ok, Hok | exact Hok].
  - intros [= <- _]. unfold handleToggleVisibility.
    apply addToHistory_ok; [| exact Hok]. apply fmap_ok; [| apply Hok].
    intros l. destruct (String.eqb _ _); split; reflexivity.
  - intros [= <- _]. unfold updateLayerPosition. destruct Hok as [Hl Hh Hc].
    split; [| exact Hh | exact Hc]. cbn [layers setLayers]. apply fmap_ok; [| exact Hl].
    intros l. destruct (String.eqb _ _); split; reflexivity.
  - intros [= <- _]. unfold handleMoveEnd. apply addToHistory_ok; [apply Hok | exact Hok].
  - intros [= <- _]. unfold updateLayerData.
    apply addToHistory_ok; [| exact Hok]. apply fmap_ok; [| apply Hok].
    intros l. destruct (String.eqb _ _); split; reflexivity.
  - intros [= <- _]. eapply state_ok_same; [.. | exact Hok]; reflexivity.
  - intros [= <- _]. eapply state_ok_same; [.. | exact Hok]; reflexivity.
  - intros [= <- _]. eapply state_ok_same; [.. | exact Hok]; reflexivity.
  - intros [= <- _]. eapply state_ok_same; [.. | exact Hok]; reflexivity.
  - intros [= <- _]. eapply state_ok_same; [.. | exact Hok]; reflexivity.
  - intros [= <- _]. eapply state_ok_same; [.. | exact Hok]; reflexivity.
  - intros [= <- _]. eapply state_ok_same; [.. | exact Hok]; reflexivity.
  - intros [= <- _]. eapply state_ok_same; [.. | exact Hok]; reflexivity.
  - intros [= <- _]. eapply state_ok_same; [.. | exact Hok]; reflexivity.
Qed.

Lemma reachable_ok (st : State) : reachable st -> state_ok st.
Proof.
  induction 1 as [w | ev st st' w w' _ IH Hev].
  - split; cbn.
    + repeat constructor.
    + repeat constructor.
    + lia.
  - eapply handle_ok; eauto.
Qed.

End ZOrder.

Section ZOrderInvariant.

Import App.

Lemma scene_of_state_ok (st : State) (scene : list MapLayer.t) :
  state_ok st -> scene ∈ layers st :: history st -> scene_ok scene.
Proof.
  intros [Hl Hh _] Hin. apply elem_of_cons in Hin as [-> | Hin]; [exact Hl |].
  rewrite Forall_forall in Hh. apply Hh, Hin.
Qed.

Lemma base_before_object (requests : list MapLayer.t) (i j : nat) (b o : MapLayer.t) :
  StronglySorted below_or_level requests -> scene_ok requests ->
  requests !! i = Some b -> requests !! j = Some o ->
  MapLayer.type b = base -> MapLayer.type o = object -> (i < j)%nat.
Proof.
  intros Hs Hok Hi Hj Hb Ho.
  pose proof (Forall_lookup_1 _ _ _ _ Hok Hi) as Kb.
  pose proof (Forall_lookup_1 _ _ _ _ Hok Hj) as Ko.
  unfold layer_ok in Kb, Ko. rewrite Hb in Kb. rewrite Ho in Ko.
  destruct (lt_eq_lt_dec i j) as [[Hlt | ->] | Hgt]; [exact Hlt | |].
  - rewrite Hi in Hj. injection Hj as ->. congruence.
  - pose proof (sorted_lookup requests j i o b Hs Hj Hi Hgt) as Hle.
    unfold below_or_level in Hle. lia.
Qed.

(** The z-order the layers are given.  Every base layer is constructed with
    z-order 0 and every object
    layer with z-order [layers.length + 10], which is at least 10.  In every
    scene the component reaches, current or kept in the history, every
    object layer has a strictly greater z-order than every base layer, and
    in the z-sorted sequence in which the compositor takes the visible
    layers every base layer comes before every object layer. *)
Theorem object_layers_above_base (st : State) :
  reachable st ->
  ((forall br, MapLayer.type (bootstrap_layer br) = base
               /\ MapLayer.zIndex (bootstrap_layer br) = 0)
   /\ (forall gx gy image, MapLayer.type (navigate_layer gx gy image) = base
                           /\ MapLayer.zIndex (navigate_layer gx gy image) = 0)
   /\ (forall sx sy p image w, MapLayer.type (base_layer sx sy p image w) = base
                               /\ MapLayer.zIndex (base_layer sx sy p image w) = 0)
   /\ (forall s w g, MapLayer.type (asset_layer s w g) = object
                     /\ MapLayer.zIndex (asset_layer s w g) = Z.of_nat (length (layers s)) + 10
                     /\ 10 <= MapLayer.zIndex (asset_layer s w g)))
  /\ (forall scene, scene ∈ layers st :: history st ->
        (forall b o, b ∈ scene -> o ∈ scene ->
           MapLayer.type b = base -> MapLayer.type o = object ->
           MapLayer.zIndex b = 0 /\ 10 <= MapLayer.zIndex o
           /\ MapLayer.zIndex b < MapLayer.zIndex o)
        /\ (forall i j b o,
              ImageUtils.compositeRect_requests scene !! i = Some b ->
              ImageUtils.compositeRect_requests scene !! j = Some o ->
              MapLayer.type b = base -> MapLayer.type o = object -> (i < j)%nat)
        /\ (forall i j b o,
              ImageUtils.compositeLayers_requests scene !! i = Some b ->
              ImageUtils.compositeLayers_requests scene !! j = Some o ->
              MapLayer.type b = base -> MapLayer.type o = object -> (i < j)%nat)).
Proof.
  intros Hr. split; [exact constructed_layers |].
  intros scene Hin.
  pose proof (scene_of_state_ok st scene (reachable_ok st Hr) Hin) as Hok.
  assert (Hreq : forall i j b o,
            ImageUtils.compositeRect_requests scene !! i = Some b ->
            ImageUtils.compositeRect_requests scene !! j = Some o ->
            MapLayer.type b = base -> MapLayer.type o = object -> (i < j)%nat).
  { intros i j b o. apply base_before_object; [apply requests_sorted |].
    apply Forall_forall. intros x Hx. apply requests_elem in Hx as [_ Hx].
    unfold scene_ok in Hok. rewrite Forall_forall in Hok. apply Hok, Hx. }
  split; [| split].
  - intros b o Hb Ho Tb To. unfold scene_ok in Hok. rewrite Forall_forall in Hok.
    pose proof (Hok b Hb) as Kb. pose proof (Hok o Ho) as Ko.
    unfold layer_ok in Kb, Ko. rewrite Tb in Kb. rewrite To in Ko. lia.
  - exact Hreq.
  - rewrite <- requests_agree. exact Hreq.
Qed.

Lemma withObject_reachable : reachable Samples.withObject.
Proof.
  apply (reach_event GenerateAsset Samples.prompted _ Samples.answering
           (snd (handleGenerateAsset Samples.prompted Samples.answering))).
  - apply (reach_event (SetPrompt "a watch tower") (mount initial Samples.failing) _
             Samples.failing Samples.failing).
    + apply reach_mount.
    + reflexivity.
  - cbn [handle]. unfold Samples.withObject.
    destruct (handleGenerateAsset Samples.prompted Samples.answering). reflexivity.
Qed.

(** The theorem for the component after one asset has been generated on
    the bootstrap tile: a base layer at z-order 0 below an object layer at
    z-order 11. *)
Lemma object_layers_above_base_witness :
  (MapLayer.type <$> layers Samples.withObject) = [base; object]
  /\ (MapLayer.zIndex <$> layers Samples.withObject) = [0; 11]
  /\ forall b o, b ∈ layers Samples.withObject -> o ∈ layers Samples.withObject ->
       MapLayer.type b = base -> MapLayer.type o = object ->
       MapLayer.zIndex b < MapLayer.zIndex o.
Proof.
  split; [reflexivity |]. split; [reflexivity |].
  intros b o Hb Ho Tb To.
  destruct (object_layers_above_base Samples.withObject withObject_reachable) as [_ H].
  destruct (H (layers Samples.withObject)) as [Hz _].
  { apply elem_of_cons. left. reflexivity. }
  destruct (Hz b o Hb Ho Tb To) as (_ & _ & Hlt). exact Hlt.
Defined.

End ZOrderInvariant.

(** ** The region compositor *)

Section Compositor.

Import ImageUtils.

Variable br : Browser.

Lemma settle_paint (draw : MapLayer.t -> Raster -> Canvas.t -> Canvas.t)
    (requests : list MapLayer.t) (c : Canvas.t) (k : nat) (layer : MapLayer.t) :
  requests !! k = Some layer -> settle br draw requests c k = paint br draw c layer.
Proof. intros H. unfold settle, paint. rewrite H. reflexivity. Qed.

(** Events in request order: the layers are painted one after another, in
    the order of the request sequence. *)
Lemma settle_all_suffix (draw : MapLayer.t -> Raster -> Canvas.t -> Canvas.t)
    (pre rest : list MapLayer.t) (c : Canvas.t) :
  rest <> [] ->
  settle_all br draw (pre ++ rest) (length pre) c (seq (length pre) (length rest))
  = Some (foldl (paint br draw) c rest).
Proof.
  revert pre c. induction rest as [| layer rest IH]; intros pre c Hne; [congruence |].
  cbn [length seq settle_all foldl].
  rewrite (settle_paint draw (pre ++ layer :: rest) c (length pre) layer)
    by (rewrite lookup_app_r by lia; rewrite Nat.sub_diag; reflexivity).
  destruct rest as [| layer' rest].
  - rewrite length_app. cbn [length].
    replace (S (length pre) =? length pre + 1)%nat with true
      by (symmetry; apply Nat.eqb_eq; lia).
    reflexivity.
  - rewrite length_app. cbn [length].
    replace (S (length pre) =? length pre + S (S (length rest)))%nat with false
      by (symmetry; apply Nat.eqb_neq; lia).
    specialize (IH (pre ++ [layer]) (paint br draw c layer) ltac:(discriminate)).
    rewrite <- app_assoc, length_app in IH. cbn [length app] in IH.
    replace (length pre + 1)%nat with (S (length pre)) in IH by lia.
    exact IH.
Qed.

Lemma settle_all_in_order (draw : MapLayer.t -> Raster -> Canvas.t -> Canvas.t)
    (requests : list MapLayer.t) (c : Canvas.t) :
  requests <> [] ->
  settle_all br draw requests 0 c (in_order requests) = Some (foldl (paint br draw) c requests).
Proof. intros Hne. exact (settle_all_suffix draw [] requests c Hne). Qed.

(** Events in any order, one per request: the promise resolves at the last
    one, and the layers have been painted in the order of the events. *)
Lemma settle_all_events (draw : MapLayer.t -> Raster -> Canvas.t -> Canvas.t)
    (requests : list MapLayer.t) (events : list nat) (loadedCount : nat) (c : Canvas.t) :
  events <> [] -> (loadedCount + length events = length requests)%nat ->
  settle_all br draw requests loadedCount c events
  = Some (foldl (settle br draw requests) c events).
Proof.
  revert loadedCount c. induction events as [| e events IH]; intros loadedCount c Hne Hlen;
    [congruence |].
  cbn [settle_all foldl length] in *.
  destruct events as [| e' events].
  - cbn [length] in Hlen.
    replace (S loadedCount =? length requests)%nat with true
      by (symmetry; apply Nat.eqb_eq; lia).
    reflexivity.
  - cbn [length] in Hlen.
    replace (S loadedCount =? length requests)%nat with false
      by (symmetry; apply Nat.eqb_neq; lia).
    apply IH; [discriminate | cbn [length]; lia].
Qed.

(** Painting keeps the size of the canvas. *)
Lemma paint_inside (ox oy : Q) (c : Canvas.t) (layer : MapLayer.t) (i j : Z) :
  Canvas.inside (paint br (drawLayer ox oy) c layer) i j = Canvas.inside c i j.
Proof. unfold paint. destruct (decode br _); reflexivity. Qed.

Lemma paint_px (ox oy : Q) (c : Canvas.t) (layer : MapLayer.t) (i j : Z) :
  Canvas.px (paint br (drawLayer ox oy) c layer) i j
  = if Canvas.inside c i j
    then match shows br ox oy layer i j with
         | Some s => over s (Canvas.px c i j)
         | None => Canvas.px c i j
         end
    else Canvas.px c i j.
Proof.
  unfold paint, shows. destruct (decode br _) as [img |]; [reflexivity |].
  destruct (Canvas.inside c i j); reflexivity.
Qed.

Lemma paint_through (ox oy : Q) (later : list MapLayer.t) (c : Canvas.t) (i j : Z) :
  Forall (lets_through br ox oy i j) later ->
  Canvas.px (foldl (paint br (drawLayer ox oy)) c later) i j = Canvas.px c i j.
Proof.
  revert c. induction later as [| layer later IH]; intros c Hl; [reflexivity |].
  apply Forall_cons in Hl as [Hlayer Hl]. cbn [foldl]. rewrite (IH _ Hl), paint_px.
  destruct (Canvas.inside c i j); [| reflexivity].
  unfold lets_through in Hlayer. destruct (shows br ox oy layer i j) as [s |]; [| reflexivity].
  unfold over. rewrite Hlayer. reflexivity.
Qed.

Lemma foldl_paint_inside (ox oy : Q) (ls : list MapLayer.t) (c : Canvas.t) (i j : Z) :
  Canvas.inside (foldl (paint br (drawLayer ox oy)) c ls) i j = Canvas.inside c i j.
Proof.
  revert c. induction ls as [| layer ls IH]; intros c; [reflexivity |].
  cbn [foldl]. rewrite IH. apply paint_inside.
Qed.

(** Painted in sequence, the opaque pixel of a layer stays on the canvas
    unless a layer painted later covers it. *)
Lemma opaque_pixel_wins (ox oy : Q) (earlier later : list MapLayer.t) (layer : MapLayer.t)
    (c : Canvas.t) (i j : Z) (p : Pixel) :
  Canvas.inside c i j = true ->
  shows br ox oy layer i j = Some p -> A p = 255 ->
  Forall (lets_through br ox oy i j) later ->
  Canvas.px (foldl (paint br (drawLayer ox oy)) c (earlier ++ layer :: later)) i j = p.
Proof.
  intros Hin Hp Ha Hl. rewrite foldl_app. cbn [foldl].
  rewrite (paint_through ox oy later _ i j Hl), paint_px, foldl_paint_inside, Hin, Hp.
  unfold over. rewrite Ha. reflexivity.
Qed.

End Compositor.

Section CompositorOrder.

Import ImageUtils.

Lemma compositeRect_in_order (br : Browser) (rect : Rect.t) (layers : list MapLayer.t) :
  compositeRect_canvas br (in_order (compositeRect_requests layers)) rect layers
  = Some (foldl (paint br (drawLayer (Rect.x rect) (Rect.y rect))) (backdrop rect)
                (compositeRect_requests layers)).
Proof.
  unfold compositeRect_canvas. fold (backdrop rect).
  destruct (compositeRect_requests layers) as [| layer requests] eqn:E; [reflexivity |].
  cbn [length Nat.eqb]. apply settle_all_in_order. discriminate.
Qed.

(** For every order of the load events, [getCompositeRect] resolves with
    the layers painted in the order of the events. *)
Lemma compositeRect_any_order (br : Browser) (events : list nat) (rect : Rect.t)
    (layers : list MapLayer.t) :
  schedule (compositeRect_requests layers) events ->
  compositeRect_canvas br events rect layers
  = Some (foldl (settle br (drawLayer (Rect.x rect) (Rect.y rect))
                        (compositeRect_requests layers))
                (backdrop rect) events).
Proof.
  unfold schedule, in_order, compositeRect_canvas. fold (backdrop rect). intros Hperm.
  pose proof (Permutation_length Hperm) as Hlen. rewrite length_seq in Hlen.
  destruct (compositeRect_requests layers) as [| layer requests] eqn:E.
  - cbn [length Nat.eqb]. destruct events; [reflexivity | discriminate].
  - cbn [length Nat.eqb]. apply settle_all_events.
    + destruct events; [discriminate | discriminate].
    + cbn [length] in *. lia.
Qed.

(** X12.  The request sequence of the compositor and what it paints when the
    images load in the order they were requested: the visible layers in
    ascending z-order, layers of equal z-order in the order of the scene
    (for both [getCompositeRect] and [compositeLayers]); painted in that
    order, an opaque pixel of a layer is what the canvas shows unless a
    layer later in the request sequence covers it. *)
Theorem compositor_in_request_order (br : Browser) (rect : Rect.t) (layers : list MapLayer.t) :
  StronglySorted below_or_level (compositeRect_requests layers)
  /\ (forall x, x ∈ compositeRect_requests layers <-> MapLayer.visible x = true /\ x ∈ layers)
  /\ (forall k, filter (fun x => MapLayer.zIndex x = k) (compositeRect_requests layers)
                = filter (fun x => MapLayer.zIndex x = k)
                         (filter (fun x => MapLayer.visible x = true) layers))
  /\ compositeLayers_requests layers = compositeRect_requests layers
  /\ (forall earlier later layer i j p,
        compositeRect_requests layers = earlier ++ layer :: later ->
        Canvas.inside (backdrop rect) i j = true ->
        shows br (Rect.x rect) (Rect.y rect) layer i j = Some p -> A p = 255 ->
        Forall (lets_through br (Rect.x rect) (Rect.y rect) i j) later ->
        exists c, compositeRect_canvas br (in_order (compositeRect_requests layers)) rect layers
                  = Some c
                  /\ Canvas.px c i j = p)
  /\ (forall a b, MapLayer.visible a = true -> MapLayer.visible b = true ->
        compositeRect_requests [a; b]
        = if MapLayer.zIndex a <=? MapLayer.zIndex b then [a; b] else [b; a]).
Proof.
  split; [apply requests_sorted |]. split; [apply requests_elem |].
  split; [| split; [| split]].
  - intros k. rewrite requests_agree. apply sort_layers_stable.
  - symmetry. apply requests_agree.
  - intros earlier later layer i j p E Hin Hp Ha Hl.
    eexists. split; [apply compositeRect_in_order |].
    rewrite E. apply opaque_pixel_wins; assumption.
  - intros a b Ha Hb. unfold compositeRect_requests.
    cbn [sort_layers foldr insert_layer]. unfold compare_zIndex.
    replace (MapLayer.zIndex a - MapLayer.zIndex b <=? 0)
      with (MapLayer.zIndex a <=? MapLayer.zIndex b)
      by (destruct (Z.leb_spec (MapLayer.zIndex a) (MapLayer.zIndex b)),
                   (Z.leb_spec (MapLayer.zIndex a - MapLayer.zIndex b) 0); lia || reflexivity).
    destruct (_ <=? _); rewrite !filter_cons, filter_nil;
      destruct (decide (MapLayer.visible a = true)), (decide (MapLayer.visible b = true));
      congruence.
Qed.

(** Two overlapping opaque pixels of equal z-order, images loading in
    request order: the later one in the scene is shown. *)
Example equal_z_later_wins :
  compositeRect_requests [Samples.redLayer; Samples.blueLevel]
    = [Samples.redLayer; Samples.blueLevel]
  /\ (fun c => Canvas.px c 0 0)
       <$> compositeRect_canvas Samples.images [0; 1]%nat Samples.unit_rect
             [Samples.redLayer; Samples.blueLevel]
     = Some Samples.blue.
Proof. split; reflexivity. Qed.

(** C1 on the code.  [getCompositeRect] and [compositeLayers] draw each
    layer from the [onload] handler of its image, so the layers are
    composited in the order their images finish loading.  For a red pixel at
    z-order 0 and a blue pixel at z-order 1 on the same spot, the images are
    requested in ascending z-order (red, blue); when the blue image loads
    first the red pixel is painted over the blue one, and the canvas both
    functions resolve with shows red.  When the images load in request order
    it shows blue. *)
Theorem compositor_follows_load_order :
  compositeRect_requests [Samples.redLayer; Samples.blueLayer]
    = [Samples.redLayer; Samples.blueLayer]
  /\ schedule [Samples.redLayer; Samples.blueLayer] [1; 0]%nat
  /\ (fun c => Canvas.px c 0 0)
       <$> compositeRect_canvas Samples.images [1; 0]%nat Samples.unit_rect
             [Samples.redLayer; Samples.blueLayer]
     = Some Samples.red
  /\ (fun c => Canvas.px c 0 0)
       <$> compositeLayers_canvas Samples.images [1; 0]%nat 1 1
             [Samples.redLayer; Samples.blueLayer]
     = Some Samples.red
  /\ (fun c => Canvas.px c 0 0)
       <$> compositeRect_canvas Samples.images [0; 1]%nat Samples.unit_rect
             [Samples.redLayer; Samples.blueLayer]
     = Some Samples.blue.
Proof.
  split; [reflexivity |]. split; [apply Permutation_swap |].
  repeat split; reflexivity.
Qed.

End CompositorOrder.

(** * Further properties of the sources *)

(** ** History and layer operations of App.tsx *)

Section HistoryBranches.

Import App.

(** X1.  A commit drops the entries above the cursor: the history is the part up
    to the cursor followed by the new scene, and a redo right after
    a commit changes nothing. *)
Theorem commit_discards_redo_branch (st : State) (scene : list MapLayer.t) :
  -1 <= historyIndex st < Z.of_nat (length (history st)) ->
  history (addToHistory scene st)
    = take (Z.to_nat (historyIndex st + 1)) (history st) ++ [scene]
  /\ length (history (addToHistory scene st)) = Z.to_nat (historyIndex st + 2)
  /\ historyIndex (addToHistory scene st) = historyIndex st + 1
  /\ handleRedo (addToHistory scene st) = Some (addToHistory scene st).
Proof.
  intros Hi.
  assert (Hh : history (addToHistory scene st)
               = take (Z.to_nat (historyIndex st + 1)) (history st) ++ [scene]).
  { rewrite addToHistory_history, slice0_take by lia. reflexivity. }
  assert (Hl : length (history (addToHistory scene st)) = Z.to_nat (historyIndex st + 2)).
  { rewrite Hh, length_app, length_take. cbn [length]. lia. }
  assert (Hc : historyIndex (addToHistory scene st) = historyIndex st + 1).
  { destruct (addToHistory_cursor scene st) as [-> _]. rewrite Hl. lia. }
  repeat split; try assumption.
  apply handleRedo_noop. rewrite Hl, Hc. lia.
Qed.

(** A history of three entries with the cursor on the first: the commit
    leaves two. *)
Lemma commit_discards_redo_branch_witness :
  length (history (addToHistory Samples.sceneA
            (setHistoryIndex 0 (setHistory [[]; Samples.sceneA; []] initial)))) = 2%nat.
Proof.
  destruct (commit_discards_redo_branch
              (setHistoryIndex 0 (setHistory [[]; Samples.sceneA; []] initial)) Samples.sceneA)
    as (_ & H & _).
  - cbn. lia.
  - exact H.
Defined.

(** X2.  Undo and redo are inverse to each other on the cursor and show the
    scene of the entry the cursor comes back to; the history itself is not
    touched. *)
Theorem undo_redo_inverse (st : State) :
  0 <= historyIndex st < Z.of_nat (length (history st)) ->
  (0 < historyIndex st ->
     exists st1 st2, handleUndo st = Some st1 /\ handleRedo st1 = Some st2
       /\ historyIndex st1 = historyIndex st - 1
       /\ historyIndex st2 = historyIndex st
       /\ history st2 = history st
       /\ entry (history st) (historyIndex st) = Some (layers st2))
  /\ (historyIndex st < Z.of_nat (length (history st)) - 1 ->
        exists st1 st2, handleRedo st = Some st1 /\ handleUndo st1 = Some st2
          /\ historyIndex st1 = historyIndex st + 1
          /\ historyIndex st2 = historyIndex st
          /\ history st2 = history st
          /\ entry (history st) (historyIndex st) = Some (layers st2)).
Proof.
  intros Hi. split; intros Hb.
  - destruct (entry_in_range (history st) (historyIndex st - 1)) as [s1 E1]; [lia |].
    destruct (handleUndo_step st s1 Hb E1) as (st1 & U & H1 & I1 & L1).
    destruct (entry_in_range (history st) (historyIndex st) Hi) as [s2 E2].
    destruct (handleRedo_step st1 s2) as (st2 & R & H2 & I2 & L2).
    { rewrite H1, I1. lia. }
    { rewrite H1, I1. replace (historyIndex st - 1 + 1) with (historyIndex st) by lia. exact E2. }
    exists st1, st2. repeat split; try assumption.
    + lia.
    + rewrite H2. exact H1.
    + rewrite L2. exact E2.
  - destruct (entry_in_range (history st) (historyIndex st + 1)) as [s1 E1]; [lia |].
    destruct (handleRedo_step st s1 Hb E1) as (st1 & R & H1 & I1 & L1).
    destruct (entry_in_range (history st) (historyIndex st) Hi) as [s2 E2].
    destruct (handleUndo_step st1 s2) as (st2 & U & H2 & I2 & L2).
    { rewrite I1. lia. }
    { rewrite H1, I1. replace (historyIndex st + 1 - 1) with (historyIndex st) by lia. exact E2. }
    exists st1, st2. repeat split; try assumption.
    + lia.
    + rewrite H2. exact H1.
    + rewrite L2. exact E2.
Qed.

Lemma undo_redo_inverse_witness :
  exists st1 st2,
    handleUndo (setHistoryIndex 1 (setHistory [[]; Samples.sceneA; []] initial)) = Some st1
    /\ handleRedo st1 = Some st2 /\ layers st2 = Samples.sceneA.
Proof.
  destruct (undo_redo_inverse (setHistoryIndex 1 (setHistory [[]; Samples.sceneA; []] initial)))
    as [H _].
  - cbn. lia.
  - destruct H as (st1 & st2 & U & R & _ & _ & _ & E); [cbn; lia |].
    exists st1, st2. repeat split; try assumption.
    vm_compute in E. injection E as E. symmetry. exact E.
Defined.

(** X3.  The component never fails: in every state it reaches, the cursor points
    at an entry of a non-empty history, and every event is handled to a
    state. *)
Theorem reachable_never_fails (st : State) :
  reachable st ->
  0 <= historyIndex st < Z.of_nat (length (history st))
  /\ (exists scene, entry (history st) (historyIndex st) = Some scene)
  /\ forall ev w, exists st' w', handle ev st w = Some (st', w').
Proof.
  intros Hr. destruct (reachable_ok st Hr) as [_ _ Hc].
  split; [exact Hc |]. split; [apply entry_in_range, Hc |].
  intros ev w. destruct ev; cbn [handle]; try (eexists _, _; reflexivity).
  - destruct (apply_op_cursor_ok undo st) as (st' & E & _); [unfold cursor_ok; lia |].
    cbn [apply_op] in E. rewrite E. eexists _, _. reflexivity.
  - destruct (apply_op_cursor_ok redo st) as (st' & E & _); [unfold cursor_ok; lia |].
    cbn [apply_op] in E. rewrite E. eexists _, _. reflexivity.
  - destruct (handleNavigate direction st w). eexists _, _. reflexivity.
  - destruct (handleGenerateAsset st w). eexists _, _. reflexivity.
  - destruct (handleGenerateBase st w). eexists _, _. reflexivity.
Qed.

Lemma reachable_never_fails_witness :
  exists st' w', handle Undo Samples.withObject Samples.failing = Some (st', w').
Proof.
  destruct (reachable_never_fails Samples.withObject withObject_reachable) as (_ & _ & H).
  exact (H Undo Samples.failing).
Defined.

End HistoryBranches.

Section LayerOperations.

Import App.

Lemma drag_snoc (id : string) (moves : list (Q * Q)) (m : Q * Q) (st : State) :
  drag id (moves ++ [m]) st = updateLayerPosition id (fst m) (snd m) (drag id moves st).
Proof. unfold drag. rewrite foldl_snoc. reflexivity. Qed.

Lemma drag_layers (id : string) (moves : list (Q * Q)) (m : Q * Q) (st : State) :
  layers (drag id (moves ++ [m]) st)
  = (fun l => if String.eqb (MapLayer.id l) id then with_position (fst m) (snd m) l else l)
      <$> layers st.
Proof.
  revert m. induction moves as [| m0 moves IH] using rev_ind; intros m.
  - reflexivity.
  - rewrite drag_snoc. unfold updateLayerPosition at 1. cbn [layers setLayers].
    rewrite IH, <- list_fmap_compose. apply list_fmap_ext. intros _ l _. cbn.
    destruct (String.eqb (MapLayer.id l) id) eqn:E; [| rewrite E; reflexivity].
    cbn [with_position MapLayer.id]. rewrite E. reflexivity.
Qed.

Lemma drag_history (id : string) (moves : list (Q * Q)) (st : State) :
  history (drag id moves st) = history st /\ historyIndex (drag id moves st) = historyIndex st.
Proof.
  induction moves as [| m moves IH] using rev_ind; [split; reflexivity |].
  rewrite drag_snoc. exact IH.
Qed.

(** X4.  A drag is committed once.  However many positions the pointer passes,
    the moves leave the history and the cursor alone, the layer ends at the
    last position (layers with another id stay where they are), and
    [handleMoveEnd] appends one entry: the scene after the drag. *)
Theorem drag_commits_once (id : string) (moves : list (Q * Q)) (last : Q * Q) (st : State) :
  -1 <= historyIndex st < Z.of_nat (length (history st)) ->
  history (drag id (moves ++ [last]) st) = history st
  /\ historyIndex (drag id (moves ++ [last]) st) = historyIndex st
  /\ layers (drag id (moves ++ [last]) st)
     = (fun l => if String.eqb (MapLayer.id l) id
                 then with_position (fst last) (snd last) l else l) <$> layers st
  /\ history (handleMoveEnd (drag id (moves ++ [last]) st))
     = take (Z.to_nat (historyIndex st + 1)) (history st)
       ++ [layers (drag id (moves ++ [last]) st)]
  /\ historyIndex (handleMoveEnd (drag id (moves ++ [last]) st)) = historyIndex st + 1.
Proof.
  intros Hi. destruct (drag_history id (moves ++ [last]) st) as [Hh Hc].
  split; [exact Hh |]. split; [exact Hc |]. split; [apply drag_layers |].
  unfold handleMoveEnd.
  assert (E : history (addToHistory (layers (drag id (moves ++ [last]) st))
                         (drag id (moves ++ [last]) st))
              = take (Z.to_nat (historyIndex st + 1)) (history st)
                ++ [layers (drag id (moves ++ [last]) st)]).
  { rewrite addToHistory_history, Hh, Hc, slice0_take by lia. reflexivity. }
  split; [exact E |].
  destruct (addToHistory_cursor (layers (drag id (moves ++ [last]) st))
              (drag id (moves ++ [last]) st)) as [-> _].
  rewrite E, length_app, length_take. cbn [length]. lia.
Qed.

Lemma drag_commits_once_witness :
  length (history (handleMoveEnd
            (drag "layer-base-0-0" ([(1 # 1, 2 # 1); (3 # 1, 4 # 1)] ++ [(7 # 1, 9 # 1)])
                  Samples.prompted))) = 2%nat
  /\ (MapLayer.x <$> layers (drag "layer-base-0-0" ([(1 # 1, 2 # 1); (3 # 1, 4 # 1)]
                                                       ++ [(7 # 1, 9 # 1)]) Samples.prompted))
     = [7 # 1].
Proof.
  split; [reflexivity |].
  destruct (drag_commits_once "layer-base-0-0" [(1 # 1, 2 # 1); (3 # 1, 4 # 1)] (7 # 1, 9 # 1)
              Samples.prompted) as (_ & _ & H & _).
  - cbn. lia.
  - rewrite H. reflexivity.
Defined.

Lemma with_visible_involutive (l : MapLayer.t) :
  with_visible (negb (MapLayer.visible (with_visible (negb (MapLayer.visible l)) l)))
               (with_visible (negb (MapLayer.visible l)) l) = l.
Proof. destruct l as [i n t d x y w h v z]. cbn. rewrite negb_involutive. reflexivity. Qed.

(** X5.  Toggling the visibility of a layer twice gives back the scene, layer by
    layer; each toggle is a commit of its own, so the history is two entries
    longer than the cursor was. *)
Theorem toggle_visibility_twice (id : string) (st : State) :
  -1 <= historyIndex st < Z.of_nat (length (history st)) ->
  layers (handleToggleVisibility id (handleToggleVisibility id st)) = layers st
  /\ history (handleToggleVisibility id (handleToggleVisibility id st))
     = take (Z.to_nat (historyIndex st + 1)) (history st)
       ++ [layers (handleToggleVisibility id st); layers st]
  /\ historyIndex (handleToggleVisibility id (handleToggleVisibility id st))
     = historyIndex st + 2.
Proof.
  intros Hi.
  set (tog := fun ls : list MapLayer.t =>
                (fun l => if String.eqb (MapLayer.id l) id
                          then with_visible (negb (MapLayer.visible l)) l else l) <$> ls).
  assert (T : forall ls, tog (tog ls) = ls).
  { intros ls. unfold tog. rewrite <- list_fmap_compose.
    rewrite <- (list_fmap_id ls) at 2. apply list_fmap_ext. intros _ l _. cbn.
    destruct (String.eqb (MapLayer.id l) id) eqn:E; [| rewrite E; reflexivity].
    cbn [with_visible MapLayer.id]. rewrite E. apply with_visible_involutive. }
  change (handleToggleVisibility id st) with (addToHistory (tog (layers st)) st).
  change (handleToggleVisibility id (addToHistory (tog (layers st)) st))
    with (addToHistory (tog (layers (addToHistory (tog (layers st)) st)))
            (addToHistory (tog (layers st)) st)).
  rewrite !addToHistory_layers, T.
  destruct (two_commits st (tog (layers st)) (layers st) Hi) as [H2 I2].
  split; [reflexivity |]. split; [exact H2 | exact I2].
Qed.

Lemma toggle_visibility_twice_witness :
  layers (handleToggleVisibility "layer-base-0-0"
            (handleToggleVisibility "layer-base-0-0" Samples.prompted))
    = layers Samples.prompted
  /\ (MapLayer.visible <$> layers (handleToggleVisibility "layer-base-0-0" Samples.prompted))
     = [false].
Proof.
  split; [| reflexivity].
  destruct (toggle_visibility_twice "layer-base-0-0" Samples.prompted) as [H _].
  - cbn. lia.
  - exact H.
Defined.

(** X6.  Deleting removes every layer with the id and keeps the others in their
    order; it clears the selection only if the deleted layer was the selected
    one.  Deleting an id that no layer has still commits: the scene is the
    same and the history has one more entry. *)
Theorem delete_layer_commits (id : string) (st : State) :
  -1 <= historyIndex st < Z.of_nat (length (history st)) ->
  (forall l, l ∈ layers (handleDeleteLayer id st) <-> l ∈ layers st /\ MapLayer.id l <> id)
  /\ (MapLayer.id <$> layers (handleDeleteLayer id st))
     = filter (fun i => i <> id) (MapLayer.id <$> layers st)
  /\ selectedLayerId (handleDeleteLayer id st)
     = (if decide (selectedLayerId st = Some id) then None else selectedLayerId st)
  /\ history (handleDeleteLayer id st)
     = take (Z.to_nat (historyIndex st + 1)) (history st) ++ [layers (handleDeleteLayer id st)]
  /\ ((forall l, l ∈ layers st -> MapLayer.id l <> id) ->
      layers (handleDeleteLayer id st) = layers st
      /\ historyIndex (handleDeleteLayer id st) = historyIndex st + 1).
Proof.
  intros Hi.
  assert (L : layers (handleDeleteLayer id st)
              = filter (fun l => MapLayer.id l <> id) (layers st)).
  { unfold handleDeleteLayer. destruct (decide _); reflexivity. }
  assert (H : history (handleDeleteLayer id st)
              = take (Z.to_nat (historyIndex st + 1)) (history st)
                ++ [layers (handleDeleteLayer id st)]).
  { rewrite L. unfold handleDeleteLayer.
    destruct (decide _); cbn [history setSelectedLayerId];
      rewrite addToHistory_history, slice0_take by lia; reflexivity. }
  assert (I : historyIndex (handleDeleteLayer id st)
              = Z.of_nat (length (history (handleDeleteLayer id st))) - 1).
  { unfold handleDeleteLayer.
    destruct (decide _); cbn [history historyIndex setSelectedLayerId];
      apply addToHistory_cursor. }
  split; [| split; [| split; [| split]]].
  - intros l. rewrite L, list_elem_of_filter. tauto.
  - rewrite L. generalize (layers st). intros ls.
    induction ls as [| a ls IH]; [reflexivity |].
    rewrite filter_cons, fmap_cons, filter_cons.
    destruct (decide (MapLayer.id a <> id)); [rewrite fmap_cons |]; rewrite IH; reflexivity.
  - unfold handleDeleteLayer. destruct (decide _); reflexivity.
  - exact H.
  - intros Hnone. split.
    + rewrite L. revert Hnone. generalize (layers st). intros ls Hnone.
      induction ls as [| a ls IH]; [reflexivity |].
      rewrite filter_cons. destruct (decide (MapLayer.id a <> id)) as [_ | Hn].
      * rewrite IH; [reflexivity |]. intros l Hl. apply Hnone, elem_of_cons. right. exact Hl.
      * exfalso. apply Hn, Hnone, elem_of_cons. left. reflexivity.
    + rewrite I, H, length_app, length_take. cbn [length]. lia.
Qed.

Lemma delete_layer_commits_witness :
  layers (handleDeleteLayer "no-such-layer" Samples.prompted) = layers Samples.prompted
  /\ length (history (handleDeleteLayer "no-such-layer" Samples.prompted)) = 2%nat
  /\ layers (handleDeleteLayer "layer-base-0-0" Samples.prompted) = [].
Proof.
  split; [| split; reflexivity].
  destruct (delete_layer_commits "no-such-layer" Samples.prompted) as (_ & _ & _ & _ & H).
  - cbn. lia.
  - apply H. intros l Hl. apply list_elem_of_singleton in Hl as ->. discriminate.
Defined.

End LayerOperations.

(** ** The generation service: credentials, responses and the stitched canvas *)

Section Credentials.

Import GeminiService App.

(** X7.  Without an API key nothing is asked of the collaborator.  The three
    generation functions throw before they build a request, and
    [handleGenerateBase] shows the error and leaves the scene alone; it has
    already closed the dialog and taken the prompt as the one later tiles
    are generated with. *)
Theorem no_api_key_no_request (w : World) :
  apiKey w = false ->
  let e := Error "API Key not found in environment variables" in
  (forall prompt settings contextImage,
     generateMapAsset prompt settings contextImage w = (Throw e, w))
  /\ (forall promptInput settings, generateBaseTexture promptInput settings w = (Throw e, w))
  /\ (forall n settings basePrompt,
        generateSeamlessTexture n settings basePrompt w = (Throw e, w))
  /\ (forall st, blank (basePrompt st) = false ->
        handleGenerateBase st w
        = (setIsGenerating false
             (setError (Some "API Key not found in environment variables")
                (setLastBasePrompt (basePrompt st)
                   (setError None (setIsGenerating true (setIsBaseModalOpen false st))))), w)).
Proof.
  intros Hk e.
  assert (G : getClient w = (Throw e, w)).
  { unfold getClient. rewrite Hk. reflexivity. }
  assert (M : forall p s c, generateMapAsset p s c w = (Throw e, w)).
  { intros. unfold generateMapAsset, mbind, Async_bind. rewrite G. reflexivity. }
  assert (Bt : forall p s, generateBaseTexture p s w = (Throw e, w)).
  { intros. unfold generateBaseTexture, mbind, Async_bind. rewrite G. reflexivity. }
  split; [exact M |]. split; [exact Bt |]. split.
  - intros. unfold generateSeamlessTexture, mbind, Async_bind. rewrite G. reflexivity.
  - intros st Hb. unfold handleGenerateBase. rewrite Hb.
    cbn [basePrompt mapSettings setLastBasePrompt setError setIsGenerating setIsBaseModalOpen].
    rewrite Bt. reflexivity.
Qed.

Lemma no_api_key_no_request_witness :
  fst (generateMapAsset "a watch tower" (mapSettings initial) None Samples.keyless)
    = Throw (Error "API Key not found in environment variables")
  /\ dispatched (snd (generateMapAsset "a watch tower" (mapSettings initial) None
                        Samples.keyless)) = [].
Proof.
  destruct (no_api_key_no_request Samples.keyless) as (H & _); [reflexivity |].
  rewrite H. split; reflexivity.
Defined.

End Credentials.

Section Responses.

Import GeminiService.




End Responses.

Section StitchedCanvas.

Import GeminiService.

Variable br : Browser.

Lemma fire_size (st : list DrawPromise * Canvas.t) (e : nat) :
  Canvas.width (snd (fire br st e)) = Canvas.width (snd st)
  /\ Canvas.height (snd (fire br st e)) = Canvas.height (snd st).
Proof.
  destruct st as [promises c]. unfold fire.
  destruct (promises !! e) as [q |]; [| split; reflexivity].
  destruct (fulfilled q); [split; reflexivity |].
  destruct (decode br (pSrc q)); split; reflexivity.
Qed.

Lemma fire_all_size (events : list nat) (st : list DrawPromise * Canvas.t) :
  Canvas.width (snd (foldl (fire br) st events)) = Canvas.width (snd st)
  /\ Canvas.height (snd (foldl (fire br) st events)) = Canvas.height (snd st).
Proof.
  revert st. induction events as [| e events IH]; intros st; [split; reflexivity |].
  cbn [foldl]. destruct (IH (fire br st e)) as [-> ->]. apply fire_size.
Qed.

(** A promise whose image does not decode is never fulfilled. *)
Lemma fire_stuck (st : list DrawPromise * Canvas.t) (e k : nat) (p : DrawPromise) :
  fst st !! k = Some p -> fulfilled p = false -> decode br (pSrc p) = None ->
  fst (fire br st e) !! k = Some p.
Proof.
  destruct st as [promises c]. cbn [fst]. intros Hp Hf Hd. unfold fire.
  destruct (promises !! e) as [q |] eqn:Hq; [| exact Hp].
  destruct (fulfilled q) eqn:Hfq; [exact Hp |].
  destruct (decode br (pSrc q)) as [img |] eqn:Hdq; [| exact Hp].
  cbn [fst]. rewrite list_lookup_insert_ne; [exact Hp |].
  intros ->. rewrite Hp in Hq. injection Hq as <-. congruence.
Qed.

Lemma fire_all_stuck (events : list nat) (st : list DrawPromise * Canvas.t) (k : nat)
    (p : DrawPromise) :
  fst st !! k = Some p -> fulfilled p = false -> decode br (pSrc p) = None ->
  fst (foldl (fire br) st events) !! k = Some p.
Proof.
  revert st. induction events as [| e events IH]; intros st Hp Hf Hd; [exact Hp |].
  cbn [foldl]. apply IH; [apply fire_stuck | |]; assumption.
Qed.

Lemma await_all_stuck (events : list nat) (promises : list DrawPromise) (c : Canvas.t)
    (p : DrawPromise) :
  p ∈ promises -> fulfilled p = false -> decode br (pSrc p) = None ->
  await_all br events (promises, c) = None.
Proof.
  intros Hin Hf Hd. apply list_elem_of_lookup in Hin as [k Hk].
  unfold await_all.
  destruct (forallb fulfilled (fst (foldl (fire br) (promises, c) events))) eqn:Hall;
    [| reflexivity].
  exfalso. rewrite forallb_forall in Hall.
  assert (H : fulfilled p = true).
  { apply Hall, list_elem_of_In. eapply list_elem_of_lookup_2.
    apply (fire_all_stuck events (promises, c) k p); assumption. }
  congruence.
Qed.

Lemma untouched_fire (promises0 : list DrawPromise) (c0 : Canvas.t) (i j : Z)
    (st : list DrawPromise * Canvas.t) (e : nat) :
  beside_strips br promises0 i j ->
  untouched promises0 c0 i j st -> untouched promises0 c0 i j (fire br st e).
Proof.
  intros Hfree. destruct st as [promises c]. intros [Hsame Hpx]. cbn [fst snd] in *.
  unfold fire.
  destruct (promises !! e) as [q |] eqn:Hq; [| split; assumption].
  destruct (fulfilled q) eqn:Hf; [split; assumption |].
  destruct (decode br (pSrc q)) as [img |] eqn:Hd; [| split; assumption].
  destruct (Hsame e q Hq) as (q0 & Hq0 & Es & Ex & Ey).
  split; cbn [fst snd].
  - intros k' q' Hk'. destruct (decide (k' = e)) as [-> | Hne].
    + rewrite list_lookup_insert_eq in Hk' by (eapply lookup_lt_Some; eauto).
      injection Hk' as <-. exists q0. cbn. auto.
    + rewrite list_lookup_insert_ne in Hk' by congruence. eauto.
  - rewrite drawImage3_px_beside; [exact Hpx |].
    rewrite Ex, Ey. apply (Hfree e q0 img Hq0). rewrite <- Es. exact Hd.
Qed.

Lemma untouched_events (promises0 : list DrawPromise) (c0 : Canvas.t) (i j : Z)
    (events : list nat) (st : list DrawPromise * Canvas.t) :
  beside_strips br promises0 i j ->
  untouched promises0 c0 i j st -> untouched promises0 c0 i j (foldl (fire br) st events).
Proof.
  intros Hfree. revert st. induction events as [| e events IH]; intros st H; [exact H |].
  cbn [foldl]. apply IH, untouched_fire; assumption.
Qed.

Lemma stitch_canvas_stages (events : list nat) (n : Neighbors) (c : Canvas.t) :
  stitch_canvas br events n = Some c ->
  exists promises c1,
    foldl (fire br) (strip_promises n, stitch_ground n) events = (promises, c1)
    /\ forallb fulfilled promises = true
    /\ c = Canvas.fillRect magenta (targetX (layout n)) (targetY (layout n))
             TARGET_SIZE TARGET_SIZE c1.
Proof.
  unfold stitch_canvas. fold (stitch_ground n). intros Hc.
  destruct (await_all br events (strip_promises n, stitch_ground n)) as [[promises c1] |] eqn:H1;
    [| discriminate].
  cbn [mbind option_bind fst snd] in Hc.
  unfold await_all in H1.
  destruct (forallb fulfilled (fst (foldl (fire br) (strip_promises n, stitch_ground n) events)))
    eqn:E; [| discriminate].
  injection H1 as H1. rewrite H1 in E. cbn [fst] in E.
  rewrite await_all_fulfilled in Hc by exact E.
  cbn [mbind option_bind fst snd] in Hc. injection Hc as <-.
  exists promises, c1. auto.
Qed.

Lemma stitch_ground_px (n : Neighbors) (i j : Z) :
  0 <= i < canvasSize n -> 0 <= j < canvasSize n -> Canvas.px (stitch_ground n) i j = neutral.
Proof.
  intros Hi Hj. unfold stitch_ground, Canvas.fillRect, Canvas.px at 1, Canvas.inside.
  cbn [Canvas.bitmap rpx Canvas.width Canvas.height Canvas.create rw rh].
  replace (0 <=? i) with true by (symmetry; apply Z.leb_le; lia).
  replace (i <? canvasSize n) with true by (symmetry; apply Z.ltb_lt; lia).
  replace (i <? 0 + canvasSize n) with true by (symmetry; apply Z.ltb_lt; lia).
  replace (0 <=? j) with true by (symmetry; apply Z.leb_le; lia).
  replace (j <? canvasSize n) with true by (symmetry; apply Z.ltb_lt; lia).
  replace (j <? 0 + canvasSize n) with true by (symmetry; apply Z.ltb_lt; lia).
  reflexivity.
Qed.

End StitchedCanvas.

Section StitchedCanvasPixels.

Import GeminiService.

(** X9.  The canvas sent to the collaborator, whatever the strips are and in
    whatever order they load: it is a square of side [canvasSize]; every
    pixel of the target square is magenta, also where a strip reaches into
    it; outside the target square a pixel that no strip covers is the
    neutral grey, and a pixel that one strip covers shows that strip. *)
Theorem stitch_canvas_pixels (br : Browser) (events : list nat) (n : Neighbors)
    (c : Canvas.t) :
  stitch_canvas br events n = Some c ->
  Canvas.width c = canvasSize n /\ Canvas.height c = canvasSize n
  /\ (forall i j, in_target n i j -> Canvas.px c i j = magenta)
  /\ (forall i j, 0 <= i < canvasSize n -> 0 <= j < canvasSize n ->
        ~ in_target n i j ->
        (forall k q img, strip_promises n !! k = Some q -> decode br (pSrc q) = Some img ->
                         ~ under_image (pX q) (pY q) img i j) ->
        Canvas.px c i j = neutral)
  /\ (forall i j k p img, 0 <= i < canvasSize n -> 0 <= j < canvasSize n ->
        ~ in_target n i j ->
        strip_promises n !! k = Some p -> decode br (pSrc p) = Some img ->
        under_image (pX p) (pY p) img i j ->
        (forall k' q img', k' <> k -> strip_promises n !! k' = Some q ->
           decode br (pSrc q) = Some img' -> ~ under_image (pX q) (pY q) img' i j) ->
        Canvas.px c i j = over (rpx img (i - pX p) (j - pY p)) neutral).
Proof.
  intros Hc.
  assert (Hstrip : forall i j k p img, 0 <= i < canvasSize n -> 0 <= j < canvasSize n ->
            ~ in_target n i j ->
            strip_promises n !! k = Some p -> decode br (pSrc p) = Some img ->
            under_image (pX p) (pY p) img i j ->
            (forall k' q img', k' <> k -> strip_promises n !! k' = Some q ->
               decode br (pSrc q) = Some img' -> ~ under_image (pX q) (pY q) img' i j) ->
            Canvas.px c i j = over (rpx img (i - pX p) (j - pY p)) neutral).
  { intros i j k p img Hi Hj Hout Hk Hd Hu Hfree.
    exact (stitch_canvas_strip_pixel br events n c k p img i j Hc Hk Hd Hi Hj Hu Hout Hfree). }
  revert Hstrip.
  destruct (stitch_canvas_stages br events n c Hc) as (promises & c1 & H1 & _ & ->).
  destruct (fire_all_size br events (strip_promises n, stitch_ground n)) as [Hw Hh].
  rewrite H1 in Hw, Hh. cbn [snd] in Hw, Hh.
  change (Canvas.width (stitch_ground n)) with (canvasSize n) in Hw.
  change (Canvas.height (stitch_ground n)) with (canvasSize n) in Hh.
  intros Hstrip.
  split; [exact Hw |]. split; [exact Hh |]. split; [| split; [| exact Hstrip]].
  - intros i j [Hi Hj].
    destruct (canvasSize_cases n) as (_ & Hx & Hy).
    destruct (layout_cases n) as (Hx0 & Hy0 & _).
    unfold Canvas.fillRect, Canvas.px at 1, Canvas.inside.
    cbn [Canvas.bitmap rpx]. rewrite Hw, Hh. unfold TARGET_SIZE in *.
    replace (0 <=? i) with true by (symmetry; apply Z.leb_le; lia).
    replace (i <? canvasSize n) with true by (symmetry; apply Z.ltb_lt; lia).
    replace (0 <=? j) with true by (symmetry; apply Z.leb_le; lia).
    replace (j <? canvasSize n) with true by (symmetry; apply Z.ltb_lt; lia).
    replace (targetX (layout n) <=? i) with true by (symmetry; apply Z.leb_le; lia).
    replace (i <? targetX (layout n) + 1024) with true by (symmetry; apply Z.ltb_lt; lia).
    replace (targetY (layout n) <=? j) with true by (symmetry; apply Z.leb_le; lia).
    replace (j <? targetY (layout n) + 1024) with true by (symmetry; apply Z.ltb_lt; lia).
    reflexivity.
  - intros i j Hi Hj Hout Hfree.
    rewrite fillRect_px_beside by exact Hout.
    assert (H0 : untouched (strip_promises n) (stitch_ground n) i j
                   (strip_promises n, stitch_ground n)).
    { split; [| reflexivity]. intros k q Hq. exists q. auto. }
    destruct (untouched_events br (strip_promises n) (stitch_ground n) i j events _ Hfree H0)
      as [_ Hpx].
    rewrite H1 in Hpx. cbn [snd] in Hpx. rewrite Hpx. apply stitch_ground_px; assumption.
Qed.

Lemma stitch_canvas_pixels_witness :
  exists c, stitch_canvas Samples.images [0%nat] Samples.leftWide = Some c
            /\ Canvas.width c = 1280 /\ Canvas.px c 280 500 = magenta.
Proof.
  destruct (stitch_canvas Samples.images [0%nat] Samples.leftWide) as [c |] eqn:E.
  - exists c. split; [reflexivity |].
    destruct (stitch_canvas_pixels Samples.images [0%nat] Samples.leftWide c E)
      as (Hw & _ & Hm & _).
    split; [exact Hw |]. apply Hm. vm_compute. repeat split; discriminate.
  - vm_compute in E. discriminate.
Defined.

(** X10.  A strip that does not decode has no [onerror] handler: its promise stays
    pending, [Promise.all] never resolves, and [generateSeamlessTexture]
    neither returns nor throws; the collaborator is not called. *)
Theorem undecodable_strip_never_settles (n : Neighbors) (settings : MapSettings)
    (basePrompt src : string) (w : World) :
  apiKey w = true ->
  Some src = left n \/ Some src = right n \/ Some src = top n \/ Some src = bottom n ->
  src <> "" ->
  decode (browser w) src = None ->
  generateSeamlessTexture n settings basePrompt w = (Pending, w).
Proof.
  intros Hk Hside Hsrc Hd.
  assert (Hp : present (Some src) = true).
  { cbn. apply negb_true_iff, String.eqb_neq. exact Hsrc. }
  assert (Hin : exists p, p ∈ strip_promises n /\ pSrc p = src /\ fulfilled p = false).
  { unfold strip_promises.
    destruct Hside as [E | [E | [E | E]]]; rewrite <- E; rewrite Hp; cbn [default].
    - eexists. split; [apply elem_of_app; left; apply elem_of_cons; left; reflexivity |].
      split; reflexivity.
    - eexists. split; [apply elem_of_app; right; apply elem_of_app; left;
                       apply elem_of_cons; left; reflexivity |].
      split; reflexivity.
    - eexists. split; [apply elem_of_app; right; apply elem_of_app; right;
                       apply elem_of_app; left; apply elem_of_cons; left; reflexivity |].
      split; reflexivity.
    - eexists. split; [apply elem_of_app; right; apply elem_of_app; right;
                       apply elem_of_app; right; apply elem_of_cons; left; reflexivity |].
      split; reflexivity. }
  destruct Hin as (p & Hin & Es & Ef).
  unfold generateSeamlessTexture, mbind, Async_bind, getClient, ask. rewrite Hk.
  unfold stitch_canvas.
  rewrite (await_all_stuck (browser w) _ (strip_promises n) _ p Hin Ef)
    by (rewrite Es; exact Hd).
  reflexivity.
Qed.

Lemma undecodable_strip_never_settles_witness :
  GeminiService.generateSeamlessTexture
    {| left := None; right := None; top := Some "torn.png"; bottom := None |}
    (App.mapSettings App.initial) "grassland" Samples.answering
  = (Pending, Samples.answering).
Proof.
  apply (undecodable_strip_never_settles _ _ _ "torn.png").
  - reflexivity.
  - right. right. left. reflexivity.
  - discriminate.
  - reflexivity.
Defined.

End StitchedCanvasPixels.

Section StitchedCanvasLog.

Import GeminiService.

Lemma stitch_canvas_paint_order_witness :
  exists c draws,
    stitch_canvas Samples.images [0%nat] Samples.leftOnly = Some c
    /\ Canvas.log c
       = Canvas.FillRect neutral 0 0 1280 1280 :: draws
         ++ [Canvas.FillRect magenta 256 0 1024 1024]
    /\ length draws = 1%nat.
Proof.
  destruct (stitch_canvas Samples.images [0%nat] Samples.leftOnly) as [c |] eqn:E.
  - destruct (stitch_canvas_paint_order Samples.images [0%nat] Samples.leftOnly c E)
      as (draws & Hl & _ & Hn).
    exists c, draws. split; [reflexivity |]. split; [exact Hl | exact Hn].
  - vm_compute in E. discriminate.
Defined.

End StitchedCanvasLog.

(** ** The image services: context images, the export and failing images *)

Section OpaqueContext.

Import ImageUtils.

Lemma over_opaque (s d : Pixel) : A d = 255 -> A (over s d) = 255.
Proof.
  intros Hd. unfold over.
  destruct (A s =? 255) eqn:E1; [apply Z.eqb_eq, E1 |].
  destruct (A s =? 0) eqn:E2; [exact Hd |].
  unfold mix. cbn [A]. rewrite Hd.
  rewrite (Z.mul_comm 255), Z.div_mul by lia. lia.
Qed.

Lemma truncate_nonneg (q : Q) : (0 <= q)%Q -> 0 <= Num.truncate q <= Qceiling q.
Proof.
  intros Hq. unfold Num.truncate. destruct q as [a b].
  assert (Hn : 0 <= a).
  { unfold Qle in Hq. cbn in Hq. lia. }
  cbn [Qnum Qden]. rewrite Z.quot_div_nonneg by lia.
  change (a / Z.pos b) with (Qfloor (a # b)).
  split.
  - apply Z.div_pos; lia.
  - rewrite Zle_Qle. apply Qle_floor_ceiling.
Qed.

Lemma canvas_dim_nonneg (q : Q) : (0 <= q)%Q -> 0 <= Num.canvas_dim q <= Qceiling q.
Proof.
  intros Hq. destruct (truncate_nonneg q Hq) as [H0 H1]. unfold Num.canvas_dim.
  pose proof (Z.mod_pos_bound (Num.truncate q) (2 ^ 32) ltac:(lia)).
  pose proof (Z.mod_le (Num.truncate q) (2 ^ 32) H0 ltac:(lia)). lia.
Qed.

(** Every pixel of the black canvas is opaque. *)
Lemma backdrop_opaque (rect : Rect.t) (i j : Z) :
  (0 <= Rect.width rect)%Q -> (0 <= Rect.height rect)%Q ->
  Canvas.inside (backdrop rect) i j = true -> Canvas.px (backdrop rect) i j = black.
Proof.
  intros Hw Hh Hin.
  destruct (canvas_dim_nonneg _ Hw) as [_ Hcw]. destruct (canvas_dim_nonneg _ Hh) as [_ Hch].
  unfold backdrop in *. unfold Canvas.inside in Hin. cbn in Hin.
  apply andb_true_iff in Hin as [Hin Hj1]. apply andb_true_iff in Hin as [Hin Hj0].
  apply andb_true_iff in Hin as [Hi0 Hi1].
  apply Z.leb_le in Hi0, Hj0. apply Z.ltb_lt in Hi1, Hj1.
  unfold Canvas.fillRect, Canvas.px at 1, Canvas.inside. cbn.
  replace (0 <=? i) with true by (symmetry; apply Z.leb_le; lia).
  replace (0 <=? j) with true by (symmetry; apply Z.leb_le; lia).
  replace (i <? Num.canvas_dim (Rect.width rect)) with true by (symmetry; apply Z.ltb_lt; lia).
  replace (j <? Num.canvas_dim (Rect.height rect)) with true by (symmetry; apply Z.ltb_lt; lia).
  replace (i <? 0 + Qceiling (Rect.width rect)) with true by (symmetry; apply Z.ltb_lt; lia).
  replace (j <? 0 + Qceiling (Rect.height rect)) with true by (symmetry; apply Z.ltb_lt; lia).
  reflexivity.
Qed.

Variable br : Browser.

Lemma paint_size (ox oy : Q) (c : Canvas.t) (layer : MapLayer.t) :
  Canvas.width (paint br (drawLayer ox oy) c layer) = Canvas.width c
  /\ Canvas.height (paint br (drawLayer ox oy) c layer) = Canvas.height c.
Proof.
  unfold paint. destruct (decode br (MapLayer.imageData layer)); split; reflexivity.
Qed.

Lemma settle_opaque (ox oy : Q) (requests : list MapLayer.t) (w h : Z) (c : Canvas.t) (k : nat) :
  opaque_canvas w h c -> opaque_canvas w h (settle br (drawLayer ox oy) requests c k).
Proof.
  intros (Hw & Hh & Ha).
  destruct (requests !! k) as [layer |] eqn:Hk.
  - rewrite (settle_paint br _ _ _ _ _ Hk).
    destruct (paint_size ox oy c layer) as [Ew Eh].
    split; [congruence |]. split; [congruence |].
    intros i j Hin. rewrite paint_inside in Hin. rewrite paint_px, Hin.
    destruct (shows br ox oy layer i j); [apply over_opaque |]; apply Ha, Hin.
  - unfold settle. rewrite Hk. repeat split; assumption.
Qed.

Lemma settle_all_opaque (ox oy : Q) (requests : list MapLayer.t) (w h : Z)
    (events : list nat) (loadedCount : nat) (c c' : Canvas.t) :
  opaque_canvas w h c ->
  settle_all br (drawLayer ox oy) requests loadedCount c events = Some c' ->
  opaque_canvas w h c'.
Proof.
  revert loadedCount c. induction events as [| k events IH]; intros n c Hc; [discriminate |].
  cbn [settle_all].
  destruct (S n =? length requests)%nat.
  - intros [= <-]. apply settle_opaque, Hc.
  - apply IH, settle_opaque, Hc.
Qed.

End OpaqueContext.

Section OpaqueContextResult.

Import ImageUtils.

(** X13.  The context images are opaque.  Whatever the layers are and in whatever
    order their images load, the canvas [getCompositeRect] resolves with has
    the size of the rectangle and no pixel that is transparent or
    translucent: the black fill shows wherever the layers leave a gap.  It
    resolves once every request has fired its event. *)
Theorem compositeRect_opaque (br : Browser) (events : list nat) (rect : Rect.t)
    (layers : list MapLayer.t) :
  (0 <= Rect.width rect)%Q -> (0 <= Rect.height rect)%Q ->
  (forall c, compositeRect_canvas br events rect layers = Some c ->
     Canvas.width c = Num.canvas_dim (Rect.width rect)
     /\ Canvas.height c = Num.canvas_dim (Rect.height rect)
     /\ forall i j, Canvas.inside c i j = true -> A (Canvas.px c i j) = 255)
  /\ (schedule (compositeRect_requests layers) events ->
      exists c, compositeRect_canvas br events rect layers = Some c).
Proof.
  intros Hw Hh. split.
  - intros c Hc. unfold compositeRect_canvas in Hc. fold (backdrop rect) in Hc.
    assert (H0 : opaque_canvas (Num.canvas_dim (Rect.width rect))
                   (Num.canvas_dim (Rect.height rect)) (backdrop rect)).
    { split; [reflexivity |]. split; [reflexivity |].
      intros i j Hin. rewrite backdrop_opaque by assumption. reflexivity. }
    destruct (length (compositeRect_requests layers) =? 0)%nat.
    + injection Hc as <-. exact H0.
    + exact (settle_all_opaque br _ _ _ _ _ _ _ _ _ H0 Hc).
  - intros Hs. rewrite (compositeRect_any_order br events rect layers Hs). eexists. reflexivity.
Qed.

Lemma compositeRect_opaque_witness :
  (fun c => A (Canvas.px c 0 0))
    <$> compositeRect_canvas Samples.images [1; 0]%nat Samples.unit_rect
          [Samples.redLayer; Samples.blueLayer]
  = Some 255.
Proof.
  destruct (compositeRect_opaque Samples.images [1; 0]%nat Samples.unit_rect
              [Samples.redLayer; Samples.blueLayer]) as [H [c Hc]].
  - discriminate.
  - discriminate.
  - apply Permutation_swap.
  - rewrite Hc. cbn [fmap option_fmap option_map]. f_equal.
    destruct (H c Hc) as (_ & _ & Ha). apply Ha.
    destruct (H c Hc) as (Ew & Eh & _). unfold Canvas.inside. rewrite Ew, Eh. reflexivity.
Defined.

(** X14.  Hidden layers leave no trace: the context images, the merged export and
    the exported files are those of the scene with the hidden layers
    removed, although [getCompositeRect] filters after sorting and
    [compositeLayers] before. *)
Theorem hidden_layers_ignored (br : Browser) (events : list nat) (rect : Rect.t)
    (w h : Q) (layers : list MapLayer.t) :
  let shown := filter (fun l => MapLayer.visible l = true) layers in
  compositeRect_canvas br events rect layers = compositeRect_canvas br events rect shown
  /\ compositeLayers_canvas br events w h layers = compositeLayers_canvas br events w h shown
  /\ ExportZip.layer_files layers = ExportZip.layer_files shown
  /\ (forall l, l ∈ compositeRect_requests layers -> MapLayer.visible l = true).
Proof.
  intros shown.
  assert (I : filter (fun l => MapLayer.visible l = true) shown = shown).
  { unfold shown. apply list_filter_filter_l. intros l Hl. exact Hl. }
  assert (R : compositeRect_requests shown = compositeRect_requests layers).
  { rewrite !requests_agree. unfold compositeLayers_requests. rewrite I. reflexivity. }
  split; [| split; [| split]].
  - unfold compositeRect_canvas. rewrite R. reflexivity.
  - unfold compositeLayers_canvas. rewrite I. reflexivity.
  - unfold ExportZip.layer_files. rewrite I. reflexivity.
  - intros l Hl. apply requests_elem in Hl as [Hv _]. exact Hv.
Qed.

End OpaqueContextResult.

Section ExportBounds.

Import ImageUtils.

Lemma Qminb_spec (a b : Q) :
  (Qminb a b <= a)%Q /\ (Qminb a b <= b)%Q /\ (Qminb a b = a \/ Qminb a b = b).
Proof.
  unfold Qminb. destruct (Qle_bool a b) eqn:E.
  - apply Qle_bool_iff in E. split; [apply Qle_refl |]. split; [exact E | left; reflexivity].
  - assert (H : (b <= a)%Q).
    { destruct (Qlt_le_dec b a) as [H | H]; [apply Qlt_le_weak, H |].
      apply Qle_bool_iff in H. congruence. }
    split; [exact H |]. split; [apply Qle_refl | right; reflexivity].
Qed.

Lemma Math_max_spec (a b : Q) :
  (a <= Num.Math_max a b)%Q /\ (b <= Num.Math_max a b)%Q
  /\ (Num.Math_max a b = a \/ Num.Math_max a b = b).
Proof.
  unfold Num.Math_max. destruct (Qle_bool a b) eqn:E.
  - apply Qle_bool_iff in E. split; [exact E |]. split; [apply Qle_refl | right; reflexivity].
  - assert (H : (b <= a)%Q).
    { destruct (Qlt_le_dec b a) as [H | H]; [apply Qlt_le_weak, H |].
      apply Qle_bool_iff in H. congruence. }
    split; [apply Qle_refl |]. split; [exact H | left; reflexivity].
Qed.

Lemma bounding_box_first (l : MapLayer.t) :
  exists b, grow None l = Some b /\ bounding_box [l] b.
Proof.
  eexists. split; [reflexivity |]. split; [| repeat split].
  - intros x Hx. apply list_elem_of_singleton in Hx as ->. cbn.
    split; [apply Qle_refl |]. split; [apply Qle_refl |]. split; apply Qle_refl.
  - exists l. split; [apply list_elem_of_singleton; reflexivity | reflexivity].
  - exists l. split; [apply list_elem_of_singleton; reflexivity | reflexivity].
  - exists l. split; [apply list_elem_of_singleton; reflexivity | reflexivity].
  - exists l. split; [apply list_elem_of_singleton; reflexivity | reflexivity].
Qed.

Lemma bounding_box_grow (seen : list MapLayer.t) (b : Bounds) (l : MapLayer.t) :
  bounding_box seen b ->
  exists b', grow (Some b) l = Some b' /\ bounding_box (seen ++ [l]) b'.
Proof.
  intros (Hall & (l1 & I1 & E1) & (l2 & I2 & E2) & (l3 & I3 & E3) & (l4 & I4 & E4)).
  eexists. split; [reflexivity |].
  destruct (Qminb_spec (bMinX b) (MapLayer.x l)) as (A1 & A2 & A3).
  destruct (Qminb_spec (bMinY b) (MapLayer.y l)) as (B1 & B2 & B3).
  destruct (Math_max_spec (bMaxX b) (MapLayer.x l + MapLayer.width l)) as (C1 & C2 & C3).
  destruct (Math_max_spec (bMaxY b) (MapLayer.y l + MapLayer.height l)) as (D1 & D2 & D3).
  assert (Hl : l ∈ seen ++ [l]).
  { apply elem_of_app. right. apply list_elem_of_singleton. reflexivity. }
  split; [| split; [| split; [| split]]]; cbn [bMinX bMinY bMaxX bMaxY].
  - intros x Hx. apply elem_of_app in Hx as [Hx | Hx].
    + destruct (Hall x Hx) as (H1 & H2 & H3 & H4).
      split; [eapply Qle_trans; [exact A1 | exact H1] |].
      split; [eapply Qle_trans; [exact B1 | exact H2] |].
      split; [eapply Qle_trans; [exact H3 | exact C1] | eapply Qle_trans; [exact H4 | exact D1]].
    + apply list_elem_of_singleton in Hx as ->.
      split; [exact A2 |]. split; [exact B2 |]. split; [exact C2 | exact D2].
  - destruct A3 as [-> | ->]; [exists l1 | exists l]; split; try assumption; try reflexivity.
    apply elem_of_app. left. exact I1.
  - destruct B3 as [-> | ->]; [exists l2 | exists l]; split; try assumption; try reflexivity.
    apply elem_of_app. left. exact I2.
  - destruct C3 as [-> | ->]; [exists l3 | exists l]; split; try assumption; try reflexivity.
    apply elem_of_app. left. exact I3.
  - destruct D3 as [-> | ->]; [exists l4 | exists l]; split; try assumption; try reflexivity.
    apply elem_of_app. left. exact I4.
Qed.

Lemma bounding_box_fold (rest seen : list MapLayer.t) (b : Bounds) :
  bounding_box seen b ->
  exists b', foldl grow (Some b) rest = Some b' /\ bounding_box (seen ++ rest) b'.
Proof.
  revert seen b. induction rest as [| l rest IH]; intros seen b Hb.
  - exists b. rewrite app_nil_r. auto.
  - destruct (bounding_box_grow seen b l Hb) as (b1 & E1 & H1).
    destruct (IH (seen ++ [l]) b1 H1) as (b' & E & H').
    exists b'. cbn [foldl]. rewrite E1. split; [exact E |].
    rewrite <- app_assoc in H'. exact H'.
Qed.

(** X15.  The merged export.  With no visible layer the canvas has the size that
    was asked for, which for the export ([compositeLayers(0, 0, layers)]) is
    an empty canvas.  Otherwise the export covers the bounding box of the
    visible layers exactly: the canvas has its width and height, and every
    layer is drawn at its offset from the top-left corner of the box. *)
Theorem export_covers_bounding_box (br : Browser) (events : list nat)
    (layers : list MapLayer.t) :
  let shown := filter (fun l => MapLayer.visible l = true) layers in
  (shown = [] ->
     forall width height,
       compositeLayers_canvas br events width height layers
       = Some (Canvas.create (Num.canvas_dim width) (Num.canvas_dim height)))
  /\ (shown = [] -> compositeLayers_canvas br events 0 0 layers = Some (Canvas.create 0 0))
  /\ (shown <> [] ->
      exists b, bounding_box shown b
        /\ compositeLayers_canvas br events 0 0 layers
           = settle_all br (drawLayer (bMinX b) (bMinY b)) (sort_layers shown) 0
               (Canvas.create (Num.canvas_dim (bMaxX b - bMinX b))
                              (Num.canvas_dim (bMaxY b - bMinY b)))
               events).
Proof.
  intros shown. split; [| split].
  - intros E width height. unfold compositeLayers_canvas. fold shown. rewrite E. reflexivity.
  - intros E. unfold compositeLayers_canvas. fold shown. rewrite E. reflexivity.
  - intros Hne. unfold compositeLayers_canvas. fold shown.
    destruct shown as [| l rest]; [congruence |].
    destruct (bounding_box_first l) as (b0 & E0 & H0).
    destruct (bounding_box_fold rest [l] b0 H0) as (b & E & H).
    exists b. split; [exact H |].
    cbn [foldl]. rewrite E0, E. reflexivity.
Qed.

End ExportBounds.

Section ImageFailures.

Import App.

(** X16.  An image that does not decode.  The functions that install [onerror]
    reject; [createDifferenceLayer] and [getContentBounds] install none and
    never settle.  A generation from a brush mask that does not decode
    therefore stays in progress for ever: no error is shown and
    [isGenerating] is not reset. *)
Theorem undecodable_image_outcomes (br : Browser) (src : string) :
  decode br src = None ->
  ImageUtils.removeMagentaBackground br src = Throw Rejected
  /\ (forall x y w h tw th, ImageUtils.cropAndResize br src x y w h tw th = Throw Rejected)
  /\ (forall other, ImageUtils.overlayImage br src other = Throw Rejected
                    /\ ImageUtils.overlayImage br other src = Throw Rejected)
  /\ (forall other, ImageUtils.createDifferenceLayer br src other = Pending
                    /\ ImageUtils.createDifferenceLayer br other src = Pending)
  /\ (forall canvasW canvasH, ImageUtils.getContentBounds br src canvasW canvasH = Pending)
  /\ (forall st w, browser w = br -> blank (prompt st) = false ->
        brushMask st = Some src -> src <> "" -> activeTool st = brush ->
        handleGenerateAsset st w = (setError None (setIsGenerating true st), w)).
Proof.
  intros Hd. split; [| split; [| split; [| split; [| split]]]].
  - unfold ImageUtils.removeMagentaBackground. rewrite Hd. reflexivity.
  - intros. unfold ImageUtils.cropAndResize. rewrite Hd. reflexivity.
  - intros other. unfold ImageUtils.overlayImage. rewrite Hd.
    destruct (decode br other); split; reflexivity.
  - intros other. unfold ImageUtils.createDifferenceLayer. rewrite Hd.
    destruct (decode br other); split; reflexivity.
  - intros. unfold ImageUtils.getContentBounds. rewrite Hd. reflexivity.
  - intros st w Hbr Hb Hm Hne Ht. unfold handleGenerateAsset. rewrite Hb.
    unfold generate. cbn [brushMask activeTool setError setIsGenerating].
    rewrite Hm, Ht. cbn [GeminiService.present is_brush default].
    replace (String.eqb src "") with false by (symmetry; apply String.eqb_neq; exact Hne).
    cbn [negb andb]. unfold generate_brush, mbind, Async_bind, getContentBounds.
    rewrite Hbr. unfold ImageUtils.getContentBounds. change (id src) with src.
    rewrite Hd. reflexivity.
Qed.

Lemma undecodable_image_outcomes_witness :
  ImageUtils.removeMagentaBackground Samples.images "torn.png" = Throw Rejected
  /\ ImageUtils.getContentBounds Samples.images "torn.png" 1024 1024 = Pending.
Proof.
  destruct (undecodable_image_outcomes Samples.images "torn.png") as (H1 & _ & _ & _ & H2 & _).
  - reflexivity.
  - split; [exact H1 | apply H2].
Defined.

End ImageFailures.

Section CropUnscaled.

Import ImageUtils.

Lemma Qfloor_half (k : Z) : Qfloor (inject_Z k + (1 # 2)) = k.
Proof.
  unfold Qfloor, Qplus, inject_Z. cbn [Qnum Qden].
  change (Z.pos (1 * 2)) with 2. Z.to_euclidean_division_equations. lia.
Qed.

Lemma centre_in_range (i w : Z) :
  0 <= i < w ->
  Qle_bool 0 (inject_Z i + (1 # 2)) = true
  /\ Num.Qltb (inject_Z i + (1 # 2)) (0 + inject_Z w) = true.
Proof.
  intros Hi. split.
  - apply Qle_bool_iff. unfold Qle, Qplus, inject_Z. cbn [Qnum Qden]. lia.
  - apply Qltb_lt. unfold Qlt, Qplus, inject_Z. cbn [Qnum Qden]. lia.
Qed.

Lemma unscaled_source (x i w : Z) :
  w <> 0 ->
  Qfloor (inject_Z x + (inject_Z i + (1 # 2) - 0) * inject_Z w / inject_Z w) = x + i.
Proof.
  intros Hw. rewrite <- (Qfloor_half (x + i)). apply Qfloor_comp.
  rewrite inject_Z_plus. field.
  intros E. apply Hw. unfold Qeq, inject_Z in E. cbn [Qnum Qden] in E. lia.
Qed.

(** X17.  A crop that is not resized is a translation.  When the target size is
    the size of the source rectangle and the rectangle starts at a whole
    pixel, pixel [(i, j)] of the result is pixel [(x + i, y + j)] of the
    image, and transparent where the rectangle reaches beyond the image. *)
Theorem cropAndResize_unscaled (base64Image : string) (img : Raster) (x y w h i j : Z) :
  0 < w < 2 ^ 32 -> 0 < h < 2 ^ 32 -> 0 <= i < w -> 0 <= j < h ->
  let c := cropAndResize_canvas base64Image img (inject_Z x) (inject_Z y)
             (inject_Z w) (inject_Z h) (inject_Z w) (inject_Z h) in
  Canvas.width c = w /\ Canvas.height c = h
  /\ Canvas.px c i j
     = if (0 <=? x + i) && (x + i <? rw img) && (0 <=? y + j) && (y + j <? rh img)
       then over (rpx img (x + i) (y + j)) clear
       else clear.
Proof.
  intros Hw Hh Hi Hj c.
  assert (Dw : Num.canvas_dim (inject_Z w) = w).
  { unfold Num.canvas_dim, Num.truncate. cbn [inject_Z Qnum Qden].
    rewrite Z.quot_1_r. apply Z.mod_small. lia. }
  assert (Dh : Num.canvas_dim (inject_Z h) = h).
  { unfold Num.canvas_dim, Num.truncate. cbn [inject_Z Qnum Qden].
    rewrite Z.quot_1_r. apply Z.mod_small. lia. }
  split; [exact Dw |]. split; [exact Dh |].
  unfold c, cropAndResize_canvas, Canvas.drawImage9, Canvas.px at 1, Canvas.inside.
  cbn [Canvas.bitmap rpx Canvas.width Canvas.height Canvas.create rw rh].
  rewrite Dw, Dh.
  replace (0 <=? i) with true by (symmetry; apply Z.leb_le; lia).
  replace (i <? w) with true by (symmetry; apply Z.ltb_lt; lia).
  replace (0 <=? j) with true by (symmetry; apply Z.leb_le; lia).
  replace (j <? h) with true by (symmetry; apply Z.ltb_lt; lia).
  cbn [andb]. unfold Canvas.sample.
  destruct (centre_in_range i w Hi) as [-> ->].
  destruct (centre_in_range j h Hj) as [-> ->].
  cbn [andb]. rewrite !unscaled_source by lia.
  destruct ((0 <=? x + i) && (x + i <? rw img) && (0 <=? y + j) && (y + j <? rh img));
    reflexivity.
Qed.

Lemma cropAndResize_unscaled_witness :
  Canvas.px (cropAndResize_canvas "red.png" (Samples.solid 4 4 Samples.red) 1 1 2 2 2 2) 1 1
    = Samples.red
  /\ Canvas.px (cropAndResize_canvas "red.png" (Samples.solid 4 4 Samples.red) 3 3 2 2 2 2) 1 1
     = clear.
Proof.
  split.
  - destruct (cropAndResize_unscaled "red.png" (Samples.solid 4 4 Samples.red) 1 1 2 2 1 1)
      as (_ & _ & H); [lia | lia | lia | lia |].
    exact H.
  - destruct (cropAndResize_unscaled "red.png" (Samples.solid 4 4 Samples.red) 3 3 2 2 1 1)
      as (_ & _ & H); [lia | lia | lia | lia |].
    exact H.
Defined.

End CropUnscaled.

(** ** App.tsx: navigation, base generation and the selection context *)

Section Tiles.

Import App.

Lemma at_itself (q : Q) (bound : Q) : (0 < bound)%Q -> Num.Qltb (Qabs (q - q)) bound = true.
Proof.
  intros Hb. apply Qltb_lt.
  assert (E : (Qabs (q - q) == 0)%Q).
  { setoid_replace (q - q)%Q with 0%Q using relation Qeq by ring. reflexivity. }
  rewrite E. exact Hb.
Qed.

Lemma baseExists_new (ls : list MapLayer.t) (l : MapLayer.t) :
  MapLayer.type l = base ->
  baseExists (ls ++ [l]) (MapLayer.x l) (MapLayer.y l) = true.
Proof.
  intros Ht. unfold baseExists. rewrite existsb_app. apply orb_true_iff. right.
  cbn [existsb]. unfold is_base. rewrite Ht. cbn [LayerType_eqb andb].
  rewrite !at_itself by reflexivity. reflexivity.
Qed.

(** X20.  Navigation.  The camera always moves to the neighbouring tile.  If a
    base is there already nothing else happens and nothing is asked of the
    collaborator; otherwise the scene is either unchanged or has one base
    layer more, at the end, and then a base exists at the new camera
    position. *)
Theorem navigate_reaches_base (direction : Direction) (st : State) (w : World) :
  let gx := fst (nextGrid direction st) in
  let gy := snd (nextGrid direction st) in
  let tx := inject_Z (gx * CANVAS_WIDTH) in
  let ty := inject_Z (gy * CANVAS_HEIGHT) in
  let st' := fst (handleNavigate direction st w) in
  viewX st' = tx /\ viewY st' = ty
  /\ (baseExists (layers st) tx ty = true ->
      handleNavigate direction st w = (setViewState tx ty st, w))
  /\ (layers st' = layers st
      \/ exists image,
           layers st' = layers st ++ [navigate_layer gx gy image]
           /\ baseExists (layers st') (viewX st') (viewY st') = true
           /\ isGenerating st' = false).
Proof.
  intros gx gy tx ty st'. unfold st', tx, ty, gx, gy, handleNavigate.
  destruct (nextGrid direction st) as [nx ny]. cbn [fst snd].
  cbn [layers setViewState setIsGenerating].
  destruct (baseExists (layers st) (inject_Z (nx * CANVAS_WIDTH))
              (inject_Z (ny * CANVAS_HEIGHT))) eqn:Hb.
  - cbn [fst]. split; [reflexivity |]. split; [reflexivity |]. split; [reflexivity |].
    left. reflexivity.
  - match goal with |- context [match ?t w with _ => _ end] => destruct (t w) as [[url | e |] w'] end;
      cbn [fst]; (split; [reflexivity |]); (split; [reflexivity |]);
      (split; [discriminate |]).
    + right. exists url. split; [reflexivity |]. split; [| reflexivity].
      cbn [layers viewX viewY setIsGenerating addToHistory setLayers setHistoryIndex setHistory
           setViewState].
      apply (baseExists_new (layers st) (navigate_layer nx ny url)). reflexivity.
    + left. reflexivity.
    + left. reflexivity.
Qed.

(** X21.  A new base for the tile under the camera.  When the collaborator
    answers, the new scene is the new base layer followed by the old scene
    without the base layers within 10 units of the tile's corner: these are
    dropped, and every other layer, base or object, is kept in its place
    in the order. *)
Theorem generate_base_replaces (st : State) (w w' : World) (image : string) :
  blank (basePrompt st) = false ->
  GeminiService.generateBaseTexture (basePrompt st) (mapSettings st) w = (Ok image, w') ->
  let snapX := Num.Math_round (viewX st / inject_Z CANVAS_WIDTH) * CANVAS_WIDTH in
  let snapY := Num.Math_round (viewY st / inject_Z CANVAS_HEIGHT) * CANVAS_HEIGHT in
  let st' := fst (handleGenerateBase st w) in
  let kept := filter (fun l => replaced_base snapX snapY l = false) (layers st) in
  layers st' = base_layer snapX snapY (basePrompt st) image w' :: kept
  /\ (forall l, replaced_base snapX snapY l = true <->
        MapLayer.type l = base
        /\ (Qabs (MapLayer.x l - inject_Z snapX) < 10)%Q
        /\ (Qabs (MapLayer.y l - inject_Z snapY) < 10)%Q)
  /\ (forall l, l ∈ kept <->
        l ∈ layers st
        /\ ~ (MapLayer.type l = base
              /\ (Qabs (MapLayer.x l - inject_Z snapX) < 10)%Q
              /\ (Qabs (MapLayer.y l - inject_Z snapY) < 10)%Q))
  /\ filter (fun l => is_base l = false) kept
     = filter (fun l => is_base l = false) (layers st)
  /\ basePrompt st' = "" /\ lastBasePrompt st' = basePrompt st
  /\ isGenerating st' = false.
Proof.
  intros Hb Hg snapX snapY st' kept.
  assert (R : forall l, replaced_base snapX snapY l = true <->
                MapLayer.type l = base
                /\ (Qabs (MapLayer.x l - inject_Z snapX) < 10)%Q
                /\ (Qabs (MapLayer.y l - inject_Z snapY) < 10)%Q).
  { intros l. unfold replaced_base. rewrite !andb_true_iff, is_base_true, !Qltb_lt. tauto. }
  unfold st', handleGenerateBase. rewrite Hb.
  cbn [basePrompt mapSettings viewX viewY layers
       setLastBasePrompt setError setIsGenerating setIsBaseModalOpen].
  rewrite Hg. cbn [fst]. fold snapX snapY.
  split; [| split; [exact R |]; split; [| split; [| repeat split]]].
  - cbn [layers setIsGenerating setBasePrompt addToHistory setLayers setHistoryIndex setHistory].
    f_equal. apply list_filter_iff. intros l.
    fold (replaced_base snapX snapY l).
    rewrite negb_true_iff. reflexivity.
  - intros l. unfold kept. rewrite list_elem_of_filter, <- R, not_true_iff_false. tauto.
  - unfold kept. rewrite list_filter_filter. apply list_filter_iff. intros l.
    split; [tauto |]. intros Ho. split; [exact Ho |].
    unfold replaced_base. rewrite Ho. reflexivity.
Qed.

Lemma generate_base_replaces_witness :
  (MapLayer.name <$> layers (fst (handleGenerateBase
                                    (setBasePrompt "desert" Samples.withObject)
                                    Samples.answering)))
  = ["Base: desert"; "a watch tower"].
Proof.
  destruct (generate_base_replaces (setBasePrompt "desert" Samples.withObject)
              Samples.answering
              (snd (GeminiService.generateBaseTexture "desert" (mapSettings App.initial)
                      Samples.answering))
              "data:image/png;base64,iVBORw0KGgo=") as (E & _).
  - reflexivity.
  - reflexivity.
  - rewrite E. reflexivity.
Defined.

End Tiles.

Section SelectionContext.

Import App.

(** X22.  Generation from a rectangle selection.  The context that is sent, and
    the layer that comes back, is the square whose side is the longer side
    of the selection and whose centre is the centre of the selection: it
    contains the selection. *)
Theorem selection_context_square (sel : Rect.t) (st : State) (w w' : World) (g : Generated) :
  generate_selection sel st w = (Ok g, w') ->
  let size := Num.Math_max (Rect.width sel) (Rect.height sel) in
  genW g = size /\ genH g = size
  /\ (Rect.width sel <= size)%Q /\ (Rect.height sel <= size)%Q
  /\ (size = Rect.width sel \/ size = Rect.height sel)
  /\ (genX g + size / 2 == Rect.x sel + Rect.width sel / 2)%Q
  /\ (genY g + size / 2 == Rect.y sel + Rect.height sel / 2)%Q
  /\ (genX g <= Rect.x sel)%Q /\ (Rect.x sel + Rect.width sel <= genX g + size)%Q
  /\ (genY g <= Rect.y sel)%Q /\ (Rect.y sel + Rect.height sel <= genY g + size)%Q
  /\ clearBrush g = false.
Proof.
  intros Hg size.
  destruct (Math_max_spec (Rect.width sel) (Rect.height sel)) as (Hw & Hh & Hc).
  fold size in Hw, Hh, Hc.
  assert (E : genX g = (Rect.x sel + Rect.width sel / 2 - size / 2)%Q
              /\ genY g = (Rect.y sel + Rect.height sel / 2 - size / 2)%Q
              /\ genW g = size /\ genH g = size /\ clearBrush g = false).
  { unfold generate_selection, mbind, Async_bind in Hg.
    repeat match type of Hg with
           | context [let (_, _) := ?t in _] => destruct t as [[? | ? |] ?]; try discriminate
           end.
    injection Hg as <- _. repeat split. }
  destruct E as (Ex & Ey & Ew & Eh & Ec).
  split; [exact Ew |]. split; [exact Eh |]. split; [exact Hw |]. split; [exact Hh |].
  split; [tauto |]. rewrite Ex, Ey. unfold Qdiv. change (/ 2)%Q with (1 # 2)%Q.
  split; [lra |]. split; [lra |]. split; [lra |]. split; [lra |]. split; [lra |].
  split; [lra | exact Ec].
Qed.

Lemma selection_context_square_witness :
  exists g w',
    generate_selection {| Rect.x := 100; Rect.y := 200; Rect.width := 300; Rect.height := 100 |}
      Samples.prompted Samples.answering = (Ok g, w')
    /\ genW g = 300%Q /\ (genY g <= 200)%Q.
Proof.
  destruct (generate_selection
              {| Rect.x := 100; Rect.y := 200; Rect.width := 300; Rect.height := 100 |}
              Samples.prompted Samples.answering) as [[g | e |] w'] eqn:E.
  - exists g, w'. split; [reflexivity |].
    destruct (selection_context_square _ _ _ _ _ E) as (Hw & _ & _ & _ & _ & _ & _ & _ & _ & Hy & _).
    split; [exact Hw | exact Hy].
  - vm_compute in E. discriminate.
  - vm_compute in E. discriminate.
Defined.

End SelectionContext.

(** ** components/MapCanvas.tsx: what a click hits *)

Section HitTest.

Import MapCanvas.

Lemma insert_desc_elem (a x : MapLayer.t) (l : list MapLayer.t) :
  x ∈ insert_desc a l <-> x = a \/ x ∈ l.
Proof.
  induction l as [| b l IH]; cbn [insert_desc].
  - rewrite list_elem_of_singleton, elem_of_nil. tauto.
  - destruct (MapLayer.zIndex b - MapLayer.zIndex a <=? 0).
    + rewrite elem_of_cons. tauto.
    + rewrite !elem_of_cons, IH. tauto.
Qed.

Lemma sort_desc_elem (x : MapLayer.t) (l : list MapLayer.t) : x ∈ sort_desc l <-> x ∈ l.
Proof.
  induction l as [| a l IH]; [reflexivity |].
  change (sort_desc (a :: l)) with (insert_desc a (sort_desc l)).
  rewrite insert_desc_elem, elem_of_cons, IH. tauto.
Qed.

Lemma insert_desc_sorted (a : MapLayer.t) (l : list MapLayer.t) :
  StronglySorted (fun x y => below_or_level y x) l ->
  StronglySorted (fun x y => below_or_level y x) (insert_desc a l).
Proof.
  induction 1 as [| b l Hs IH Hb]; cbn [insert_desc]; [repeat constructor |].
  destruct (MapLayer.zIndex b - MapLayer.zIndex a <=? 0) eqn:E.
  - apply Z.leb_le in E. constructor; [constructor; assumption |].
    constructor; [unfold below_or_level; lia |].
    eapply Forall_impl; [exact Hb |]. unfold below_or_level. intros y Hy. cbn in Hy |- *. lia.
  - apply Z.leb_gt in E. constructor; [exact IH |].
    apply Forall_forall. intros y Hy. apply insert_desc_elem in Hy as [-> | Hy].
    + unfold below_or_level. lia.
    + rewrite Forall_forall in Hb. apply Hb, Hy.
Qed.

Lemma sort_desc_sorted (l : list MapLayer.t) :
  StronglySorted (fun x y => below_or_level y x) (sort_desc l).
Proof.
  induction l as [| a l IH]; [constructor |].
  change (sort_desc (a :: l)) with (insert_desc a (sort_desc l)).
  apply insert_desc_sorted, IH.
Qed.

Lemma find_first {T : Type} (R : T -> T -> Prop) (f : T -> bool) (l : list T) (x : T) :
  StronglySorted R l -> List.find f l = Some x ->
  x ∈ l /\ f x = true /\ forall y, y ∈ l -> f y = true -> y = x \/ R x y.
Proof.
  induction 1 as [| a l Hs IH Ha]; cbn [List.find]; [discriminate |].
  destruct (f a) eqn:E.
  - intros [= <-]. split; [apply elem_of_cons; auto |]. split; [exact E |].
    intros y Hy _. apply elem_of_cons in Hy as [-> | Hy]; [auto |].
    right. rewrite Forall_forall in Ha. apply Ha, Hy.
  - intros Hx. destruct (IH Hx) as (Hin & Hf & Htop).
    split; [apply elem_of_cons; auto |]. split; [exact Hf |].
    intros y Hy Hfy. apply elem_of_cons in Hy as [-> | Hy]; [congruence |].
    apply Htop; assumption.
Qed.

Lemma find_none_elem {T : Type} (f : T -> bool) (l : list T) :
  List.find f l = None <-> forall y, y ∈ l -> f y = false.
Proof.
  induction l as [| a l IH]; cbn [List.find].
  - split; [intros _ y Hy; apply elem_of_nil in Hy; tauto | reflexivity].
  - destruct (f a) eqn:E.
    + split; [discriminate |]. intros H. rewrite (H a) in E by (apply elem_of_cons; auto).
      discriminate.
    + rewrite IH. split.
      * intros H y Hy. apply elem_of_cons in Hy as [-> | Hy]; auto.
      * intros H y Hy. apply H, elem_of_cons. auto.
Qed.

(** The layer a click hits is the top one: it is visible, it contains the
    point, and no visible layer that contains the point has a higher
    z-order.  Nothing is hit exactly when no visible layer contains the
    point. *)
Lemma hit_top (layers : list MapLayer.t) (wx wy : Q) :
  (forall l, hit layers wx wy = Some l ->
     l ∈ layers /\ MapLayer.visible l = true /\ contains l wx wy = true
     /\ forall l', l' ∈ layers -> MapLayer.visible l' = true -> contains l' wx wy = true ->
                   MapLayer.zIndex l' <= MapLayer.zIndex l)
  /\ (hit layers wx wy = None <->
      forall l, l ∈ layers -> MapLayer.visible l = true -> contains l wx wy = false).
Proof.
  unfold hit. split.
  - intros l Hl.
    destruct (find_first _ _ _ _ (sort_desc_sorted layers) Hl) as (Hin & Hf & Htop).
    apply andb_true_iff in Hf as [Hv Hc]. rewrite sort_desc_elem in Hin.
    split; [exact Hin |]. split; [exact Hv |]. split; [exact Hc |].
    intros l' Hin' Hv' Hc'.
    destruct (Htop l') as [-> | H];
      [rewrite sort_desc_elem; exact Hin' | rewrite Hv', Hc'; reflexivity | lia | exact H].
  - rewrite find_none_elem. split.
    + intros H l Hin Hv. specialize (H l (proj2 (sort_desc_elem l layers) Hin)).
      rewrite Hv in H. exact H.
    + intros H l Hin. rewrite sort_desc_elem in Hin.
      destruct (MapLayer.visible l) eqn:Hv; [| reflexivity]. cbn [andb]. apply H; assumption.
Qed.

End HitTest.

Section PointerTool.

Import MapCanvas.

(** X26.  The pointer tool.  A mouse-down selects a layer only if that layer is
    of the scene, is an object, is visible and contains the point; the drag
    then starts from the position of that layer.  A base layer is never
    selected with the pointer: the selection is cleared instead.  The layer
    chosen is the selected one if it is visible and under the pointer; in
    every other case (no layer has the selected id, or the layer that has
    it is hidden or not under the pointer) it is the top layer under the
    pointer, and if no visible layer is under the pointer the selection is
    cleared. *)
Theorem pointer_selects_object (layers : list MapLayer.t) (selectedLayerId : option string)
    (wx wy : Q) :
  let d := pointer_down layers selectedLayerId wx wy in
  (forall id, selected d = Some id ->
     exists l, l ∈ layers /\ MapLayer.id l = id /\ MapLayer.type l = object
               /\ MapLayer.visible l = true /\ contains l wx wy = true
               /\ mode d = moving_layer
               /\ dragLayerStartPos d = Some (MapLayer.x l, MapLayer.y l))
  /\ (forall cs, List.find (has_id selectedLayerId) layers = Some cs ->
        MapLayer.visible cs = true -> contains cs wx wy = true ->
        selected d = match MapLayer.type cs with
                     | base => None
                     | object => Some (MapLayer.id cs)
                     end)
  /\ (List.find (has_id selectedLayerId) layers = None ->
      forall top, hit layers wx wy = Some top ->
        (forall l', l' ∈ layers -> MapLayer.visible l' = true -> contains l' wx wy = true ->
                    MapLayer.zIndex l' <= MapLayer.zIndex top)
        /\ selected d = match MapLayer.type top with
                        | base => None
                        | object => Some (MapLayer.id top)
                        end)
  /\ (forall cs, List.find (has_id selectedLayerId) layers = Some cs ->
        MapLayer.visible cs = false \/ contains cs wx wy = false ->
        forall top, hit layers wx wy = Some top ->
          (forall l', l' ∈ layers -> MapLayer.visible l' = true -> contains l' wx wy = true ->
                      MapLayer.zIndex l' <= MapLayer.zIndex top)
          /\ selected d = match MapLayer.type top with
                          | base => None
                          | object => Some (MapLayer.id top)
                          end)
  /\ ((forall cs, List.find (has_id selectedLayerId) layers = Some cs ->
         MapLayer.visible cs = false \/ contains cs wx wy = false) ->
      hit layers wx wy = None -> selected d = None)
  /\ ((forall l, l ∈ layers -> MapLayer.visible l = true -> contains l wx wy = false) ->
      selected d = None).
Proof.
  intros d.
  assert (T : forall l, pointer_target layers selectedLayerId wx wy = Some l ->
                        l ∈ layers /\ MapLayer.visible l = true /\ contains l wx wy = true).
  { intros l. unfold pointer_target.
    destruct (hit_top layers wx wy) as [Hhit _].
    destruct (List.find (has_id selectedLayerId) layers) as [cs |] eqn:Hcs.
    - destruct (MapLayer.visible cs && contains cs wx wy) eqn:E.
      + intros [= <-]. apply andb_true_iff in E as [Hv Hc].
        apply find_some in Hcs as [Hin _]. apply list_elem_of_In in Hin. auto.
      + intros H. destruct (Hhit l H) as (? & ? & ? & _). auto.
    - intros H. destruct (Hhit l H) as (? & ? & ? & _). auto. }
  assert (F : forall cs, List.find (has_id selectedLayerId) layers = Some cs ->
                MapLayer.visible cs = false \/ contains cs wx wy = false ->
                pointer_target layers selectedLayerId wx wy = hit layers wx wy).
  { intros cs Hcs Hout. unfold pointer_target. rewrite Hcs.
    replace (MapLayer.visible cs && contains cs wx wy) with false; [reflexivity |].
    symmetry. apply andb_false_iff. exact Hout. }
  split; [| split; [| split; [| split; [| split]]]].
  - intros id. unfold d, pointer_down.
    destruct (pointer_target layers selectedLayerId wx wy) as [l |] eqn:E; [| discriminate].
    destruct (T l eq_refl) as (Hin & Hv & Hc).
    destruct (MapLayer.type l) eqn:Ht; [discriminate |].
    cbn [selected mode dragLayerStartPos]. intros [= <-].
    exists l. repeat split; assumption.
  - intros cs Hcs Hv Hc. unfold d, pointer_down, pointer_target. rewrite Hcs, Hv, Hc.
    cbn [andb]. destruct (MapLayer.type cs); reflexivity.
  - intros Hnone top Htop. destruct (hit_top layers wx wy) as [Hhit _].
    destruct (Hhit top Htop) as (_ & _ & _ & Hz). split; [exact Hz |].
    unfold d, pointer_down, pointer_target. rewrite Hnone, Htop.
    destruct (MapLayer.type top); reflexivity.
  - intros cs Hcs Hout top Htop. destruct (hit_top layers wx wy) as [Hhit _].
    destruct (Hhit top Htop) as (_ & _ & _ & Hz). split; [exact Hz |].
    unfold d, pointer_down. rewrite (F cs Hcs Hout), Htop.
    destruct (MapLayer.type top); reflexivity.
  - intros Hout Hnone. unfold d, pointer_down.
    destruct (List.find (has_id selectedLayerId) layers) as [cs |] eqn:Hcs.
    + rewrite (F cs eq_refl (Hout cs eq_refl)), Hnone. reflexivity.
    + unfold pointer_target. rewrite Hcs, Hnone. reflexivity.
  - intros Hnone. unfold d, pointer_down.
    destruct (pointer_target layers selectedLayerId wx wy) as [l |] eqn:E; [| reflexivity].
    destruct (T l eq_refl) as (Hin & Hv & Hc). rewrite (Hnone l Hin Hv) in Hc. discriminate.
Qed.

(** X27.  The eraser edits the top visible layer under the pointer, whatever its
    type, and none if no visible layer is there. *)
Theorem eraser_edits_top_layer (layers : list MapLayer.t) (wx wy : Q) :
  (forall id, eraser_down layers wx wy = Some id ->
     exists l, l ∈ layers /\ MapLayer.id l = id
               /\ MapLayer.visible l = true /\ contains l wx wy = true
               /\ forall l', l' ∈ layers -> MapLayer.visible l' = true ->
                             contains l' wx wy = true ->
                             MapLayer.zIndex l' <= MapLayer.zIndex l)
  /\ (eraser_down layers wx wy = None <->
      forall l, l ∈ layers -> MapLayer.visible l = true -> contains l wx wy = false)
  /\ eraser_down [Samples.tileOrigin] 5 5 = Some "layer-base-0-0"
  /\ selected (pointer_down [Samples.tileOrigin] None 5 5) = None.
Proof.
  destruct (hit_top layers wx wy) as [Hhit Hnone]. unfold eraser_down.
  split; [| split; [| split; reflexivity]].
  - intros id. destruct (hit layers wx wy) as [l |] eqn:E; [| discriminate].
    cbn. intros [= <-]. exists l. destruct (Hhit l eq_refl) as (? & ? & ? & ?). auto.
  - rewrite <- Hnone. destruct (hit layers wx wy); cbn; split; congruence.
Qed.

End PointerTool.

(** ** components/LayerPanel.tsx: the grouping of the panel *)

Section Grouping.

Import LayerPanel.

Lemma has_key_eq (k : string) (g : Group) : has_key k g = true <-> group_key g = k.
Proof. unfold has_key, group_key. apply String.eqb_eq. Qed.

Lemma push_known (gs : list Group) (seen : list MapLayer.t) (l : MapLayer.t) :
  groups_of seen gs -> existsb (has_key (block_key l)) gs = true ->
  groups_of (seen ++ [l]) (push gs l).
Proof.
  intros (Hnd & Hmem & Hcov) Hex. unfold push. fold (block_key l). rewrite Hex.
  set (upd := fun g => if has_key (block_key l) g
                       then {| block := block g; members := members g ++ [l] |} else g).
  assert (Hkey : forall g, group_key (upd g) = group_key g).
  { intros g. unfold upd. destruct (has_key (block_key l) g); reflexivity. }
  split; [| split].
  - rewrite <- list_fmap_compose.
    rewrite (list_fmap_ext (group_key ∘ upd) group_key gs); [exact Hnd |].
    intros _ g _. apply Hkey.
  - intros g' Hg'. apply list_elem_of_fmap in Hg' as (g & -> & Hg).
    destruct (Hmem g Hg) as (Em & first & Hf & Hb).
    rewrite Hkey, filter_app. unfold upd.
    destruct (has_key (block_key l) g) eqn:E; cbn [members block].
    + apply has_key_eq in E. rewrite Em. split.
      * f_equal. rewrite filter_cons, decide_True by (symmetry; exact E). reflexivity.
      * exists first. split; [| exact Hb].
        rewrite <- Em. destruct (members g); [discriminate | exact Hf].
    + split.
      * rewrite filter_cons, decide_False, filter_nil, app_nil_r; [exact Em |].
        intros Ek. symmetry in Ek. apply has_key_eq in Ek. congruence.
      * exists first. auto.
  - intros x Hx. apply elem_of_app in Hx as [Hx | Hx].
    + destruct (Hcov x Hx) as (g & Hg & Ek). exists (upd g).
      split; [apply list_elem_of_fmap; eauto | rewrite Hkey; exact Ek].
    + apply list_elem_of_singleton in Hx as ->.
      apply existsb_exists in Hex as (g & Hg & Ek). apply list_elem_of_In in Hg.
      exists (upd g). split; [apply list_elem_of_fmap; eauto |].
      rewrite Hkey. apply has_key_eq, Ek.
Qed.

Lemma push_new (gs : list Group) (seen : list MapLayer.t) (l : MapLayer.t) :
  groups_of seen gs -> existsb (has_key (block_key l)) gs = false ->
  groups_of (seen ++ [l]) (push gs l).
Proof.
  intros (Hnd & Hmem & Hcov) Hex. unfold push. fold (block_key l). rewrite Hex.
  assert (Hfresh : forall g, g ∈ gs -> group_key g <> block_key l).
  { intros g Hg Ek. apply has_key_eq in Ek.
    assert (H : existsb (has_key (block_key l)) gs = true).
    { apply existsb_exists. exists g. split; [apply list_elem_of_In, Hg | exact Ek]. }
    congruence. }
  assert (Hnone : filter (fun x => block_key x = block_key l) seen = []).
  { destruct (filter (fun x => block_key x = block_key l) seen) as [| x rest] eqn:E;
      [reflexivity |].
    assert (Hx : x ∈ filter (fun x => block_key x = block_key l) seen).
    { rewrite E. apply elem_of_cons. left. reflexivity. }
    apply list_elem_of_filter in Hx as [Ek Hx].
    destruct (Hcov x Hx) as (g & Hg & Eg). exfalso. apply (Hfresh g Hg). congruence. }
  split; [| split].
  - rewrite fmap_app. apply NoDup_app. split; [exact Hnd |]. split; [| repeat constructor].
    + intros k Hk Hk'. apply list_elem_of_singleton in Hk'. subst k.
      apply list_elem_of_fmap in Hk as (g & Ek & Hg). apply (Hfresh g Hg). symmetry. exact Ek.
    + intros H. apply elem_of_nil in H. exact H.
  - intros g Hg. apply elem_of_app in Hg as [Hg | Hg].
    + destruct (Hmem g Hg) as (Em & Hf). split; [| exact Hf].
      rewrite filter_app, filter_cons, decide_False, filter_nil, app_nil_r; [exact Em |].
      intros Ek. apply (Hfresh g Hg). symmetry. exact Ek.
    + apply list_elem_of_singleton in Hg as ->. cbn [members block]. split.
      * change (group_key {| block := getBlockId l; members := [l] |}) with (block_key l).
        rewrite filter_app, Hnone, filter_cons, decide_True by reflexivity. reflexivity.
      * exists l. split; reflexivity.
  - intros x Hx. apply elem_of_app in Hx as [Hx | Hx].
    + destruct (Hcov x Hx) as (g & Hg & Ek). exists g.
      split; [apply elem_of_app; left; exact Hg | exact Ek].
    + apply list_elem_of_singleton in Hx as ->. eexists.
      split; [apply elem_of_app; right; apply list_elem_of_singleton; reflexivity | reflexivity].
Qed.

Lemma grouped_groups (layers : list MapLayer.t) : groups_of layers (grouped layers).
Proof.
  unfold grouped.
  assert (H : forall rest seen gs, groups_of seen gs ->
                groups_of (seen ++ rest) (foldl push gs rest)).
  { induction rest as [| l rest IH]; intros seen gs Hg.
    - rewrite app_nil_r. exact Hg.
    - cbn [foldl]. replace (seen ++ l :: rest) with ((seen ++ [l]) ++ rest)
        by (rewrite <- app_assoc; reflexivity).
      apply IH. destruct (existsb (has_key (block_key l)) gs) eqn:E;
        [apply push_known | apply push_new]; assumption. }
  apply (H layers [] []). split; [constructor |]. split.
  - intros g Hg. apply elem_of_nil in Hg. tauto.
  - intros l Hl. apply elem_of_nil in Hl. tauto.
Qed.

Lemma compare_blocks_le (a b : Group) : compare_blocks a b <= 0 <-> block_le a b.
Proof.
  unfold compare_blocks, block_le.
  destruct (by_ (block a) =? by_ (block b)) eqn:E;
    [apply Z.eqb_eq in E | apply Z.eqb_neq in E]; lia.
Qed.

Lemma insert_block_elem (a x : Group) (l : list Group) :
  x ∈ insert_block a l <-> x = a \/ x ∈ l.
Proof.
  induction l as [| b l IH]; cbn [insert_block].
  - rewrite list_elem_of_singleton, elem_of_nil. tauto.
  - destruct (compare_blocks a b <=? 0).
    + rewrite elem_of_cons. tauto.
    + rewrite !elem_of_cons, IH. tauto.
Qed.

Lemma insert_block_sorted (a : Group) (l : list Group) :
  StronglySorted block_le l -> StronglySorted block_le (insert_block a l).
Proof.
  induction 1 as [| b l Hs IH Hb]; cbn [insert_block]; [repeat constructor |].
  destruct (compare_blocks a b <=? 0) eqn:E.
  - apply Z.leb_le, compare_blocks_le in E. constructor; [constructor; assumption |].
    constructor; [exact E |].
    eapply Forall_impl; [exact Hb |]. unfold block_le in *. intros y Hy. cbn in Hy |- *. lia.
  - apply Z.leb_gt in E. constructor; [exact IH |].
    apply Forall_forall. intros y Hy. apply insert_block_elem in Hy as [-> | Hy].
    + apply compare_blocks_le. unfold compare_blocks in *.
      destruct (by_ (block a) =? by_ (block b)) eqn:E1;
        [apply Z.eqb_eq in E1 | apply Z.eqb_neq in E1].
      * rewrite (proj2 (Z.eqb_eq _ _)) by lia. lia.
      * rewrite (proj2 (Z.eqb_neq _ _)) by lia. lia.
    + rewrite Forall_forall in Hb. apply Hb, Hy.
Qed.

Lemma sort_blocks_elem (x : Group) (l : list Group) : x ∈ sort_blocks l <-> x ∈ l.
Proof.
  induction l as [| a l IH]; [reflexivity |].
  change (sort_blocks (a :: l)) with (insert_block a (sort_blocks l)).
  rewrite insert_block_elem, elem_of_cons, IH. tauto.
Qed.

Lemma sort_blocks_sorted (l : list Group) : StronglySorted block_le (sort_blocks l).
Proof.
  induction l as [| a l IH]; [constructor |].
  change (sort_blocks (a :: l)) with (insert_block a (sort_blocks l)).
  apply insert_block_sorted, IH.
Qed.

End Grouping.

Section Panel.

Import LayerPanel.

(** X29.  The layer panel.  The layers are split by the key of their block: no
    key heads two groups, a group holds exactly the layers with its key, so
    that every layer is listed once, and it is labelled with the block of
    the first of them.  The groups are shown in reading order, by row and
    then by column, and the layers of a group from the top of the z-order
    down. *)
Theorem panel_lists_each_layer_once (layers : list MapLayer.t) :
  NoDup (group_key <$> grouped layers)
  /\ (forall g, g ∈ grouped layers ->
        members g = filter (fun l => block_key l = group_key g) layers
        /\ exists first, head (members g) = Some first /\ block g = getBlockId first)
  /\ (forall l, l ∈ layers -> exists g, g ∈ grouped layers /\ group_key g = block_key l)
  /\ StronglySorted block_le (panel layers)
  /\ (forall g, g ∈ panel layers <->
        exists g0, g0 ∈ grouped layers
                   /\ g = {| block := block g0; members := MapCanvas.sort_desc (members g0) |})
  /\ (forall g, g ∈ panel layers ->
        StronglySorted (fun a b => below_or_level b a) (members g)
        /\ forall l, l ∈ members g <-> l ∈ layers /\ block_key l = group_key g).
Proof.
  destruct (grouped_groups layers) as (Hnd & Hmem & Hcov).
  assert (Hpanel : forall g, g ∈ panel layers <->
            exists g0, g0 ∈ grouped layers
              /\ g = {| block := block g0; members := MapCanvas.sort_desc (members g0) |}).
  { intros g. unfold panel. rewrite list_elem_of_fmap. split.
    - intros (g0 & -> & H0). exists g0. rewrite sort_blocks_elem in H0. auto.
    - intros (g0 & H0 & ->). exists g0. rewrite sort_blocks_elem. auto. }
  split; [exact Hnd |]. split; [exact Hmem |]. split; [exact Hcov |].
  split; [| split; [exact Hpanel |]].
  - unfold panel.
    assert (H : forall gs, StronglySorted block_le gs ->
              StronglySorted block_le
                ((fun g => {| block := block g; members := MapCanvas.sort_desc (members g) |})
                   <$> gs)).
    { induction 1 as [| a gs Hs IH Ha]; [constructor |].
      rewrite fmap_cons. constructor; [exact IH |].
      apply Forall_fmap. eapply Forall_impl; [exact Ha |]. intros y Hy. exact Hy. }
    apply H, sort_blocks_sorted.
  - intros g Hg. apply Hpanel in Hg as (g0 & H0 & ->). cbn [members block].
    split; [apply sort_desc_sorted |].
    intros l. rewrite sort_desc_elem. destruct (Hmem g0 H0) as (Em & _).
    rewrite Em, list_elem_of_filter. unfold group_key. cbn [block]. tauto.
Qed.

(** X30.  The tiles of the grid are the blocks of the panel: the base layer that
    navigation creates for grid position [(gx, gy)] is listed under block
    [(gx, gy)], and the first base under block [(0, 0)]. *)
Theorem tile_is_block (gx gy : Z) (image : string) (br : Browser) :
  bx (getBlockId (App.navigate_layer gx gy image)) = gx
  /\ by_ (getBlockId (App.navigate_layer gx gy image)) = gy
  /\ label (getBlockId (App.navigate_layer gx gy image))
     = "Block (" +:+ pretty gx +:+ ", " +:+ pretty gy +:+ ")"
  /\ bx (getBlockId (App.bootstrap_layer br)) = 0
  /\ by_ (getBlockId (App.bootstrap_layer br)) = 0.
Proof.
  assert (H : forall g, Qfloor ((inject_Z (g * 1024) + inject_Z 1024 / 2) / 1024) = g).
  { intros g. rewrite <- (Qfloor_half g) at 2. apply Qfloor_comp.
    rewrite inject_Z_mult. field. }
  unfold getBlockId, App.navigate_layer, App.bootstrap_layer.
  cbn [MapLayer.x MapLayer.y MapLayer.width MapLayer.height bx by_ label].
  unfold BLOCK_SIZE, App.CANVAS_WIDTH, App.CANVAS_HEIGHT.
  rewrite !H. repeat split.
Qed.

End Panel.

(** ** Invariants of the layers: ids, exported names and sizes *)

Section EveryLayer.

Import App.

Variable P : MapLayer.t -> Prop.

Hypothesis P_bootstrap : forall br, P (bootstrap_layer br).
Hypothesis P_navigate : forall gx gy image, P (navigate_layer gx gy image).
Hypothesis P_base : forall sx sy p image w, P (base_layer sx sy p image w).
Hypothesis P_asset : forall st w w' g, generate st w = (Ok g, w') -> P (asset_layer st w' g).
Hypothesis P_visible : forall v l, P l -> P (with_visible v l).
Hypothesis P_position : forall x y l, P l -> P (with_position x y l).
Hypothesis P_image : forall d l, P l -> P (apply_updates (imageData_update d) l).

Lemma every_layer_same (st st' : State) :
  layers st' = layers st -> history st' = history st -> every_layer P st -> every_layer P st'.
Proof. intros El Eh [Hl Hh]. split; rewrite ?El, ?Eh; assumption. Qed.

Lemma every_layer_commit (scene : list MapLayer.t) (st : State) :
  Forall P scene -> every_layer P st -> every_layer P (addToHistory scene st).
Proof.
  intros Hs [Hl Hh]. split; [exact Hs |].
  rewrite addToHistory_history. apply Forall_app. split; [| repeat constructor; exact Hs].
  unfold slice0. destruct (_ <? 0); apply Forall_take, Hh.
Qed.

Lemma every_layer_entry (st : State) (i : Z) (scene : list MapLayer.t) :
  every_layer P st -> entry (history st) i = Some scene -> Forall P scene.
Proof.
  intros [_ Hh]. unfold entry. destruct (i <? 0); [discriminate |].
  intros Hi. eapply Forall_lookup_1; eauto.
Qed.

Lemma every_layer_fmap (f : MapLayer.t -> MapLayer.t) (scene : list MapLayer.t) :
  (forall l, P l -> P (f l)) -> Forall P scene -> Forall P (f <$> scene).
Proof. intros Hf Hs. apply Forall_fmap. eapply Forall_impl; [exact Hs | exact Hf]. Qed.

Lemma every_layer_filter (Q : MapLayer.t -> Prop) `{!forall x, Decision (Q x)}
    (scene : list MapLayer.t) :
  Forall P scene -> Forall P (filter Q scene).
Proof.
  rewrite !Forall_forall. intros Hs x Hx. apply list_elem_of_filter in Hx as [_ Hx]. auto.
Qed.

Lemma every_layer_handle (ev : Event) (st st' : State) (w w' : World) :
  every_layer P st -> handle ev st w = Some (st', w') -> every_layer P st'.
Proof.
  intros Hok. destruct ev; cbn [handle];
    try (intros [= <- _]; eapply every_layer_same; [.. | exact Hok]; reflexivity).
  - unfold handleUndo. destruct (0 <? historyIndex st); [| cbn; intros [= <- _]; exact Hok].
    destruct (entry (history st) (historyIndex st - 1)) as [scene |] eqn:He; [| discriminate].
    cbn. intros [= <- _]. split; [eapply every_layer_entry; eauto | apply Hok].
  - unfold handleRedo. destruct (_ <? _); [| cbn; intros [= <- _]; exact Hok].
    destruct (entry (history st) (historyIndex st + 1)) as [scene |] eqn:He; [| discriminate].
    cbn. intros [= <- _]. split; [eapply every_layer_entry; eauto | apply Hok].
  - intros [= <- _]. eapply every_layer_same; [.. | exact Hok]; destruct tool; reflexivity.
  - intros [= Hev]. replace st' with (fst (handleNavigate direction st w))
      by (rewrite Hev; reflexivity).
    unfold handleNavigate. destruct (nextGrid direction st) as [gx gy].
    destruct (baseExists _ _ _); [eapply every_layer_same; [.. | exact Hok]; reflexivity |].
    match goal with
    | |- context [match ?t w with _ => _ end] => destruct (t w) as [[url | e |] w1]
    end; try (eapply every_layer_same; [.. | exact Hok]; reflexivity).
    cbn [fst]. eapply every_layer_same with (st := addToHistory _ _); [reflexivity .. |].
    apply every_layer_commit.
    + apply Forall_app. split; [apply Hok | repeat constructor; apply P_navigate].
    + eapply every_layer_same; [.. | exact Hok]; reflexivity.
  - intros [= Hev]. replace st' with (fst (handleGenerateAsset st w))
      by (rewrite Hev; reflexivity).
    unfold handleGenerateAsset. destruct (blank (prompt st)); [exact Hok |].
    destruct (generate _ w) as [[g | e |] w1] eqn:Hg;
      try (eapply every_layer_same; [.. | exact Hok]; reflexivity).
    cbn [fst].
    eapply every_layer_same with
      (st := addToHistory _ (if clearBrush g
                             then setBrushMask None (setError None (setIsGenerating true st))
                             else setError None (setIsGenerating true st)));
      [reflexivity .. |].
    apply every_layer_commit.
    + apply Forall_app. split; [apply Hok | repeat constructor; eapply P_asset, Hg].
    + destruct (clearBrush g); (eapply every_layer_same; [.. | exact Hok]; reflexivity).
  - intros [= Hev]. replace st' with (fst (handleGenerateBase st w))
      by (rewrite Hev; reflexivity).
    unfold handleGenerateBase. destruct (blank (basePrompt st)); [exact Hok |].
    match goal with
    | |- context [match ?t with _ => _ end] => destruct t as [[url | e |] w1]
    end; try (eapply every_layer_same; [.. | exact Hok]; reflexivity).
    cbn [fst]. eapply every_layer_same with (st := addToHistory _ _); [reflexivity .. |].
    apply every_layer_commit.
    + constructor; [apply P_base | apply every_layer_filter, Hok].
    + eapply every_layer_same; [.. | exact Hok]; reflexivity.
  - intros [= <- _]. unfold handleDeleteLayer.
    eapply every_layer_same with (st := addToHistory _ st);
      [destruct (decide _); reflexivity .. |].
    apply every_layer_commit; [apply every_layer_filter, Hok | exact Hok].
  - intros [= <- _]. unfold handleToggleVisibility.
    apply every_layer_commit; [| exact Hok]. apply every_layer_fmap; [| apply Hok].
    intros l Hl. destruct (String.eqb _ _); [apply P_visible |]; exact Hl.
  - intros [= <- _]. unfold updateLayerPosition. destruct Hok as [Hl Hh].
    split; [| exact Hh]. cbn [layers setLayers]. apply every_layer_fmap; [| exact Hl].
    intros l Hp. destruct (String.eqb _ _); [apply P_position |]; exact Hp.
  - intros [= <- _]. unfold handleMoveEnd. apply every_layer_commit; [apply Hok | exact Hok].
  - intros [= <- _]. unfold updateLayerData.
    apply every_layer_commit; [| exact Hok]. apply every_layer_fmap; [| apply Hok].
    intros l Hl. destruct (String.eqb _ _); [apply P_image |]; exact Hl.
Qed.

Lemma every_layer_reachable (st : State) : reachable st -> every_layer P st.
Proof.
  induction 1 as [w | ev st st' w w' _ IH Hev].
  - split; cbn; repeat constructor; apply P_bootstrap.
  - eapply every_layer_handle; eauto.
Qed.

End EveryLayer.

Section ExportedNames.

Import App.

Lemma safe_char_spec (c : Ascii.ascii) :
  safe_char (ExportZip.lower (if ExportZip.is_alnum c then c else ExportZip.underscore)) = true
  /\ (safe_char c = true ->
      ExportZip.lower (if ExportZip.is_alnum c then c else ExportZip.underscore) = c).
Proof.
  destruct c as [[] [] [] [] [] [] [] []]; vm_compute; split; congruence.
Qed.

(** X25.  The names of the exported files.  [safeName] keeps the length of the
    layer name and leaves only lower-case letters, digits and underscores;
    it changes nothing in a name that consists of these. *)
Theorem safeName_safe (name : string) :
  String.length (ExportZip.safeName name) = String.length name
  /\ forallb safe_char (String.list_ascii_of_string (ExportZip.safeName name)) = true
  /\ ExportZip.safeName (ExportZip.safeName name) = ExportZip.safeName name
  /\ (forallb safe_char (String.list_ascii_of_string name) = true ->
      ExportZip.safeName name = name).
Proof.
  induction name as [| c rest (IH1 & IH2 & IH3 & IH4)]; [repeat split |].
  destruct (safe_char_spec c) as [Hs Hi].
  cbn [ExportZip.safeName String.length String.list_ascii_of_string forallb].
  split; [rewrite IH1; reflexivity |].
  split; [rewrite Hs, IH2; reflexivity |].
  split.
  - destruct (safe_char_spec
                (ExportZip.lower (if ExportZip.is_alnum c then c else ExportZip.underscore)))
      as [_ Hi']. rewrite (Hi' Hs), IH3. reflexivity.
  - intros H. apply andb_true_iff in H as [Hc Hr]. rewrite (Hi Hc), (IH4 Hr). reflexivity.
Qed.

(** X24.  Every id the component gives a layer starts with [layer-], so the six
    characters of the id that go into the name of an exported file are the
    same for every layer, and so are the four in the name of a downloaded
    layer: the file names differ by z-order and layer name only. *)
Theorem exported_names_share_id_part (st : State) :
  reachable st ->
  forall scene, scene ∈ layers st :: history st ->
  forall l, l ∈ scene ->
    String.substring 0 6 (MapLayer.id l) = "layer-"
    /\ ExportZip.filename l
       = pretty (MapLayer.zIndex l) +:+ "_" +:+ ExportZip.safeName (MapLayer.name l)
         +:+ "_layer-.png"
    /\ LayerPanel.download_name l
       = LayerPanel.collapse false (MapLayer.name l) +:+ "_laye.png".
Proof.
  intros Hr.
  assert (H : every_layer (fun l => exists rest, MapLayer.id l = "layer-" +:+ rest) st).
  { apply every_layer_reachable; try exact Hr; intros; cbn; eauto. }
  intros scene Hs l Hl.
  assert (Hid : exists rest, MapLayer.id l = "layer-" +:+ rest).
  { destruct H as [H1 H2]. apply elem_of_cons in Hs as [-> | Hs].
    - rewrite Forall_forall in H1. apply H1, Hl.
    - rewrite Forall_forall in H2. specialize (H2 scene Hs).
      rewrite Forall_forall in H2. apply H2, Hl. }
  destruct Hid as [rest E].
  unfold ExportZip.filename, LayerPanel.download_name. rewrite E.
  destruct rest as [| c1 rest]; [repeat split |].
  destruct rest; repeat split.
Qed.

Lemma exported_names_share_id_part_witness :
  (forall l, l ∈ layers Samples.withObject ->
     ExportZip.filename l
     = pretty (MapLayer.zIndex l) +:+ "_" +:+ ExportZip.safeName (MapLayer.name l)
       +:+ "_layer-.png")
  /\ (ExportZip.filename <$> layers Samples.withObject)
     = ["0_base_start_layer-.png"; "11_a_watch_tower_layer-.png"].
Proof.
  split; [| reflexivity]. intros l Hl.
  apply (exported_names_share_id_part Samples.withObject withObject_reachable
           (layers Samples.withObject)); [apply elem_of_cons; left; reflexivity | exact Hl].
Defined.

End ExportedNames.

Section SquareLayers.

Import App.

Lemma generate_square (st : State) (w w' : World) (g : Generated) :
  generate st w = (Ok g, w') -> genW g = genH g.
Proof.
  unfold generate.
  destruct (GeminiService.present (brushMask st) && is_brush (activeTool st)).
  - unfold generate_brush, mbind, Async_bind. intros Hg.
    repeat match type of Hg with
           | context [let (_, _) := ?t in _] => destruct t as [[? | ? |] ?]; try discriminate
           | context [match ?b with Some _ => _ | None => _ end] =>
               destruct b; try discriminate
           end.
    injection Hg as <- _. reflexivity.
  - destruct (selection st) as [sel |].
    + unfold generate_selection, mbind, Async_bind. intros Hg.
      repeat match type of Hg with
             | context [let (_, _) := ?t in _] => destruct t as [[? | ? |] ?]; try discriminate
             end.
      injection Hg as <- _. reflexivity.
    + unfold generate_isolated, mbind, Async_bind. intros Hg.
      repeat match type of Hg with
             | context [let (_, _) := ?t in _] => destruct t as [[? | ? |] ?]; try discriminate
             end.
      injection Hg as <- _. reflexivity.
Qed.

(** X23.  Every layer is a square, in every scene the component reaches or keeps
    in its history: a base layer is a tile of 1024 by 1024, and an object
    layer has the size of the square context it was generated in, whatever
    the shape of the selection or of the brush stroke. *)
Theorem layers_are_square (st : State) :
  reachable st ->
  forall scene, scene ∈ layers st :: history st ->
  forall l, l ∈ scene ->
    MapLayer.width l = MapLayer.height l
    /\ (MapLayer.type l = base -> MapLayer.width l = inject_Z 1024).
Proof.
  intros Hr.
  assert (H : every_layer (fun l => MapLayer.width l = MapLayer.height l
                                    /\ (MapLayer.type l = base ->
                                        MapLayer.width l = inject_Z 1024)) st).
  { apply every_layer_reachable; try exact Hr; intros; cbn;
      first [ tauto
            | split; [eapply generate_square; eassumption | discriminate]
            | split; reflexivity ]. }
  intros scene Hs l Hl. destruct H as [H1 H2]. apply elem_of_cons in Hs as [-> | Hs].
  - rewrite Forall_forall in H1. apply H1, Hl.
  - rewrite Forall_forall in H2. specialize (H2 scene Hs).
    rewrite Forall_forall in H2. apply H2, Hl.
Qed.

Lemma layers_are_square_witness :
  Forall (fun l => MapLayer.width l = MapLayer.height l) (layers Samples.withObject).
Proof.
  apply Forall_forall. intros l Hl.
  apply (layers_are_square Samples.withObject withObject_reachable (layers Samples.withObject));
    [apply elem_of_cons; left; reflexivity | exact Hl].
Defined.

End SquareLayers.

(** ** The pixel loops on the canvas *)

Section ImageData.

Lemma flat_map_lookup {T U : Type} (f : T -> list U) (n : nat) (l : list T) (a b : nat) :
  (forall x, length (f x) = n) -> (b < n)%nat ->
  flat_map f l !! (a * n + b)%nat = l !! a ≫= (fun x => f x !! b).
Proof.
  intros Hn Hb. revert a. induction l as [| x l IH]; intros a; [reflexivity |].
  cbn [flat_map]. destruct a as [| a].
  - cbn [Nat.mul Nat.add]. rewrite lookup_app_l by (rewrite Hn; exact Hb). reflexivity.
  - rewrite lookup_app_r by (rewrite Hn; lia).
    replace (S a * n + b - length (f x))%nat with (a * n + b)%nat by (rewrite Hn; lia).
    apply IH.
Qed.

Lemma flat_map_length_const {T U : Type} (f : T -> list U) (n : nat) (l : list T) :
  (forall x, length (f x) = n) -> length (flat_map f l) = (length l * n)%nat.
Proof.
  intros Hn. induction l as [| x l IH]; [reflexivity |].
  cbn [flat_map length]. rewrite length_app, Hn, IH. lia.
Qed.

Lemma getImageData_lookup (w h : nat) (c : Canvas.t) (i j k : nat) :
  (i < w)%nat -> (j < h)%nat -> (k < 4)%nat ->
  Canvas.getImageData w h c !! (4 * (j * w + i) + k)%nat
  = Canvas.pixel_bytes (Canvas.px c (Z.of_nat i) (Z.of_nat j)) !! k.
Proof.
  intros Hi Hj Hk. unfold Canvas.getImageData.
  replace (4 * (j * w + i) + k)%nat with (j * (w * 4) + (i * 4 + k))%nat by lia.
  rewrite (flat_map_lookup _ (w * 4)).
  - rewrite lookup_seq_lt by exact Hj. cbn [mbind option_bind Nat.add].
    rewrite (flat_map_lookup _ 4); [| reflexivity | exact Hk].
    rewrite lookup_seq_lt by exact Hi. reflexivity.
  - intros y. rewrite (flat_map_length_const _ 4) by reflexivity. rewrite length_seq. reflexivity.
  - lia.
Qed.

End ImageData.

Section ChromaKeyCanvas.

Import ImageUtils.

Lemma removeMagenta_pixel (data : list Z) (k : nat) (r g b a : Z) :
  data !! (4 * k)%nat = Some r -> data !! (4 * k + 1)%nat = Some g ->
  data !! (4 * k + 2)%nat = Some b -> data !! (4 * k + 3)%nat = Some a ->
  removeMagenta_data data !! (4 * k)%nat = Some r
  /\ removeMagenta_data data !! (4 * k + 1)%nat = Some g
  /\ removeMagenta_data data !! (4 * k + 2)%nat = Some b
  /\ removeMagenta_data data !! (4 * k + 3)%nat
     = Some (if Z.abs (r - 255) + Z.abs (g - 0) + Z.abs (b - 255) <? 100 then 0 else a).
Proof.
  intros Hr Hg Hb Ha. rewrite !removeMagenta_lookup.
  destruct (decide ((4 * k) mod 4 = 3)%nat) as [H0 | _]; [exfalso; nat_div |].
  destruct (decide ((4 * k + 1) mod 4 = 3)%nat) as [H1 | _]; [exfalso; nat_div |].
  destruct (decide ((4 * k + 2) mod 4 = 3)%nat) as [H2 | _]; [exfalso; nat_div |].
  destruct (decide ((4 * k + 3) mod 4 = 3)%nat) as [_ | H3]; [| exfalso; nat_div].
  repeat split; try assumption.
  replace (4 * k + 3 - 3)%nat with (4 * k)%nat by lia.
  unfold magenta_dist. rewrite Hr, Hg, Hb, Ha. cbn.
  unfold targetR, targetG, targetB, magenta_threshold.
  destruct (_ <? 100); reflexivity.
Qed.

Lemma difference_pixel (orig gen : list Z) (k : nat) (r1 g1 b1 r2 g2 b2 a2 : Z) :
  orig !! (4 * k)%nat = Some r1 -> orig !! (4 * k + 1)%nat = Some g1 ->
  orig !! (4 * k + 2)%nat = Some b1 ->
  gen !! (4 * k)%nat = Some r2 -> gen !! (4 * k + 1)%nat = Some g2 ->
  gen !! (4 * k + 2)%nat = Some b2 -> gen !! (4 * k + 3)%nat = Some a2 ->
  difference_data orig gen !! (4 * k)%nat = Some r2
  /\ difference_data orig gen !! (4 * k + 1)%nat = Some g2
  /\ difference_data orig gen !! (4 * k + 2)%nat = Some b2
  /\ difference_data orig gen !! (4 * k + 3)%nat
     = Some (if Z.abs (r1 - r2) + Z.abs (g1 - g2) + Z.abs (b1 - b2) <? 35 then 0 else 255).
Proof.
  intros Hr1 Hg1 Hb1 Hr2 Hg2 Hb2 Ha2. rewrite !difference_lookup.
  destruct (decide ((4 * k) mod 4 = 3)%nat) as [H0 | _]; [exfalso; nat_div |].
  destruct (decide ((4 * k + 1) mod 4 = 3)%nat) as [H1 | _]; [exfalso; nat_div |].
  destruct (decide ((4 * k + 2) mod 4 = 3)%nat) as [H2 | _]; [exfalso; nat_div |].
  destruct (decide ((4 * k + 3) mod 4 = 3)%nat) as [_ | H3]; [| exfalso; nat_div].
  repeat split; try assumption.
  replace (4 * k + 3 - 3)%nat with (4 * k)%nat by lia.
  unfold difference_dist. rewrite Hr1, Hg1, Hb1, Hr2, Hg2, Hb2, Ha2. cbn.
  unfold difference_threshold. destruct (_ <? 35); reflexivity.
Qed.

(** X18.  Isolated generation, end to end.  [removeMagentaBackground] rejects if
    the image does not decode; otherwise it encodes a canvas of the size of
    the image on which every pixel is the pixel of the image, made fully
    transparent if its colour is within 100 of magenta and left as it is,
    alpha included, if not. *)
Theorem removeMagentaBackground_pixels (br : Browser) (imageSrc : string) (img : Raster) :
  decode br imageSrc = Some img ->
  removeMagentaBackground br imageSrc = Ok (toDataURL br (removeMagenta_canvas imageSrc img))
  /\ Canvas.width (removeMagenta_canvas imageSrc img) = rw img
  /\ Canvas.height (removeMagenta_canvas imageSrc img) = rh img
  /\ forall i j, 0 <= i < rw img -> 0 <= j < rh img ->
       Canvas.px (removeMagenta_canvas imageSrc img) i j = keyed (over (rpx img i j) clear).
Proof.
  intros Hd. split; [unfold removeMagentaBackground; rewrite Hd; reflexivity |].
  split; [reflexivity |]. split; [reflexivity |].
  intros i j Hi Hj. unfold removeMagenta_canvas.
  set (w := Z.to_nat (rw img)). set (h := Z.to_nat (rh img)).
  set (c := Canvas.drawImage3 imageSrc img 0 0 (Canvas.create (rw img) (rh img))).
  set (data := Canvas.getImageData w h c).
  assert (Hin : Canvas.inside c i j = true).
  { unfold Canvas.inside, c. cbn.
    apply andb_true_iff; split; [apply andb_true_iff; split; [apply andb_true_iff; split |] |];
      first [apply Z.leb_le | apply Z.ltb_lt]; lia. }
  assert (Hpx : Canvas.px c i j = over (rpx img i j) clear).
  { unfold c. rewrite drawImage3_px_under.
    - rewrite !Z.sub_0_r. reflexivity.
    - unfold Canvas.inside. cbn.
      apply andb_true_iff; split; [apply andb_true_iff; split; [apply andb_true_iff; split |] |];
        first [apply Z.leb_le | apply Z.ltb_lt]; lia.
    - unfold under_image. lia. }
  set (p := over (rpx img i j) clear) in *.
  set (n := (Z.to_nat j * w + Z.to_nat i)%nat).
  assert (Hb : forall k, (k < 4)%nat ->
                 data !! (4 * n + k)%nat = Canvas.pixel_bytes p !! k).
  { intros k Hk. unfold data, n. rewrite getImageData_lookup by (unfold w, h; lia).
    rewrite !Z2Nat.id by lia. rewrite Hpx. reflexivity. }
  pose proof (Hb 0%nat ltac:(lia)) as H0. pose proof (Hb 1%nat ltac:(lia)) as H1.
  pose proof (Hb 2%nat ltac:(lia)) as H2. pose proof (Hb 3%nat ltac:(lia)) as H3.
  cbn [Canvas.pixel_bytes lookup list_lookup] in H0, H1, H2, H3.
  rewrite Nat.add_0_r in H0.
  destruct (removeMagenta_pixel data n (R p) (G p) (B p) (A p) H0 H1 H2 H3)
    as (K0 & K1 & K2 & K3).
  unfold putImageData, Canvas.px at 1. cbn [Canvas.bitmap rpx]. rewrite Hin.
  replace (i <? Z.of_nat w) with true by (symmetry; apply Z.ltb_lt; unfold w; lia).
  replace (j <? Z.of_nat h) with true by (symmetry; apply Z.ltb_lt; unfold h; lia).
  cbn [andb]. unfold pixel_at, byte_at. fold n. rewrite K0, K1, K2, K3. cbn [default].
  unfold keyed. destruct (_ <? 100); [reflexivity |]. destruct p; reflexivity.
Qed.

Lemma removeMagentaBackground_pixels_witness :
  Canvas.px (removeMagenta_canvas "red.png" (Samples.solid 1 1 Samples.red)) 0 0 = Samples.red
  /\ Canvas.px (removeMagenta_canvas "pink.png" (Samples.solid 1 1 (rgb 250 20 240))) 0 0
     = {| R := 250; G := 20; B := 240; A := 0 |}.
Proof.
  split.
  - destruct (removeMagentaBackground_pixels Samples.images "red.png"
                (Samples.solid 1 1 Samples.red)) as (_ & _ & _ & H); [reflexivity |].
    rewrite H by (cbn; lia). reflexivity.
  - destruct (removeMagentaBackground_pixels
                {| decode := fun _ => Some (Samples.solid 1 1 (rgb 250 20 240));
                   toDataURL := fun _ => "" |}
                "pink.png" (Samples.solid 1 1 (rgb 250 20 240))) as (_ & _ & _ & H);
      [reflexivity |].
    rewrite H by (cbn; lia). reflexivity.
Defined.

(** X19.  Difference keying, end to end.  For two images that decode,
    [createDifferenceLayer] encodes a canvas of the size of the generated
    image; each pixel has the colour of the generated pixel, and is opaque
    if that colour is 35 or more away from the original at that place, else
    fully transparent.  If the original has the size of the generated image
    it is compared pixel by pixel. *)
Theorem createDifferenceLayer_canvas (br : Browser) (originalBase64 generatedBase64 : string)
    (imgOrig imgGen : Raster) :
  decode br originalBase64 = Some imgOrig ->
  decode br generatedBase64 = Some imgGen ->
  createDifferenceLayer br originalBase64 generatedBase64
    = Ok (toDataURL br (difference_canvas originalBase64 generatedBase64 imgOrig imgGen))
  /\ Canvas.width (difference_canvas originalBase64 generatedBase64 imgOrig imgGen) = rw imgGen
  /\ Canvas.height (difference_canvas originalBase64 generatedBase64 imgOrig imgGen) = rh imgGen
  /\ (forall i j, 0 <= i < rw imgGen -> 0 <= j < rh imgGen ->
        Canvas.px (difference_canvas originalBase64 generatedBase64 imgOrig imgGen) i j
        = differing (Canvas.px (original_canvas originalBase64 imgOrig imgGen) i j)
                    (over (rpx imgGen i j) clear))
  /\ (rw imgOrig = rw imgGen -> rh imgOrig = rh imgGen ->
      forall i j, 0 <= i < rw imgGen -> 0 <= j < rh imgGen ->
        Canvas.px (original_canvas originalBase64 imgOrig imgGen) i j
        = over (rpx imgOrig i j) clear).
Proof.
  intros Ho Hg.
  split; [unfold createDifferenceLayer; rewrite Ho, Hg; reflexivity |].
  split; [reflexivity |]. split; [reflexivity |]. split.
  - intros i j Hi Hj. unfold difference_canvas.
    set (w := Z.to_nat (rw imgGen)). set (h := Z.to_nat (rh imgGen)).
    set (c := Canvas.drawImage3 generatedBase64 imgGen 0 0
                (Canvas.create (rw imgGen) (rh imgGen))).
    set (cO := original_canvas originalBase64 imgOrig imgGen).
    assert (Hin : Canvas.inside c i j = true).
    { unfold Canvas.inside, c. cbn.
      apply andb_true_iff; split; [apply andb_true_iff; split; [apply andb_true_iff; split |] |];
        first [apply Z.leb_le | apply Z.ltb_lt]; lia. }
    assert (Hpx : Canvas.px c i j = over (rpx imgGen i j) clear).
    { unfold c. rewrite drawImage3_px_under.
      - rewrite !Z.sub_0_r. reflexivity.
      - unfold Canvas.inside. cbn.
        apply andb_true_iff; split; [apply andb_true_iff; split; [apply andb_true_iff; split |] |];
          first [apply Z.leb_le | apply Z.ltb_lt]; lia.
      - unfold under_image. lia. }
    set (pg := over (rpx imgGen i j) clear) in *.
    set (po := Canvas.px cO i j).
    set (n := (Z.to_nat j * w + Z.to_nat i)%nat).
    assert (Hb : forall k, (k < 4)%nat ->
                   Canvas.getImageData w h c !! (4 * n + k)%nat = Canvas.pixel_bytes pg !! k).
    { intros k Hk. unfold n. rewrite getImageData_lookup by (unfold w, h; lia).
      rewrite !Z2Nat.id by lia. rewrite Hpx. reflexivity. }
    assert (HbO : forall k, (k < 4)%nat ->
                    Canvas.getImageData w h cO !! (4 * n + k)%nat = Canvas.pixel_bytes po !! k).
    { intros k Hk. unfold n. rewrite getImageData_lookup by (unfold w, h; lia).
      rewrite !Z2Nat.id by lia. reflexivity. }
    pose proof (Hb 0%nat ltac:(lia)) as H0. pose proof (Hb 1%nat ltac:(lia)) as H1.
    pose proof (Hb 2%nat ltac:(lia)) as H2. pose proof (Hb 3%nat ltac:(lia)) as H3.
    pose proof (HbO 0%nat ltac:(lia)) as O0. pose proof (HbO 1%nat ltac:(lia)) as O1.
    pose proof (HbO 2%nat ltac:(lia)) as O2.
    cbn [Canvas.pixel_bytes lookup list_lookup] in H0, H1, H2, H3, O0, O1, O2.
    rewrite Nat.add_0_r in H0, O0.
    destruct (difference_pixel _ _ n _ _ _ _ _ _ _ O0 O1 O2 H0 H1 H2 H3) as (K0 & K1 & K2 & K3).
    unfold putImageData, Canvas.px at 1. cbn [Canvas.bitmap rpx]. rewrite Hin.
    replace (i <? Z.of_nat w) with true by (symmetry; apply Z.ltb_lt; unfold w; lia).
    replace (j <? Z.of_nat h) with true by (symmetry; apply Z.ltb_lt; unfold h; lia).
    cbn [andb]. unfold pixel_at, byte_at. fold n. rewrite K0, K1, K2, K3. reflexivity.
  - intros Ew Eh i j Hi Hj.
    unfold original_canvas, Canvas.drawImage5, Canvas.drawImage9, Canvas.px at 1, Canvas.inside.
    cbn [Canvas.bitmap rpx Canvas.width Canvas.height Canvas.create rw rh].
    replace (0 <=? i) with true by (symmetry; apply Z.leb_le; lia).
    replace (i <? rw imgGen) with true by (symmetry; apply Z.ltb_lt; lia).
    replace (0 <=? j) with true by (symmetry; apply Z.leb_le; lia).
    replace (j <? rh imgGen) with true by (symmetry; apply Z.ltb_lt; lia).
    cbn [andb]. unfold Canvas.sample.
    destruct (centre_in_range i (rw imgGen) Hi) as [-> ->].
    destruct (centre_in_range j (rh imgGen) Hj) as [-> ->].
    cbn [andb]. rewrite Ew, Eh.
    assert (U : forall v W, W <> 0 ->
              Qfloor (0 + (inject_Z v + (1 # 2) - 0) * inject_Z W / inject_Z W) = v).
    { intros v W HW. exact (unscaled_source 0 v W HW). }
    rewrite !U by lia.
    replace (0 <=? i) with true by (symmetry; apply Z.leb_le; lia).
    replace (i <? rw imgGen) with true by (symmetry; apply Z.ltb_lt; lia).
    replace (0 <=? j) with true by (symmetry; apply Z.leb_le; lia).
    replace (j <? rh imgGen) with true by (symmetry; apply Z.ltb_lt; lia).
    reflexivity.
Qed.

Lemma createDifferenceLayer_canvas_witness :
  Canvas.px (difference_canvas "red.png" "blue.png" (Samples.solid 1 1 Samples.red)
                               (Samples.solid 1 1 Samples.blue)) 0 0
  = Samples.blue
  /\ A (Canvas.px (difference_canvas "red.png" "red.png" (Samples.solid 1 1 Samples.red)
                                     (Samples.solid 1 1 Samples.red)) 0 0) = 0.
Proof.
  split.
  - destruct (createDifferenceLayer_canvas Samples.images "red.png" "blue.png"
                (Samples.solid 1 1 Samples.red) (Samples.solid 1 1 Samples.blue))
      as (_ & _ & _ & H & _); [reflexivity | reflexivity |].
    rewrite H by (cbn; lia). reflexivity.
  - destruct (createDifferenceLayer_canvas Samples.images "red.png" "red.png"
                (Samples.solid 1 1 Samples.red) (Samples.solid 1 1 Samples.red))
      as (_ & _ & _ & H & _); [reflexivity | reflexivity |].
    rewrite H by (cbn; lia). reflexivity.
Defined.

End ChromaKeyCanvas.

(** ** components/MapCanvas.tsx: the rectangle tool *)

Section RectangleTool.

Import MapCanvas.

Lemma Qabs_cases (q : Q) :
  ((q < 0)%Q /\ (Qabs q == - q)%Q /\ Num.Qltb q 0 = true)
  \/ ((0 <= q)%Q /\ (Qabs q == q)%Q /\ Num.Qltb q 0 = false).
Proof.
  destruct (Qlt_le_dec q 0) as [H | H].
  - left. split; [exact H |]. split; [apply Qabs_neg, Qlt_le_weak, H | apply Qltb_lt, H].
  - right. split; [exact H |]. split; [apply Qabs_pos, H |].
    destruct (Num.Qltb q 0) eqn:E; [| reflexivity].
    apply Qltb_lt in E. exfalso. apply (Qlt_not_le _ _ E H).
Qed.

(** X28.  The rectangle tool.  A drag becomes a selection only if it is more than
    10 pixels wide and more than 10 high.  The selection is then the
    rectangle between the two corners of the drag, moved from the screen
    into the world by the camera position, whichever way the drag went: it
    reaches from one corner to the other and its width and height are
    positive. *)
Theorem selection_of_drag_spans (startX startY mouseX mouseY viewX viewY : Q) :
  (selection_of_drag startX startY mouseX mouseY viewX viewY = None <->
   (Qabs (mouseX - startX) <= 10)%Q \/ (Qabs (mouseY - startY) <= 10)%Q)
  /\ (forall r, selection_of_drag startX startY mouseX mouseY viewX viewY = Some r ->
        (10 < Rect.width r)%Q /\ (10 < Rect.height r)%Q
        /\ (Rect.x r <= startX + viewX <= Rect.x r + Rect.width r)%Q
        /\ (Rect.x r <= mouseX + viewX <= Rect.x r + Rect.width r)%Q
        /\ (Rect.y r <= startY + viewY <= Rect.y r + Rect.height r)%Q
        /\ (Rect.y r <= mouseY + viewY <= Rect.y r + Rect.height r)%Q
        /\ (Rect.width r == Qabs (mouseX - startX))%Q
        /\ (Rect.height r == Qabs (mouseY - startY))%Q).
Proof.
  unfold selection_of_drag.
  destruct (Num.Qltb 10 (Qabs (mouseX - startX))) eqn:Ew;
    [| split; [split; [intros _; left | reflexivity] | discriminate]].
  2: { destruct (Qlt_le_dec 10 (Qabs (mouseX - startX))) as [H | H]; [| exact H].
       apply Qltb_lt in H. congruence. }
  destruct (Num.Qltb 10 (Qabs (mouseY - startY))) eqn:Eh; cbn [andb];
    [| split; [split; [intros _; right | reflexivity] | discriminate]].
  2: { destruct (Qlt_le_dec 10 (Qabs (mouseY - startY))) as [H | H]; [| exact H].
       apply Qltb_lt in H. congruence. }
  apply Qltb_lt in Ew, Eh. split.
  - split; [discriminate |].
    intros [H | H]; exfalso; [exact (Qlt_not_le _ _ Ew H) | exact (Qlt_not_le _ _ Eh H)].
  - intros r Hr.
    replace r with
      {| Rect.x := ((if Num.Qltb (mouseX - startX) 0 then mouseX else startX) + viewX)%Q;
         Rect.y := ((if Num.Qltb (mouseY - startY) 0 then mouseY else startY) + viewY)%Q;
         Rect.width := Qabs (mouseX - startX);
         Rect.height := Qabs (mouseY - startY) |} by congruence.
    clear Hr. cbn [Rect.x Rect.y Rect.width Rect.height].
    destruct (Qabs_cases (mouseX - startX)) as [(Hx & Ex & ->) | (Hx & Ex & ->)];
      destruct (Qabs_cases (mouseY - startY)) as [(Hy & Ey & ->) | (Hy & Ey & ->)];
      set (aw := Qabs (mouseX - startX)) in *; set (ah := Qabs (mouseY - startY)) in *;
      repeat match goal with |- _ /\ _ => split end; lra.
Qed.

End RectangleTool.

(** ** The z-order of the layers and the order of the draws *)

Section ObjectUnderBase.

Import App ImageUtils.

Lemma tower_reachable : reachable Samples.tower.
Proof.
  apply (reach_event GenerateAsset
           (setPrompt "a watch tower" (mount initial Samples.tintedWorld)) _
           Samples.tintedWorld
           (snd (handleGenerateAsset
                   (setPrompt "a watch tower" (mount initial Samples.tintedWorld))
                   Samples.tintedWorld))).
  - apply (reach_event (SetPrompt "a watch tower") (mount initial Samples.tintedWorld) _
             Samples.tintedWorld Samples.tintedWorld).
    + apply reach_mount.
    + reflexivity.
  - cbn [handle]. unfold Samples.tower.
    destruct (handleGenerateAsset _ Samples.tintedWorld). reflexivity.
Qed.

(** C9.  The z-order is as claimed and the compositing is not.  In every
    scene the component reaches every base layer has z-order 0 and every
    object layer a z-order of 10 or more.  But in the reachable scene of the
    first tile with one generated object on it, when the image of the
    object loads before the image of the base, [getCompositeRect] and
    [compositeLayers] paint the base over the object: the pixel at
    (400, 400), which the object covers with opaque red, shows the base.
    When the images load in request order it shows the object. *)
Theorem base_painted_over_object :
  (forall st, reachable st ->
     forall scene, scene ∈ layers st :: history st ->
     forall b o, b ∈ scene -> o ∈ scene ->
       MapLayer.type b = base -> MapLayer.type o = object ->
       MapLayer.zIndex b = 0 /\ 10 <= MapLayer.zIndex o
       /\ MapLayer.zIndex b < MapLayer.zIndex o)
  /\ reachable Samples.tower
  /\ ((fun l => (MapLayer.type l, MapLayer.zIndex l, MapLayer.imageData l,
                 MapLayer.visible l)) <$> layers Samples.tower)
     = [(base, 0, "base.png", true); (object, 11, "object.png", true)]
  /\ compositeRect_requests (layers Samples.tower) = layers Samples.tower
  /\ compositeLayers_requests (layers Samples.tower) = layers Samples.tower
  /\ schedule (compositeRect_requests (layers Samples.tower)) [1; 0]%nat
  /\ ((fun o => shows Samples.tinted 0 0 o 400 400) <$> layers Samples.tower)
     = [Some (rgb 34 56 34); Some Samples.red]
  /\ (fun c => Canvas.px c 400 400)
       <$> compositeRect_canvas Samples.tinted [1; 0]%nat Samples.viewport (layers Samples.tower)
     = Some (rgb 34 56 34)
  /\ (fun c => Canvas.px c 400 400)
       <$> compositeLayers_canvas Samples.tinted [1; 0]%nat 0 0 (layers Samples.tower)
     = Some (rgb 34 56 34)
  /\ (fun c => Canvas.px c 400 400)
       <$> compositeRect_canvas Samples.tinted [0; 1]%nat Samples.viewport (layers Samples.tower)
     = Some Samples.red.
Proof.
  split.
  { intros st Hr scene Hin b o Hb Ho Tb To.
    pose proof (scene_of_state_ok st scene (reachable_ok st Hr) Hin) as Hok.
    unfold scene_ok in Hok. rewrite Forall_forall in Hok.
    pose proof (Hok b Hb) as Kb. pose proof (Hok o Ho) as Ko.
    unfold layer_ok in Kb, Ko. rewrite Tb in Kb. rewrite To in Ko. lia. }
  split; [exact tower_reachable |].
  split; [(vm_compute; reflexivity) |]. split; [(vm_compute; reflexivity) |]. split; [(vm_compute; reflexivity) |].
  split; [apply Permutation_swap |].
  split; [(vm_compute; reflexivity) |].
  split; [(vm_compute; reflexivity) |].
  split; (vm_compute; reflexivity).
Qed.

End ObjectUnderBase.

(** ** The inverse crop of the tile stitcher, in the doubles it computes *)

Section InverseCropDoubles.

Import GeminiService ImageUtils.

(** The three stitching canvases and the double [1024 / canvasSize] of each. *)
Lemma scale_cases (n : Neighbors) :
  (canvasSize n = 1024 /\ scale n = SpecFloat.S754_finite false 4503599627370496 (-52))
  \/ (canvasSize n = 1280 /\ scale n = SpecFloat.S754_finite false 7205759403792794 (-53))
  \/ (canvasSize n = 1536 /\ scale n = SpecFloat.S754_finite false 6004799503160661 (-53)).
Proof.
  destruct (canvasSize_cases n) as ([H | [H | H]] & _); unfold scale; rewrite H;
    [left | right; left | right; right]; (split; [reflexivity | vm_compute; reflexivity]).
Qed.

(** The products of the crop are exact: 0, 256 and 1024 only shift the
    exponent of the scale. *)
Lemma scaled_exact (n : Neighbors) (z : Z) :
  z = 0 \/ z = 256 \/ z = 1024 ->
  (scaled z n == inject_Z z * Num.double_value (scale n))%Q.
Proof.
  intros Hz. unfold scaled.
  destruct (scale_cases n) as [[_ ->] | [[_ ->] | [_ ->]]];
    destruct Hz as [-> | [-> | ->]]; vm_compute; reflexivity.
Qed.

Lemma source_pixel_div (m : Z) (d : positive) (t i : Z) :
  source_pixel (m # d) t i = ((2 * (t + i) + 1) * m) / (2 * Zpos d).
Proof.
  unfold source_pixel, Qfloor, Qmult, Qplus, inject_Z. cbn [Qnum Qden].
  f_equal; lia.
Qed.

Lemma final_source (cx cw s : Q) (t i : Z) :
  (cx == inject_Z t * s)%Q -> (cw == inject_Z 1024 * s)%Q ->
  Qfloor (cx + (inject_Z i + (1 # 2) - 0) * cw / inject_Z 1024) = source_pixel s t i.
Proof.
  intros Hx Hw. unfold source_pixel. apply Qfloor_comp. rewrite Hx, Hw.
  change (inject_Z 1024) with 1024%Q. field.
Qed.

(** Every pixel of the final block is taken from inside a 1024 x 1024
    output. *)
Lemma source_pixel_inside (n : Neighbors) (t i : Z) :
  t = 0 \/ t = 256 -> t + 1024 <= canvasSize n -> 0 <= i < 1024 ->
  0 <= source_pixel (Num.double_value (scale n)) t i < 1024.
Proof.
  intros Ht Hs Hi.
  destruct (scale_cases n) as [[E ->] | [[E ->] | [E ->]]].
  - change (Num.double_value _) with (4503599627370496 # 4503599627370496)%Q.
    rewrite source_pixel_div. Z.to_euclidean_division_equations. lia.
  - change (Num.double_value _) with (7205759403792794 # 9007199254740992)%Q.
    rewrite source_pixel_div. Z.to_euclidean_division_equations. lia.
  - change (Num.double_value _) with (6004799503160661 # 9007199254740992)%Q.
    rewrite source_pixel_div. Z.to_euclidean_division_equations. lia.
Qed.

(** C5.  The inverse crop, for every set of neighbours.  With [s] the value
    of the double [scale = outputSize / canvasSize]:
    - [scale] is finite and within half a unit in the last place of
      [1024 / canvasSize]: it is 1 for the canvas of side 1024 and the
      doubles next to 4/5 and 2/3 for the sides 1280 and 1536;
    - the crop handed to [cropAndResize] starts at
      [(targetX * s, targetY * s)] and is [1024 * s] wide and high, the
      products being exact;
    - the final block is a canvas of 1024 x 1024, for every canvas size and
      so for 1536;
    - its pixel [(i, j)] is the pixel of the generated image under the
      centre of [(i, j)] mapped back through the crop, column
      [floor ((targetX + i + 1/2) * s)] and row
      [floor ((targetY + j + 1/2) * s)], transparent where that is outside
      the image;
    - these columns and rows lie in [0, 1024), so that of a 1024 x 1024
      output every pixel of the block shows a pixel of the output;
    - and this canvas is what [generateSeamlessTexture] resolves with, after
      one request carrying the stitched canvas, when the key is set, the
      strips load, and the response carries an image that decodes. *)
Theorem inverse_crop (n : Neighbors) (generatedBase64 : string) (generated : Raster) :
  let s := Num.double_value (scale n) in
  let tX := targetX (layout n) in
  let tY := targetY (layout n) in
  let final := finalBlock_canvas generatedBase64 generated n in
  (Num.finite (scale n) = true
   /\ (Qabs (s - 1024 / inject_Z (canvasSize n)) <= 1 # 2 ^ 54)%Q
   /\ (canvasSize n = 1024 -> (s == 1)%Q)
   /\ (canvasSize n = 1280 -> (s == 7205759403792794 # 2 ^ 53)%Q)
   /\ (canvasSize n = 1536 -> (s == 6004799503160661 # 2 ^ 53)%Q))
  /\ ((cropX (crop n) == inject_Z tX * s)%Q
      /\ (cropY (crop n) == inject_Z tY * s)%Q
      /\ (cropW (crop n) == 1024 * s)%Q
      /\ (cropH (crop n) == 1024 * s)%Q)
  /\ (Canvas.width final = 1024 /\ Canvas.height final = 1024)
  /\ (forall i j, 0 <= i < 1024 -> 0 <= j < 1024 ->
        let u := source_pixel s tX i in
        let v := source_pixel s tY j in
        Canvas.px final i j
        = if (0 <=? u) && (u <? rw generated) && (0 <=? v) && (v <? rh generated)
          then over (rpx generated u v) clear
          else clear)
  /\ (forall i, 0 <= i < 1024 ->
        0 <= source_pixel s tX i < 1024 /\ 0 <= source_pixel s tY i < 1024)
  /\ (forall i j, rw generated = 1024 -> rh generated = 1024 ->
        0 <= i < 1024 -> 0 <= j < 1024 ->
        Canvas.px final i j
        = over (rpx generated (source_pixel s tX i) (source_pixel s tY j)) clear)
  /\ (forall settings basePrompt w canvas parts,
        apiKey w = true ->
        stitch_canvas (browser w) (loadEvents w (pSrc <$> strip_promises n)) n = Some canvas ->
        respond w (length (dispatched w)) = Responds parts ->
        first_image parts = Some generatedBase64 ->
        decode (browser w) generatedBase64 = Some generated ->
        let result := generateSeamlessTexture n settings basePrompt w in
        fst result = Ok (toDataURL (browser w) final)
        /\ dispatched (snd result)
           = dispatched w ++ [{| reqKind := Seamless; reqPrompt := basePrompt;
                                 reqSettings := settings;
                                 reqImage := Some (toDataURL (browser w) canvas) |}]).
Proof.
  intros s tX tY final.
  destruct (canvasSize_cases n) as (Hs & Hx & Hy).
  destruct (layout_cases n) as (Tx & Ty & _ & _).
  assert (Cx : (cropX (crop n) == inject_Z tX * s)%Q)
    by (apply scaled_exact; unfold tX; lia).
  assert (Cy : (cropY (crop n) == inject_Z tY * s)%Q)
    by (apply scaled_exact; unfold tY; lia).
  assert (Cw : (cropW (crop n) == 1024 * s)%Q)
    by (apply (scaled_exact n 1024); lia).
  assert (Px : forall i j, 0 <= i < 1024 -> 0 <= j < 1024 ->
        Canvas.px final i j
        = if (0 <=? source_pixel s tX i) && (source_pixel s tX i <? rw generated)
             && (0 <=? source_pixel s tY j) && (source_pixel s tY j <? rh generated)
          then over (rpx generated (source_pixel s tX i) (source_pixel s tY j)) clear
          else clear).
  { intros i j Hi Hj.
    unfold final, finalBlock_canvas, cropAndResize_canvas, Canvas.drawImage9,
      Canvas.px at 1, Canvas.inside.
    cbn [Canvas.bitmap rpx Canvas.width Canvas.height Canvas.create rw rh].
    change (Num.canvas_dim (inject_Z TARGET_SIZE)) with 1024.
    replace (0 <=? i) with true by (symmetry; apply Z.leb_le; lia).
    replace (i <? 1024) with true by (symmetry; apply Z.ltb_lt; lia).
    replace (0 <=? j) with true by (symmetry; apply Z.leb_le; lia).
    replace (j <? 1024) with true by (symmetry; apply Z.ltb_lt; lia).
    cbn [andb]. unfold Canvas.sample.
    destruct (centre_in_range i 1024 Hi) as [-> E1].
    destruct (centre_in_range j 1024 Hj) as [-> E2].
    change (inject_Z TARGET_SIZE) with (inject_Z 1024). rewrite E1, E2.
    cbn [andb].
    change (cropH (crop n)) with (cropW (crop n)).
    rewrite (final_source _ _ s tX i Cx Cw), (final_source _ _ s tY j Cy Cw).
    destruct ((0 <=? source_pixel s tX i) && (source_pixel s tX i <? rw generated)
              && (0 <=? source_pixel s tY j) && (source_pixel s tY j <? rh generated));
      reflexivity. }
  assert (In : forall i, 0 <= i < 1024 ->
        0 <= source_pixel s tX i < 1024 /\ 0 <= source_pixel s tY i < 1024).
  { intros i Hi. split; apply source_pixel_inside; unfold tX, tY; lia. }
  split.
  { unfold s. destruct (scale_cases n) as [[E ->] | [[E ->] | [E ->]]]; rewrite E;
      (split; [reflexivity |]); (split; [vm_compute; discriminate |]);
      (split; [intros [=]; vm_compute; reflexivity |]);
      (split; [intros [=]; vm_compute; reflexivity |]);
      intros [=]; vm_compute; reflexivity. }
  split; [exact (conj Cx (conj Cy (conj Cw Cw))) |].
  split; [split; reflexivity |].
  split; [exact Px |].
  split; [exact In |].
  split.
  { intros i j Hw Hh Hi Hj. rewrite (Px i j Hi Hj), Hw, Hh.
    destruct (In i Hi) as [[? ?] _]. destruct (In j Hj) as [_ [? ?]].
    replace (0 <=? source_pixel s tX i) with true by (symmetry; apply Z.leb_le; lia).
    replace (source_pixel s tX i <? 1024) with true by (symmetry; apply Z.ltb_lt; lia).
    replace (0 <=? source_pixel s tY j) with true by (symmetry; apply Z.leb_le; lia).
    replace (source_pixel s tY j <? 1024) with true by (symmetry; apply Z.ltb_lt; lia).
    reflexivity. }
  intros settings basePrompt w canvas parts Hk Hc Hr Hf Hd.
  unfold generateSeamlessTexture, mbind, Async_bind, getClient, ask, generateContent, await,
    cropAndResize.
  rewrite Hk. cbn [browser loadEvents]. rewrite Hc. rewrite Hr, Hf. cbn [browser].
  rewrite Hd. split; reflexivity.
Qed.

(** Neighbours on the left and on the right give the canvas of side 1536
    and the scale next to 2/3.  Of the image that tells positions, pixel
    (1, 0) of the final block shows column 171 and row 0 and pixel
    (1022, 1023) column 852 and row 682; and the service resolves with the
    encoding of the canvas cropped from the image of the response. *)
Lemma inverse_crop_witness :
  canvasSize Samples.leftRight = 1536
  /\ targetX (layout Samples.leftRight) = 256
  /\ Canvas.px (finalBlock_canvas "out.png" Samples.ramp Samples.leftRight) 1 0
     = {| R := 171; G := 0; B := 0; A := 255 |}
  /\ Canvas.px (finalBlock_canvas "out.png" Samples.ramp Samples.leftRight) 1022 1023
     = {| R := 852 mod 256; G := 3; B := 682 mod 256; A := 255 |}
  /\ fst (generateSeamlessTexture Samples.leftRight (App.mapSettings App.initial) "grassland"
            Samples.answering)
     = Ok (toDataURL Samples.images
             (finalBlock_canvas "data:image/png;base64,iVBORw0KGgo="
                (Samples.solid 2 2 Samples.red) Samples.leftRight)).
Proof.
  split; [reflexivity |]. split; [reflexivity |].
  destruct (inverse_crop Samples.leftRight "out.png" Samples.ramp)
    as (_ & _ & _ & _ & _ & P & _).
  split; [rewrite (P 1 0) by (reflexivity || lia); vm_compute; reflexivity |].
  split; [rewrite (P 1022 1023) by (reflexivity || lia); vm_compute; reflexivity |].
  destruct (inverse_crop Samples.leftRight "data:image/png;base64,iVBORw0KGgo="
              (Samples.solid 2 2 Samples.red)) as (_ & _ & _ & _ & _ & _ & S).
  edestruct (S (App.mapSettings App.initial) "grassland" Samples.answering) as [E _];
    [reflexivity | vm_compute; reflexivity | reflexivity | reflexivity | reflexivity |].
  exact E.
Defined.

(** The crop itself may reach a hair beyond the output: with a left
    neighbour only the canvas has side 1280, the scale is the double just
    above 4/5, and the right edge of the crop lies beyond 1024. *)
Remark crop_beyond_output :
  canvasSize Samples.leftOnly = 1280
  /\ (1024 < cropX (crop Samples.leftOnly) + cropW (crop Samples.leftOnly))%Q
  /\ (cropX (crop Samples.leftOnly) + cropW (crop Samples.leftOnly) - 1024 < 1 # 2 ^ 43)%Q.
Proof. split; [reflexivity |]. split; vm_compute; reflexivity. Qed.

End InverseCropDoubles.
